(** * Cv::Mat: the matrix binding of ruby-opencv

    A shallow embedding of [ext/opencv/mat.cpp] and of [rb_threshold] from
    [ext/opencv/mat_imgproc.cpp].

    The binding glues three worlds together, and the embedding keeps them
    apart:
    - Ruby values ([VALUE]) and the conversions of the Ruby C API
      ([NUM2INT], [NUM2DBL], [rb_raise]);
    - the C++ heap: [cv::Mat] headers allocated with [new], and the
      reference-counted buffers they point into;
    - the OpenCV kernels ([cv::imdecode], [cv::absdiff], [cv::split], the
      matrix expressions behind [operator+] ...), which are a collaborator
      of the binding and enter as the operations of the class [Kernels].

    A binding function is a computation in the monad [M]: it runs on a heap
    and either returns a value, raises a Ruby exception, or runs into
    undefined behaviour of C++ (an access outside a buffer, a dangling
    pointer). *)

From Stdlib Require Import ZArith Lia Bool List.
From Stdlib Require Import Floats.SpecFloat.
From stdpp Require Import base option list gmap strings.

Open Scope Z_scope.
Set Warnings "-register-all".

(** ** C numbers *)

(** The C type [double] is IEEE 754 binary64; its values are the
    [spec_float]s of precision 53. *)
Module Double.

Definition prec : Z := 53.
Definition emax : Z := 1024.

Definition INT_MIN : Z := - 2 ^ 31.
Definition INT_MAX : Z := 2 ^ 31 - 1.

Definition in_int (z : Z) : bool := (INT_MIN <=? z) && (z <=? INT_MAX).

(** [(double)z] for an integer [z]: rounded to nearest, exact below 2^53. *)
Definition of_int (z : Z) : spec_float := binary_normalize prec emax z 0 false.

(** The integer part of a finite double (rounding toward zero). *)
Definition trunc (d : spec_float) : option Z :=
  match d with
  | S754_zero _ => Some 0
  | S754_finite s m e => Some (cond_Zopp s (Z.shiftl (Zpos m) e))
  | S754_infinity _ | S754_nan => None
  end.

(** Conversion of a double to a 32-bit integer as x86-64 performs it
    ([cvttsd2si]): truncation toward zero, and the "integer indefinite"
    value [INT_MIN] when the truncated value does not fit. *)
Definition cvttsd2si (d : spec_float) : Z :=
  match trunc d with
  | Some t => if in_int t then t else INT_MIN
  | None => INT_MIN
  end.

(** [(float)d]: rounding to the nearest binary32 value ([cvtsd2ss]). *)
Definition cvtsd2ss (d : spec_float) : spec_float :=
  match d with
  | S754_finite s m e => binary_round 24 128 s m e
  | _ => d
  end.

(** [(double)f] for a binary32 value [f]: exact ([cvtss2sd]). *)
Definition cvtss2sd (f : spec_float) : spec_float :=
  match f with
  | S754_finite s m e => binary_round prec emax s m e
  | _ => f
  end.

(** Rounding of a finite double to the nearest integer, ties to even
    ([cvRound]). *)
Definition round_even (d : spec_float) : option Z :=
  match d with
  | S754_zero _ => Some 0
  | S754_finite s m e =>
      if 0 <=? e then Some (cond_Zopp s (Z.shiftl (Zpos m) e))
      else
        let q := Z.shiftl (Zpos m) e in
        let r := Zpos m - Z.shiftl q (- e) in
        let half := Z.shiftl 1 (- e - 1) in
        let q' := if r <? half then q
                  else if half <? r then q + 1
                  else if Z.even q then q else q + 1 in
        Some (cond_Zopp s q')
  | S754_infinity _ | S754_nan => None
  end.

End Double.

(** The element types of a matrix, as the C types the binding casts to. *)
Inductive ctype : Set :=
  | T_uchar | T_char | T_ushort | T_short | T_int | T_float | T_double.

(** One component of a matrix element, as it is stored. A buffer is an
    array of components of one C type: an integer type stores an integer, a
    floating type stores a float. *)
Inductive cell : Set :=
  | IntCell (z : Z)
  | FltCell (f : spec_float).

(** The low [w] bits of [z], read as an unsigned and as a signed number. *)
Definition low_bits (w z : Z) : Z := Z.land z (Z.ones w).

Definition sign_extend (w z : Z) : Z :=
  if Z.testbit z (w - 1) then low_bits w z - 2 ^ w else low_bits w z.

(** [(T)d]: the C cast of a double to the element type, as compiled for
    x86-64: through [cvttsd2si] for the integer types (the narrow types keep
    the low bits), by rounding for [float]. *)
Definition cast (T : ctype) (d : spec_float) : cell :=
  match T with
  | T_uchar => IntCell (low_bits 8 (Double.cvttsd2si d))
  | T_char => IntCell (sign_extend 8 (Double.cvttsd2si d))
  | T_ushort => IntCell (low_bits 16 (Double.cvttsd2si d))
  | T_short => IntCell (sign_extend 16 (Double.cvttsd2si d))
  | T_int => IntCell (Double.cvttsd2si d)
  | T_float => FltCell (Double.cvtsd2ss d)
  | T_double => FltCell d
  end.

(** The conversion of a stored component of type [T] to double, which
    building a [cv::Scalar] from a [cv::Scalar_<T>] performs. A cell of the
    other kind is not a [T]. *)
Definition to_double (T : ctype) (c : cell) : option spec_float :=
  match T, c with
  | (T_uchar | T_char | T_ushort | T_short | T_int), IntCell z =>
      Some (Double.of_int z)
  | T_float, FltCell f => Some (Double.cvtss2sd f)
  | T_double, FltCell f => Some f
  | _, _ => None
  end.

(** The values of [T]. *)
Definition in_range (T : ctype) (c : cell) : Prop :=
  match T, c with
  | T_uchar, IntCell z => 0 <= z < 2 ^ 8
  | T_char, IntCell z => - 2 ^ 7 <= z < 2 ^ 7
  | T_ushort, IntCell z => 0 <= z < 2 ^ 16
  | T_short, IntCell z => - 2 ^ 15 <= z < 2 ^ 15
  | T_int, IntCell z => - 2 ^ 31 <= z < 2 ^ 31
  | (T_float | T_double), FltCell _ => True
  | _, _ => False
  end.

(** A cell that can be read as a [T]. *)
Definition is_a (T : ctype) (c : cell) : bool :=
  match to_double T c with Some _ => true | None => false end.

(** A double is representable in [T] when it is the image of a value of
    [T]: for the integer types an integer of the range, for [float] a
    double that the rounding to binary32 and back leaves unchanged; every
    double is a [double]. *)
Definition representable (T : ctype) (d : spec_float) : Prop :=
  match T with
  | T_float => Double.cvtss2sd (Double.cvtsd2ss d) = d
  | T_double => True
  | _ => exists z, in_range T (IntCell z) /\ d = Double.of_int z
  end.

(** [cv::Scalar]: four doubles. *)
Record Scalar : Set := mkScalar {
  val0 : spec_float; val1 : spec_float; val2 : spec_float; val3 : spec_float
}.

(** [s[i]]; there is no component beyond the fourth. *)
Definition Scalar_at (s : Scalar) (i : Z) : option spec_float :=
  if i =? 0 then Some (val0 s)
  else if i =? 1 then Some (val1 s)
  else if i =? 2 then Some (val2 s)
  else if i =? 3 then Some (val3 s)
  else None.

(** [cv::Scalar(v0)]: the other components are zero. *)
Definition Scalar1 (v0 : spec_float) : Scalar :=
  mkScalar v0 (S754_zero false) (S754_zero false) (S754_zero false).

(** [cv::Rect]. *)
Record Rect : Set := mkRect { r_x : Z; r_y : Z; r_width : Z; r_height : Z }.

(** ** OpenCV type tags

    Constants and macros of the OpenCV headers the binding is compiled
    against (core/hal/interface.h, core/cvdef.h, imgproc.hpp). *)

Definition CV_8U : Z := 0.
Definition CV_8S : Z := 1.
Definition CV_16U : Z := 2.
Definition CV_16S : Z := 3.
Definition CV_32S : Z := 4.
Definition CV_32F : Z := 5.
Definition CV_64F : Z := 6.

Definition CV_CN_SHIFT : Z := 3.
Definition CV_CN_MAX : Z := 512.
Definition CV_MAX_DIM : Z := 32.

Definition CV_MAT_DEPTH (flags : Z) : Z := Z.land flags (Z.shiftl 1 CV_CN_SHIFT - 1).
Definition CV_MAT_CN (flags : Z) : Z :=
  Z.land (Z.shiftr flags CV_CN_SHIFT) (CV_CN_MAX - 1) + 1.
Definition CV_MAT_TYPE (flags : Z) : Z :=
  Z.land flags (Z.shiftl CV_CN_MAX CV_CN_SHIFT - 1).
Definition CV_MAKETYPE (depth cn : Z) : Z :=
  CV_MAT_DEPTH depth + Z.shiftl (cn - 1) CV_CN_SHIFT.

Definition CV_8UC1 : Z := CV_MAKETYPE CV_8U 1.
Definition CV_8UC3 : Z := CV_MAKETYPE CV_8U 3.
Definition CV_64FC1 : Z := CV_MAKETYPE CV_64F 1.

Definition THRESH_OTSU : Z := 8.
Definition THRESH_TRIANGLE : Z := 16.

(** The C type of the components of a matrix of a given depth; the eighth
    depth tag has none. *)
Definition ctype_of_depth (depth : Z) : option ctype :=
  if depth =? CV_8U then Some T_uchar
  else if depth =? CV_8S then Some T_char
  else if depth =? CV_16U then Some T_ushort
  else if depth =? CV_16S then Some T_short
  else if depth =? CV_32S then Some T_int
  else if depth =? CV_32F then Some T_float
  else if depth =? CV_64F then Some T_double
  else None.

(** ** The C++ heap *)

(** A [cv::Mat] header of at most two dimensions. Positions inside a buffer
    are counted in components, not in bytes: [m_step] is the row pitch
    [step[0] / elemSize1()], and [m_data] names the buffer and the position
    of the first component of element (0,0); [None] is the null [data]
    pointer. *)
Record Mat : Set := mkMat {
  m_type : Z;
  m_dims : Z;
  m_rows : Z;
  m_cols : Z;
  m_step : Z;
  m_data : option (nat * Z)
}.

Definition Mat_depth (m : Mat) : Z := CV_MAT_DEPTH (m_type m).
Definition Mat_channels (m : Mat) : Z := CV_MAT_CN (m_type m).
Definition Mat_total (m : Mat) : Z := m_rows m * m_cols m.

(** [cv::Mat::empty()]. *)
Definition Mat_empty (m : Mat) : bool :=
  match m_data m with
  | None => true
  | Some _ => (Mat_total m =? 0) || (m_dims m =? 0)
  end.

(** [cv::Mat()]. *)
Definition Mat_default : Mat :=
  {| m_type := 0; m_dims := 0; m_rows := 0; m_cols := 0; m_step := 0;
     m_data := None |}.

(** The shared buffer of one or more headers ([cv::UMatData]). *)
Record UMatData : Set := mkUMatData {
  refcount : Z;
  cells : list cell
}.

(** The live [cv::Mat] objects created with [new] and the live buffers,
    each by address. Addresses are handed out in increasing order and never
    reused. *)
Record heap : Type := mkHeap {
  mats : gmap nat Mat;
  bufs : gmap nat UMatData;
  next_mat : nat;
  next_buf : nat
}.

Definition empty_heap : heap :=
  {| mats := ∅; bufs := ∅; next_mat := 1%nat; next_buf := 1%nat |}.

(** ** Ruby values and exceptions *)

(** [Cv::Mat] or a class derived from it; [CLASS_OF(self)] for a matrix. *)
Inductive klass : Set :=
  | Cv_Mat
  | Cv_Mat_subclass (name : string).

Inductive VALUE : Set :=
  | Qnil
  | Qtrue
  | Qfalse
  | Fixnum (n : Z)
  | Float (d : spec_float)
  | RString (s : string)
  | RArray (elts : list VALUE)
  | MatData (k : klass) (ptr : option nat)
  | ScalarData (s : Scalar)
  | RectData (r : Rect)
  | Object (classname : string).

Inductive error_class : Set :=
  | rb_eTypeError
  | rb_eRangeError
  | rb_eArgError
  | rb_eNoMemError
  | rb_eStandardError.

Inductive format_arg : Set :=
  | arg_int (z : Z)
  | arg_str (s : string).

(** [cv::Exception]: the error code and the message. *)
Record cv_Exception : Set := mkException { code : Z; err : string }.

(** What [rb_raise(class, format, args...)] raises, and what [Error::raise]
    makes of a [cv::Exception]. *)
Inductive exception : Set :=
  | RbError (c : error_class) (format : string) (args : list format_arg)
  | CvError (e : cv_Exception).

(** A C++ computation inside a [try] block. *)
Inductive cv_result (A : Type) : Type :=
  | cv_ok (a : A)
  | cv_throw (e : cv_Exception).
Arguments cv_ok {A} a.
Arguments cv_throw {A} e.

(** ** The monad of the binding *)

Inductive outcome (A : Type) : Type :=
  | Ok (a : A) (h : heap)
  | Raise (e : exception) (h : heap)
  | Undefined.
Arguments Ok {A} a h.
Arguments Raise {A} e h.
Arguments Undefined {A}.

Definition M (A : Type) : Type := heap -> outcome A.

#[global] Instance M_ret : MRet M := fun A a h => Ok a h.

#[global] Instance M_bind : MBind M := fun A B f c h =>
  match c h with
  | Ok a h' => f a h'
  | Raise e h' => Raise e h'
  | Undefined => Undefined
  end.

Definition undefined {A : Type} : M A := fun _ => Undefined.

Definition rb_raise {A : Type} (c : error_class) (format : string)
    (args : list format_arg) : M A :=
  fun h => Raise (RbError c format args) h.

(** A partial step: [None] is undefined behaviour. *)
Definition defined {A : Type} (o : option A) : M A :=
  match o with
  | Some a => mret a
  | None => undefined
  end.

(** Modelled from the spec: ext/opencv/error.cpp, which defines
    [Error::raise], is not among the sources. Errors of the numeric and
    codec collaborators are caught at the call and raised again as a typed
    error that keeps the collaborator's message. *)
Definition Error_raise {A : Type} (e : cv_Exception) : M A :=
  fun h => Raise (CvError e) h.

(** *** Headers and buffers *)

(** [new cv::Mat(...)] once the header is made: a fresh address. *)
Definition new_Mat (m : Mat) : M nat := fun h =>
  Ok (next_mat h)
     {| mats := <[next_mat h := m]> (mats h); bufs := bufs h;
        next_mat := S (next_mat h); next_buf := next_buf h |}.

(** [*ptr]; a null or dangling pointer has no object. *)
Definition deref (ptr : option nat) : M Mat := fun h =>
  match ptr with
  | Some p => match mats h !! p with
              | Some m => Ok m h
              | None => Undefined
              end
  | None => Undefined
  end.

(** [*ptr = m]. *)
Definition assign (ptr : option nat) (m : Mat) : M unit := fun h =>
  match ptr with
  | Some p => match mats h !! p with
              | Some _ => Ok tt {| mats := <[p := m]> (mats h); bufs := bufs h;
                                   next_mat := next_mat h; next_buf := next_buf h |}
              | None => Undefined
              end
  | None => Undefined
  end.

(** A fresh buffer with one reference ([cv::Mat::create]'s allocation). *)
Definition new_buffer (cs : list cell) : M nat := fun h =>
  Ok (next_buf h)
     {| mats := mats h;
        bufs := <[next_buf h := mkUMatData 1 cs]> (bufs h);
        next_mat := next_mat h; next_buf := S (next_buf h) |}.

Definition buffer_of (b : nat) : M UMatData := fun h =>
  match bufs h !! b with
  | Some u => Ok u h
  | None => Undefined
  end.

Definition set_buffer (b : nat) (u : UMatData) : M unit := fun h =>
  Ok tt {| mats := mats h; bufs := <[b := u]> (bufs h);
           next_mat := next_mat h; next_buf := next_buf h |}.

Definition free_buffer (b : nat) : M unit := fun h =>
  Ok tt {| mats := mats h; bufs := delete b (bufs h);
           next_mat := next_mat h; next_buf := next_buf h |}.

(** [cv::Mat::addref()]. *)
Definition Mat_addref (m : Mat) : M unit :=
  match m_data m with
  | Some (b, _) =>
      u ← buffer_of b;
      set_buffer b (mkUMatData (refcount u + 1) (cells u))
  | None => mret tt
  end.

(** [cv::Mat::release()] as the destructor runs it: the buffer goes with
    its last reference. Releasing a header without a buffer does nothing. *)
Definition Mat_release (m : Mat) : M unit :=
  match m_data m with
  | Some (b, _) =>
      u ← buffer_of b;
      if refcount u =? 1 then free_buffer b
      else set_buffer b (mkUMatData (refcount u - 1) (cells u))
  | None => mret tt
  end.

(** [new cv::Mat(m)]: the copy constructor shares the buffer. *)
Definition new_Mat_copy (m : Mat) : M nat :=
  _ ← Mat_addref m;
  new_Mat m.

Definition free_Mat (p : nat) : M unit := fun h =>
  Ok tt {| mats := delete p (mats h); bufs := bufs h;
           next_mat := next_mat h; next_buf := next_buf h |}.

(** [delete ptr]: the destructor releases the buffer; deleting the null
    pointer does nothing. *)
Definition delete_Mat (ptr : option nat) : M unit :=
  match ptr with
  | None => mret tt
  | Some p =>
      m ← deref (Some p);
      _ ← Mat_release m;
      free_Mat p
  end.

(** *** Matrices as the kernels see them *)

(** The contents of a matrix, row by row without padding. *)
Record image : Set := mkImage {
  img_type : Z;
  img_rows : Z;
  img_cols : Z;
  img_cells : list cell
}.

Definition img_channels (i : image) : Z := CV_MAT_CN (img_type i).
Definition img_depth (i : image) : Z := CV_MAT_DEPTH (img_type i).

(** [len] components from position [pos] on, if they are all inside. *)
Definition slice (cs : list cell) (pos len : Z) : option (list cell) :=
  if (0 <=? pos) && (0 <=? len) && (pos + len <=? Z.of_nat (length cs))
  then Some (take (Z.to_nat len) (drop (Z.to_nat pos) cs))
  else None.

Fixpoint gather_rows (cs : list cell) (pos step width : Z) (n : nat)
    : option (list cell) :=
  match n with
  | O => Some []
  | S n' =>
      row ← slice cs pos width;
      rest ← gather_rows cs (pos + step) step width n';
      Some (row ++ rest)
  end.

(** Reading a whole matrix through its header. *)
Definition Mat_image (m : Mat) : M image :=
  match m_data m with
  | None => mret (mkImage (m_type m) (m_rows m) (m_cols m) [])
  | Some (b, off) =>
      u ← buffer_of b;
      cs ← defined (gather_rows (cells u) off (m_step m)
                      (m_cols m * Mat_channels m) (Z.to_nat (m_rows m)));
      mret (mkImage (m_type m) (m_rows m) (m_cols m) cs)
  end.

(** The header of a continuous matrix with the sizes and the type of an
    image: without a buffer, and with the buffer at address [b]. *)
Definition header_without_buffer (i : image) : Mat :=
  {| m_type := CV_MAT_TYPE (img_type i); m_dims := 2;
     m_rows := img_rows i; m_cols := img_cols i;
     m_step := img_cols i * img_channels i; m_data := None |}.

Definition header_of (i : image) (b : nat) : Mat :=
  {| m_type := CV_MAT_TYPE (img_type i); m_dims := 2;
     m_rows := img_rows i; m_cols := img_cols i;
     m_step := img_cols i * img_channels i; m_data := Some (b, 0) |}.

(** A matrix of its own for the output of a kernel ([cv::Mat::create] and
    the kernel's writes): a fresh continuous buffer, or no buffer at all for
    an output without elements. *)
Definition store_image (i : image) : M Mat :=
  if img_rows i * img_cols i =? 0 then mret (header_without_buffer i)
  else b ← new_buffer (img_cells i); mret (header_of i b).

(** The output of a codec: nothing when it produced no image. *)
Definition materialize (o : option image) : M Mat :=
  match o with
  | Some i => store_image i
  | None => mret Mat_default
  end.

(** *** The collaborators *)

(** The right operand of a matrix expression or of [cv::absdiff]. *)
Inductive operand : Set :=
  | by_mat (b : image)
  | by_scalar (s : Scalar)
  | by_double (d : spec_float).

Inductive arith_op : Set := op_add | op_sub | op_mul | op_div.

(** OpenCV as the binding uses it. Each kernel maps the contents of its
    inputs to the contents of its output or throws a [cv::Exception].
    - [fastMalloc depth n]: the allocation behind [cv::Mat::create], [n]
      components of unspecified content, or no memory;
    - [MatExpr op a b]: the value of the expression [a op b] once assigned
      to a matrix;
    - [cv_imdecode], [cv_imread]: no image when the codec does not
      recognise or cannot read its input;
    - [cv_threshold]: the output and the threshold the kernel computed. *)
Class Kernels : Type := {
  fastMalloc : Z -> Z -> option (list cell);
  MatExpr : arith_op -> image -> operand -> cv_result image;
  cv_absdiff : image -> operand -> cv_result image;
  cv_imdecode : list Z -> Z -> cv_result (option image);
  cv_imread : string -> Z -> cv_result (option image);
  cv_threshold : image -> spec_float -> spec_float -> Z
                 -> cv_result (image * spec_float);
  cv_split : image -> cv_result (list image)
}.

(** Error codes of [cv::Error]. *)
Definition StsNoMem : Z := -4.
Definition StsAssert : Z := -215.
Definition StsUnmatchedSizes : Z := -209.

(** *** The Ruby C API *)

Definition NIL_P (v : VALUE) : bool :=
  match v with
  | Qnil => true
  | _ => false
  end.

(** [NUM2INT]: an Integer or a Float that fits a C [int]; anything else in
    this universe has no conversion to an integer. *)
Definition NUM2INT (v : VALUE) : M Z :=
  match v with
  | Fixnum n =>
      if Double.in_int n then mret n
      else rb_raise rb_eRangeError "integer %ld too big to convert to int" [arg_int n]
  | Float d =>
      match Double.trunc d with
      | Some t =>
          if Double.in_int t then mret t
          else rb_raise rb_eRangeError "float %s out of range of integer" []
      | None => rb_raise rb_eRangeError "float %s out of range of integer" []
      end
  | _ => rb_raise rb_eTypeError "no implicit conversion into Integer" []
  end.

(** [NUM2DBL]. *)
Definition NUM2DBL (v : VALUE) : M spec_float :=
  match v with
  | Fixnum n => mret (Double.of_int n)
  | Float d => mret d
  | _ => rb_raise rb_eTypeError "no implicit conversion to float" []
  end.

Definition is_Numeric (v : VALUE) : bool :=
  match v with
  | Fixnum _ | Float _ => true
  | _ => false
  end.

Definition Check_Type_ARRAY (v : VALUE) : M (list VALUE) :=
  match v with
  | RArray elts => mret elts
  | _ => rb_raise rb_eTypeError "wrong argument type (expected Array)" []
  end.

Definition StringValueCStr (v : VALUE) : M string :=
  match v with
  | RString s => mret s
  | _ => rb_raise rb_eTypeError "no implicit conversion into String" []
  end.

Definition rb_obj_classname (v : VALUE) : string :=
  match v with
  | Qnil => "NilClass"
  | Qtrue => "TrueClass"
  | Qfalse => "FalseClass"
  | Fixnum _ => "Integer"
  | Float _ => "Float"
  | RString _ => "String"
  | RArray _ => "Array"
  | MatData Cv_Mat _ => "Cv::Mat"
  | MatData (Cv_Mat_subclass name) _ => name
  | ScalarData _ => "Cv::Scalar"
  | RectData _ => "Cv::Rect"
  | Object name => name
  end.

(** [rb_scan_args(argc, argv, "21", ...)]: two mandatory arguments and an
    optional one, [Qnil] when it is left out. *)
Definition rb_scan_args_21 (argv : list VALUE) : M (VALUE * VALUE * VALUE) :=
  match argv with
  | [v1; v2] => mret (v1, v2, Qnil)
  | [v1; v2; v3] => mret (v1, v2, v3)
  | _ => rb_raise rb_eArgError "wrong number of arguments" []
  end.

(** *** Wrapping *)

Definition rb_klass : klass := Cv_Mat.

(** [TypedData_Get_Struct] on the matrix data type. *)
Definition obj2mat (obj : VALUE) : M (option nat) :=
  match obj with
  | MatData _ ptr => mret ptr
  | _ => rb_raise rb_eTypeError "wrong argument type %s (expected Mat)"
           [arg_str (rb_obj_classname obj)]
  end.

Definition mat2obj (ptr : option nat) (k : klass) : VALUE := MatData k ptr.

Definition CLASS_OF (self : VALUE) : klass :=
  match self with
  | MatData k _ => k
  | _ => rb_klass
  end.

(** [rb_obj_is_kind_of(v, rb_klass)]. *)
Definition is_kind_of_Mat (v : VALUE) : bool :=
  match v with
  | MatData _ _ => true
  | _ => false
  end.

(** [rb_obj_is_kind_of(v, Scalar::klass())]. *)
Definition is_kind_of_Scalar (v : VALUE) : bool :=
  match v with
  | ScalarData _ => true
  | _ => false
  end.

(** Modelled from the spec: ext/opencv/scalar.cpp, which defines
    [Scalar::obj2scalar] and [Scalar::scalar2obj], is not among the sources.
    A scalar is a tuple of up to four doubles, and an operand of another
    type is rejected with a typed error. *)
Definition obj2scalar (obj : VALUE) : M Scalar :=
  match obj with
  | ScalarData s => mret s
  | _ => rb_raise rb_eTypeError "wrong argument type %s (expected Scalar)"
           [arg_str (rb_obj_classname obj)]
  end.

Definition scalar2obj (s : Scalar) : VALUE := ScalarData s.

(** Modelled from the spec: ext/opencv/rect.cpp, which defines
    [Rect::obj2rect], is not among the sources; the region of a view is a
    rectangle, and another type is rejected with a typed error. *)
Definition obj2rect (obj : VALUE) : M Rect :=
  match obj with
  | RectData r => mret r
  | _ => rb_raise rb_eTypeError "wrong argument type %s (expected Rect)"
           [arg_str (rb_obj_classname obj)]
  end.

(** ** The binding *)

Section Binding.

Context `{K : Kernels}.

(** *** OpenCV inline code: constructors and element access *)

(** [cv::Mat(rows, cols, type)]: the sizes must not be negative; a matrix
    without elements gets no buffer, any other gets a buffer of
    unspecified content. *)
Definition Mat_create (rows cols type : Z) : M (cv_result Mat) :=
  let t := CV_MAT_TYPE type in
  let cn := CV_MAT_CN t in
  if (rows <? 0) || (cols <? 0) then
    mret (cv_throw (mkException StsAssert "s >= 0"))
  else if rows * cols =? 0 then
    mret (cv_ok {| m_type := t; m_dims := 2; m_rows := rows; m_cols := cols;
                   m_step := cols * cn; m_data := None |})
  else
    match fastMalloc (CV_MAT_DEPTH t) (rows * cols * cn) with
    | None => mret (cv_throw (mkException StsNoMem "Failed to allocate memory"))
    | Some cs =>
        b ← new_buffer cs;
        mret (cv_ok {| m_type := t; m_dims := 2; m_rows := rows; m_cols := cols;
                       m_step := cols * cn; m_data := Some (b, 0) |})
    end.

(** [cv::Mat(m, roi)]: a header on the region, sharing the buffer of
    [m]. *)
Definition Mat_roi (m : Mat) (roi : Rect) : M (cv_result Mat) :=
  if negb (m_dims m <=? 2) then
    mret (cv_throw (mkException StsAssert "m.dims <= 2"))
  else if negb ((0 <=? r_x roi) && (0 <=? r_width roi)
                && (r_x roi + r_width roi <=? m_cols m)
                && (0 <=? r_y roi) && (0 <=? r_height roi)
                && (r_y roi + r_height roi <=? m_rows m)) then
    mret (cv_throw (mkException StsAssert "roi inside m"))
  else if (r_height roi <=? 0) || (r_width roi <=? 0) then
    mret (cv_ok {| m_type := m_type m; m_dims := 2; m_rows := 0; m_cols := 0;
                   m_step := m_step m; m_data := None |})
  else
    let view :=
      {| m_type := m_type m; m_dims := 2;
         m_rows := r_height roi; m_cols := r_width roi;
         m_step := m_step m;
         m_data := match m_data m with
                   | Some (b, off) =>
                       Some (b, off + r_y roi * m_step m
                                + r_x roi * Mat_channels m)
                   | None => None
                   end |} in
    _ ← Mat_addref view;
    mret (cv_ok view).

(** The zero of a depth. *)
Definition zero_cell (depth : Z) : cell :=
  if (depth =? CV_32F) || (depth =? CV_64F) then FltCell (S754_zero false)
  else IntCell 0.

(** [cv::Mat::zeros(rows, cols, type)] assigned to a matrix: created, then
    filled with zeros. *)
Definition Mat_zeros (rows cols type : Z) : M (cv_result Mat) :=
  let t := CV_MAT_TYPE type in
  let cn := CV_MAT_CN t in
  if (rows <? 0) || (cols <? 0) then
    mret (cv_throw (mkException StsAssert "s >= 0"))
  else if rows * cols =? 0 then
    mret (cv_ok {| m_type := t; m_dims := 2; m_rows := rows; m_cols := cols;
                   m_step := cols * cn; m_data := None |})
  else
    match fastMalloc (CV_MAT_DEPTH t) (rows * cols * cn) with
    | None => mret (cv_throw (mkException StsNoMem "Failed to allocate memory"))
    | Some _ =>
        b ← new_buffer (replicate (Z.to_nat (rows * cols * cn))
                          (zero_cell (CV_MAT_DEPTH t)));
        mret (cv_ok {| m_type := t; m_dims := 2; m_rows := rows; m_cols := cols;
                       m_step := cols * cn; m_data := Some (b, 0) |})
    end.

(** The steps of the header, one per dimension, in components. *)
Definition Mat_steps (m : Mat) : list Z :=
  take (Z.to_nat (m_dims m)) [m_step m; Mat_channels m].

(** [cv::Mat::ptr(const int* idx)]: [idx[i] * step[i]] summed over the
    dimensions. The checks of the index are debug assertions and are not
    compiled into a release build. An index array with fewer entries than
    the matrix has dimensions leaves the later entries uninitialised. *)
Fixpoint ptr_offset (steps : list Z) (index : list Z) : option Z :=
  match steps with
  | [] => Some 0
  | s :: steps' =>
      match index with
      | [] => None
      | i :: index' => o ← ptr_offset steps' index'; Some (i * s + o)
      end
  end.

(** The component of type [T] at position [pos] of a buffer. *)
Definition load (T : ctype) (cs : list cell) (pos : Z) : option spec_float :=
  if pos <? 0 then None
  else c ← cs !! Z.to_nat pos; to_double T c.

(** [cv::Scalar(m.at< cv::Scalar_<T> >(index))]: the four components of
    type [T] that start at the element, each converted to double. *)
Definition Mat_at_Scalar (T : ctype) (m : Mat) (index : list Z) : M Scalar :=
  '(b, off) ← defined (m_data m);
  o ← defined (ptr_offset (Mat_steps m) index);
  u ← buffer_of b;
  v0 ← defined (load T (cells u) (off + o));
  v1 ← defined (load T (cells u) (off + o + 1));
  v2 ← defined (load T (cells u) (off + o + 2));
  v3 ← defined (load T (cells u) (off + o + 3));
  mret (mkScalar v0 v1 v2 v3).

(** [for (int i = 0; i < channels; i++) p[i] = (T)scalar[i];] with
    [n] iterations to go. *)
Fixpoint store_channels (T : ctype) (s : Scalar) (p i : Z) (n : nat)
    (cs : list cell) : option (list cell) :=
  match n with
  | O => Some cs
  | S n' =>
      d ← Scalar_at s i;
      if (0 <=? p + i) && (p + i <? Z.of_nat (length cs)) then
        store_channels T s p (i + 1) n' (<[Z.to_nat (p + i) := cast T d]> cs)
      else None
  end.

(** [T* p = &(m.ptr<T>(y)[x]);] and the loop over the channels. *)
Definition Mat_store (T : ctype) (m : Mat) (y x : Z) (s : Scalar) : M unit :=
  '(b, off) ← defined (m_data m);
  u ← buffer_of b;
  cs ← defined (store_channels T s (off + m_step m * y + x) 0
                  (Z.to_nat (Mat_channels m)) (cells u));
  set_buffer b (mkUMatData (refcount u) cs).

(** The product of two [int]s; signed overflow is undefined. *)
Definition int_mul (a b : Z) : M Z :=
  if Double.in_int (a * b) then mret (a * b) else undefined.

(** *** Construction *)

(** [RTYPEDDATA_DATA(self) = dataptr]. *)
Definition set_data (self : VALUE) (ptr : nat) : VALUE :=
  match self with
  | MatData k _ => MatData k (Some ptr)
  | _ => self
  end.

(** [rb_initialize(argc, argv, self)]. *)
Definition rb_initialize (argv : list VALUE) (self : VALUE) : M VALUE :=
  '(v1, v2, type) ← rb_scan_args_21 argv;
  r ← (if is_Numeric v1 then
         rows ← NUM2INT v1;
         cols ← NUM2INT v2;
         t ← (if NIL_P type then mret CV_8UC1 else NUM2INT type);
         Mat_create rows cols t
       else
         matptr ← obj2mat v1;
         rect ← obj2rect v2;
         m ← deref matptr;
         Mat_roi m rect);
  match r with
  | cv_throw e =>
      _ ← delete_Mat None;
      Error_raise e
  | cv_ok header =>
      dataptr ← new_Mat header;
      m ← deref (Some dataptr);
      if Mat_empty m then
        _ ← delete_Mat (Some dataptr);
        rb_raise rb_eNoMemError "Failed to create matrix" []
      else
        mret (set_data self dataptr)
  end.

(** [rb_zeros(self, rows, cols, type)]. *)
Definition rb_zeros (self rows cols type : VALUE) : M VALUE :=
  r ← NUM2INT rows;
  c ← NUM2INT cols;
  t ← NUM2INT type;
  z ← Mat_zeros r c t;
  match z with
  | cv_throw e =>
      _ ← delete_Mat None;
      Error_raise e
  | cv_ok tmp =>
      destptr ← new_Mat_copy tmp;
      _ ← Mat_release tmp;
      mret (mat2obj (Some destptr) rb_klass)
  end.

(** *** Codecs *)

(** [rb_imread_internal(self, filename, flags, klass)]. *)
Definition rb_imread_internal (self filename flags : VALUE) (k : klass)
    : M VALUE :=
  name ← StringValueCStr filename;
  f ← NUM2INT flags;
  match cv_imread name f with
  | cv_throw e =>
      _ ← delete_Mat None;
      Error_raise e
  | cv_ok o =>
      tmp ← materialize o;
      if Mat_empty tmp then
        rb_raise rb_eStandardError "Failed to load image" []
      else
        dataptr ← new_Mat_copy tmp;
        _ ← Mat_release tmp;
        mret (mat2obj (Some dataptr) k)
  end.

(** [data[i] = (uchar)(NUM2INT(RARRAY_AREF(buf, i)) & 0xff)]: the bytes
    that the loop leaves in the vector [data]. The vector itself, which is
    allocated before the loop, is not on the heap of the model, which holds
    matrix headers and their buffers: that a conversion which raises
    leaves the function without destroying the vector is not expressed
    here. *)
Fixpoint buffer_bytes (elts : list VALUE) : M (list Z) :=
  match elts with
  | [] => mret []
  | v :: rest =>
      n ← NUM2INT v;
      bs ← buffer_bytes rest;
      mret (Z.land n 255 :: bs)
  end.

(** [rb_imdecode_internal(self, buf, flags, klass)]. *)
Definition rb_imdecode_internal (self buf flags : VALUE) (k : klass)
    : M VALUE :=
  elts ← Check_Type_ARRAY buf;
  data ← buffer_bytes elts;
  dstptr ← new_Mat Mat_default;
  f ← NUM2INT flags;
  match cv_imdecode data f with
  | cv_throw e =>
      _ ← delete_Mat (Some dstptr);
      Error_raise e
  | cv_ok o =>
      match o with
      | Some i =>
          dst ← store_image i;
          _ ← assign (Some dstptr) dst;
          mret (mat2obj (Some dstptr) k)
      | None => mret (mat2obj (Some dstptr) k)
      end
  end.

Definition rb_imdecode (self buf flags : VALUE) : M VALUE :=
  rb_imdecode_internal self buf flags rb_klass.

(** *** Element access *)

(** [index[i] = NUM2INT(rb_ary_entry(args, i))] from position [i] on; the
    array [index] has [CV_MAX_DIM] entries. *)
Fixpoint read_index (args : list VALUE) (i : Z) : M (list Z) :=
  match args with
  | [] => mret []
  | v :: rest =>
      n ← NUM2INT v;
      if CV_MAX_DIM <=? i then undefined
      else ns ← read_index rest (i + 1); mret (n :: ns)
  end.

(** [rb_aref(self, args)]. *)
Definition rb_aref (self : VALUE) (args : list VALUE) : M VALUE :=
  index ← read_index args 0;
  selfptr ← obj2mat self;
  m ← deref selfptr;
  let depth := Mat_depth m in
  scalar ←
    (if depth =? CV_8U then Mat_at_Scalar T_uchar m index
     else if depth =? CV_8S then Mat_at_Scalar T_char m index
     else if depth =? CV_16U then Mat_at_Scalar T_ushort m index
     else if depth =? CV_16S then Mat_at_Scalar T_short m index
     else if depth =? CV_32F then Mat_at_Scalar T_float m index
     else if depth =? CV_32S then Mat_at_Scalar T_int m index
     else if depth =? CV_64F then Mat_at_Scalar T_double m index
     else rb_raise rb_eStandardError "Invalid depth: %d" [arg_int depth]);
  mret (scalar2obj scalar).

(** [rb_aset(self, row, col, value)]. *)
Definition rb_aset (self row col value : VALUE) : M VALUE :=
  scalar ← obj2scalar value;
  selfptr ← obj2mat self;
  y ← NUM2INT row;
  c ← NUM2INT col;
  m ← deref selfptr;
  x ← int_mul c (Mat_channels m);
  let depth := Mat_depth m in
  _ ← (if depth =? CV_8U then Mat_store T_uchar m y x scalar
       else if depth =? CV_8S then Mat_store T_char m y x scalar
       else if depth =? CV_16U then Mat_store T_ushort m y x scalar
       else if depth =? CV_16S then Mat_store T_short m y x scalar
       else if depth =? CV_32F then Mat_store T_float m y x scalar
       else if depth =? CV_32S then Mat_store T_int m y x scalar
       else if depth =? CV_64F then Mat_store T_double m y x scalar
       else rb_raise rb_eStandardError "Invalid depth: %d" [arg_int depth]);
  mret self.

(** *** Arithmetic *)

(** The end of every arithmetic operator: [retptr = new cv::Mat(tmp)]
    when the expression was evaluated into [tmp], the handler
    [delete retptr; Error::raise(e)] when it threw (nothing was allocated
    yet), and [mat2obj(retptr, CLASS_OF(self))]. *)
Definition wrap_expr (r : cv_result image) (self : VALUE) : M VALUE :=
  match r with
  | cv_throw e =>
      _ ← delete_Mat None;
      Error_raise e
  | cv_ok i =>
      tmp ← store_image i;
      retptr ← new_Mat_copy tmp;
      _ ← Mat_release tmp;
      mret (mat2obj (Some retptr) (CLASS_OF self))
  end.

(** The contents of the matrix behind a pointer. *)
Definition contents (ptr : option nat) : M image :=
  m ← deref ptr;
  Mat_image m.

(** [rb_add(self, other)]. *)
Definition rb_add (self other : VALUE) : M VALUE :=
  selfptr ← obj2mat self;
  r ← (if is_kind_of_Mat other then
         mat ← obj2mat other;
         a ← contents selfptr;
         b ← contents mat;
         mret (MatExpr op_add a (by_mat b))
       else if is_kind_of_Scalar other then
         s ← obj2scalar other;
         a ← contents selfptr;
         mret (MatExpr op_add a (by_scalar s))
       else
         scale ← NUM2DBL other;
         a ← contents selfptr;
         mret (MatExpr op_add a (by_double scale)));
  wrap_expr r self.

(** [rb_sub(self, other)]. *)
Definition rb_sub (self other : VALUE) : M VALUE :=
  selfptr ← obj2mat self;
  r ← (if is_kind_of_Mat other then
         mat ← obj2mat other;
         a ← contents selfptr;
         b ← contents mat;
         mret (MatExpr op_sub a (by_mat b))
       else if is_kind_of_Scalar other then
         s ← obj2scalar other;
         a ← contents selfptr;
         mret (MatExpr op_sub a (by_scalar s))
       else
         scale ← NUM2DBL other;
         a ← contents selfptr;
         mret (MatExpr op_sub a (by_double scale)));
  wrap_expr r self.

(** [rb_mul(self, other)]. *)
Definition rb_mul (self other : VALUE) : M VALUE :=
  selfptr ← obj2mat self;
  r ← (if is_kind_of_Mat other then
         mat ← obj2mat other;
         a ← contents selfptr;
         b ← contents mat;
         mret (MatExpr op_mul a (by_mat b))
       else
         scale ← NUM2DBL other;
         a ← contents selfptr;
         mret (MatExpr op_mul a (by_double scale)));
  wrap_expr r self.

(** [rb_div(self, other)]. *)
Definition rb_div (self other : VALUE) : M VALUE :=
  selfptr ← obj2mat self;
  r ← (if is_kind_of_Mat other then
         mat ← obj2mat other;
         a ← contents selfptr;
         b ← contents mat;
         mret (MatExpr op_div a (by_mat b))
       else
         scale ← NUM2DBL other;
         a ← contents selfptr;
         mret (MatExpr op_div a (by_double scale)));
  wrap_expr r self.

(** [rb_absdiff(self, other)]. The output header exists before the
    operand is looked at. *)
Definition rb_absdiff (self other : VALUE) : M VALUE :=
  selfptr ← obj2mat self;
  retptr ← new_Mat Mat_default;
  r ← (if is_kind_of_Mat other then
         tmp ← obj2mat other;
         a ← contents selfptr;
         b ← contents tmp;
         mret (cv_absdiff a (by_mat b))
       else if is_kind_of_Scalar other then
         tmp ← obj2scalar other;
         a ← contents selfptr;
         mret (cv_absdiff a (by_scalar tmp))
       else
         _ ← delete_Mat (Some retptr);
         rb_raise rb_eTypeError
           "no implicit conversion of %s into Cv::Mat or Cv::Scalar"
           [arg_str (rb_obj_classname other)]);
  match r with
  | cv_throw e =>
      _ ← delete_Mat (Some retptr);
      Error_raise e
  | cv_ok i =>
      dst ← store_image i;
      _ ← assign (Some retptr) dst;
      mret (mat2obj (Some retptr) (CLASS_OF self))
  end.

(** *** Thresholding *)

(** [rb_assoc_new(a, b)]: the two-element array. *)
Definition rb_assoc_new (a b : VALUE) : VALUE := RArray [a; b].

(** [rb_threshold(self, threshold, max_value, threshold_type)]. *)
Definition rb_threshold (self threshold max_value threshold_type : VALUE)
    : M VALUE :=
  selfptr ← obj2mat self;
  threshold_type_value ← NUM2INT threshold_type;
  dstptr ← new_Mat Mat_default;
  th ← NUM2DBL threshold;
  mv ← NUM2DBL max_value;
  a ← contents selfptr;
  match cv_threshold a th mv threshold_type_value with
  | cv_throw e =>
      _ ← delete_Mat (Some dstptr);
      Error_raise e
  | cv_ok (i, optimal_threshold) =>
      d ← store_image i;
      _ ← assign (Some dstptr) d;
      let dst := mat2obj (Some dstptr) (CLASS_OF self) in
      if negb (Z.land threshold_type_value THRESH_OTSU =? 0)
         || negb (Z.land threshold_type_value THRESH_TRIANGLE =? 0)
      then mret (rb_assoc_new dst (Float optimal_threshold))
      else mret dst
  end.

(** *** Channels *)

(** The vector [splitted] that [cv::split] fills. *)
Fixpoint store_images (planes : list image) : M (list Mat) :=
  match planes with
  | [] => mret []
  | i :: rest =>
      m ← store_image i;
      ms ← store_images rest;
      mret (m :: ms)
  end.

(** [for (int i = 0; i < size; i++) { tmp = new cv::Mat(splitted[i]);
    rb_ary_store(result, i, mat2obj(tmp)); }] from [i] on, with [n]
    iterations to go. A vector has no element beyond its size. *)
Fixpoint split_loop (splitted : list Mat) (i : nat) (n : nat)
    : M (list VALUE) :=
  match n with
  | O => mret []
  | S n' =>
      plane ← defined (splitted !! i);
      tmp ← new_Mat_copy plane;
      rest ← split_loop splitted (S i) n';
      mret (mat2obj (Some tmp) rb_klass :: rest)
  end.

(** The destructor of the vector. *)
Fixpoint release_all (ms : list Mat) : M unit :=
  match ms with
  | [] => mret tt
  | m :: rest => _ ← Mat_release m; release_all rest
  end.

(** [rb_split(self)]. *)
Definition rb_split (self : VALUE) : M VALUE :=
  selfptr ← obj2mat self;
  m ← deref selfptr;
  a ← Mat_image m;
  match cv_split a with
  | cv_throw e => Error_raise e
  | cv_ok planes =>
      splitted ← store_images planes;
      let size := Mat_channels m in
      result ← split_loop splitted 0 (Z.to_nat size);
      _ ← release_all splitted;
      mret (RArray result)
  end.

End Binding.

(** ** A sample collaborator

    A small instance of [Kernels], enough to run the binding on 8-bit
    matrices. On matrices of depth [CV_8U] its kernels follow the contracts
    OpenCV documents (per-element, saturating); on other depths most of
    them are simply not implemented and throw. *)
Module Sample.

Definition not_implemented {A : Type} : cv_result A :=
  cv_throw (mkException (-213) "not implemented in the sample").

(** [cv::saturate_cast<uchar>(d)]: rounded, then clamped. *)
Definition saturate_uchar (d : spec_float) : cell :=
  match Double.round_even d with
  | Some z => IntCell (Z.max 0 (Z.min 255 z))
  | None => IntCell 0
  end.

Definition as_double (c : cell) : spec_float :=
  match c with
  | IntCell z => Double.of_int z
  | FltCell f => f
  end.

Definition apply (op : arith_op) (x y : spec_float) : spec_float :=
  match op with
  | op_add => SFadd Double.prec Double.emax x y
  | op_sub => SFsub Double.prec Double.emax x y
  | op_mul => SFmul Double.prec Double.emax x y
  | op_div => SFdiv Double.prec Double.emax x y
  end.

(** The component of the scalar for the channel of position [pos]. *)
Definition channel_value (s : Scalar) (cn : Z) (pos : nat) : spec_float :=
  match Scalar_at s (Z.of_nat pos mod cn) with
  | Some d => d
  | None => S754_zero false
  end.

Definition with_scalar (f : spec_float -> spec_float -> spec_float)
    (a : image) (s : Scalar) : image :=
  mkImage (img_type a) (img_rows a) (img_cols a)
    (imap (fun pos c =>
             saturate_uchar (f (as_double c) (channel_value s (img_channels a) pos)))
          (img_cells a)).

Definition with_mat (f : spec_float -> spec_float -> spec_float)
    (a b : image) : cv_result image :=
  if (img_type a =? img_type b) && (img_rows a =? img_rows b)
     && (img_cols a =? img_cols b) then
    cv_ok (mkImage (img_type a) (img_rows a) (img_cols a)
             (zip_with (fun x y => saturate_uchar (f (as_double x) (as_double y)))
                (img_cells a) (img_cells b)))
  else cv_throw (mkException StsUnmatchedSizes "Sizes of input arguments do not match").

Definition uniform (d : spec_float) : Scalar := mkScalar d d d d.

(** [a + s], [a - s] take a [cv::Scalar]; a double on the right is
    converted to one, [cv::Scalar(d)]. [a * d] and [a / d] scale every
    component. The matrix product is defined for floating-point matrices
    only. *)
Definition MatExpr (op : arith_op) (a : image) (b : operand)
    : cv_result image :=
  if negb (img_depth a =? CV_8U) then not_implemented
  else
    match op, b with
    | (op_add | op_sub | op_div), by_mat b => with_mat (apply op) a b
    | op_mul, by_mat _ =>
        cv_throw (mkException StsAssert "matrix product of integer matrices")
    | (op_add | op_sub), by_scalar s => cv_ok (with_scalar (apply op) a s)
    | (op_add | op_sub), by_double d => cv_ok (with_scalar (apply op) a (Scalar1 d))
    | (op_mul | op_div), by_double d => cv_ok (with_scalar (apply op) a (uniform d))
    | (op_mul | op_div), by_scalar _ => not_implemented
    end.

Definition absolute_difference (x y : spec_float) : spec_float :=
  SFabs (SFsub Double.prec Double.emax x y).

Definition cv_absdiff (a : image) (b : operand) : cv_result image :=
  if negb (img_depth a =? CV_8U) then not_implemented
  else
    match b with
    | by_mat b => with_mat absolute_difference a b
    | by_scalar s => cv_ok (with_scalar absolute_difference a s)
    | by_double d => cv_ok (with_scalar absolute_difference a (Scalar1 d))
    end.

(** The codec knows one format: the two bytes "P5", the number of rows,
    the number of columns, then one byte per pixel. *)
Definition cv_imdecode (buf : list Z) (flags : Z) : cv_result (option image) :=
  match buf with
  | 80 :: 53 :: rows :: cols :: pixels =>
      if (0 <? rows * cols) && (Z.of_nat (length pixels) =? rows * cols)
      then cv_ok (Some (mkImage CV_8UC1 rows cols (IntCell <$> pixels)))
      else cv_ok None
  | _ => cv_ok None
  end.

(** There are no files. *)
Definition cv_imread (name : string) (flags : Z) : cv_result (option image) :=
  cv_ok None.

Definition cell_value (c : cell) : Z :=
  match c with
  | IntCell z => z
  | FltCell _ => 0
  end.

Definition mean (cs : list cell) : Z :=
  foldr (fun c acc => cell_value c + acc) 0 cs / Z.max 1 (Z.of_nat (length cs)).

(** [THRESH_BINARY] on 8-bit single-channel matrices. With the Otsu or
    the triangle flag the kernel computes the threshold itself; the sample
    takes the mean of the elements in their place. *)
Definition cv_threshold (a : image) (thresh maxval : spec_float) (type : Z)
    : cv_result (image * spec_float) :=
  if negb (img_type a =? CV_8UC1) || negb (Z.land type 7 =? 0) then not_implemented
  else
    let t := if (Z.testbit type 3) || (Z.testbit type 4)
             then Double.of_int (mean (img_cells a)) else thresh in
    cv_ok (mkImage (img_type a) (img_rows a) (img_cols a)
             ((fun c => if SFltb t (as_double c) then saturate_uchar maxval
                        else IntCell 0) <$> img_cells a),
           t).

(** Channel [c] of every element. *)
Fixpoint plane (cn : nat) (c : nat) (cs : list cell) (pos : nat) : list cell :=
  match cs with
  | [] => []
  | x :: rest =>
      if (pos mod cn =? c)%nat then x :: plane cn c rest (S pos)
      else plane cn c rest (S pos)
  end.

(** One plane per channel; for an image without elements [cv::split]
    empties the vector and returns. *)
Definition cv_split (a : image) : cv_result (list image) :=
  let cn := Z.to_nat (img_channels a) in
  if img_rows a * img_cols a =? 0 then cv_ok []
  else
    cv_ok ((fun c => mkImage (CV_MAKETYPE (img_depth a) 1) (img_rows a) (img_cols a)
                       (plane cn c (img_cells a) 0))
           <$> seq 0 cn).

(** Two to the twenty components at most, found zeroed (integers) or
    holding no number (floats). *)
Definition fastMalloc (depth n : Z) : option (list cell) :=
  if (0 <=? n) && (n <=? 2 ^ 20)
  then Some (replicate (Z.to_nat n)
               (if (depth =? CV_32F) || (depth =? CV_64F) then FltCell S754_nan
                else IntCell 0))
  else None.

Definition kernels : Kernels :=
  Build_Kernels fastMalloc MatExpr cv_absdiff cv_imdecode cv_imread
    cv_threshold cv_split.

End Sample.

(** ** Well-formed heaps and matrices *)

(** No address at or beyond the allocation counters is in use. *)
Definition fresh_addresses (h : heap) : Prop :=
  (forall p, (next_mat h <= p)%nat -> mats h !! p = None)
  /\ (forall b, (next_buf h <= b)%nat -> bufs h !! b = None).

(** The header [m] describes a two-dimensional matrix whose elements all
    lie inside the buffer [u], found at address [b] from position [off]
    on; the sizes are those of C [int]s. *)
Record fits (h : heap) (m : Mat) (b : nat) (off : Z) (u : UMatData) : Prop := {
  fits_data : m_data m = Some (b, off);
  fits_buffer : bufs h !! b = Some u;
  fits_dims : m_dims m = 2;
  fits_rows : 0 < m_rows m <= Double.INT_MAX;
  fits_cols : 0 < m_cols m;
  fits_width : m_cols m * Mat_channels m <= Double.INT_MAX;
  fits_step : m_cols m * Mat_channels m <= m_step m;
  fits_offset : 0 <= off;
  fits_length :
    off + (m_rows m - 1) * m_step m + m_cols m * Mat_channels m
    <= Z.of_nat (length (cells u))
}.

(** The law of construction as it reads for every size: the construction
    succeeds and the handle is empty exactly when a size is zero. *)
Definition construction_law `{K : Kernels} (h : heap) (rows cols type : Z)
    : Prop :=
  exists self h' p m,
    rb_initialize [Fixnum rows; Fixnum cols; Fixnum type] (MatData Cv_Mat None) h
      = Ok self h'
    /\ self = MatData Cv_Mat (Some p)
    /\ mats h' !! p = Some m
    /\ Mat_empty m = (rows =? 0) || (cols =? 0).

(** A 2x2 matrix of 8-bit unsigned single-channel elements holding
    1 2 / 3 4, alone on the heap. *)
Definition heap_1234 : heap :=
  {| mats := {[ 1%nat := {| m_type := CV_8UC1; m_dims := 2; m_rows := 2;
                            m_cols := 2; m_step := 2; m_data := Some (1%nat, 0) |} ]};
     bufs := {[ 1%nat := mkUMatData 1 [IntCell 1; IntCell 2; IntCell 3; IntCell 4] ]};
     next_mat := 2%nat; next_buf := 2%nat |}.

(** The type argument of [rb_initialize]: left out, or an integer. *)
Inductive type_argument : list VALUE -> Z -> Prop :=
  | type_omitted : type_argument [] CV_8UC1
  | type_given (t : Z) : Double.in_int t = true -> type_argument [Fixnum t] t.

(** A 2x2 matrix of the eighth depth tag, the one without a C type, as
    [Mat.new(2, 2, 7)] makes it. *)
Definition heap_depth7 : heap :=
  {| mats := {[ 1%nat := {| m_type := 7; m_dims := 2; m_rows := 2;
                            m_cols := 2; m_step := 2; m_data := Some (1%nat, 0) |} ]};
     bufs := {[ 1%nat := mkUMatData 1 (replicate 4 (IntCell 0)) ]};
     next_mat := 2%nat; next_buf := 2%nat |}.

(** The exception of the default branch of the depth switch. *)
Definition invalid_depth (depth : Z) : exception :=
  RbError rb_eStandardError "Invalid depth: %d" [arg_int depth].

(** The double that [NUM2DBL] makes of a number. *)
Definition numeric_value (v : VALUE) : spec_float :=
  match v with
  | Fixnum n => Double.of_int n
  | Float d => d
  | _ => S754_nan
  end.

(** The operands [rb_absdiff] accepts, with what the kernel gets for them: a
    live, readable matrix or a scalar. *)
Inductive absdiff_operand (h : heap) : VALUE -> operand -> Prop :=
  | operand_mat (k : klass) (q : nat) (mq : Mat) (b : image) :
      mats h !! q = Some mq -> Mat_image mq h = Ok b h ->
      absdiff_operand h (MatData k (Some q)) (by_mat b)
  | operand_scalar (s : Scalar) :
      absdiff_operand h (ScalarData s) (by_scalar s).

(** The exception of [rb_absdiff] for an operand of another type. *)
Definition no_implicit_conversion (other : VALUE) : exception :=
  RbError rb_eTypeError "no implicit conversion of %s into Cv::Mat or Cv::Scalar"
    [arg_str (rb_obj_classname other)].

(** ** The scenario of scalar addition *)

(** [m = Mat.zeros(2, 2, CV_8UC1); m[0, 0] = Scalar.new(5); m[0, 0]]. *)
Definition zeros_set_get `{K : Kernels} : M (VALUE * VALUE) :=
  m ← rb_zeros Qnil (Fixnum 2) (Fixnum 2) (Fixnum CV_8UC1);
  _ ← rb_aset m (Fixnum 0) (Fixnum 0) (ScalarData (Scalar1 (Double.of_int 5)));
  e ← rb_aref m [Fixnum 0; Fixnum 0];
  mret (m, e).

(** A 2x2 matrix of 8-bit unsigned single-channel elements with a buffer of
    its own at address [b]. *)
Definition header_2x2 (b : nat) : Mat :=
  {| m_type := CV_8UC1; m_dims := 2; m_rows := 2; m_cols := 2; m_step := 2;
     m_data := Some (b, 0) |}.

(** The heap with the matrix 5 0 / 0 0, and the heap with the sum 8 3 / 3 3
    beside it. *)
Definition heap_5000 : heap :=
  {| mats := {[ 1%nat := header_2x2 1 ]};
     bufs := {[ 1%nat := mkUMatData 1 [IntCell 5; IntCell 0; IntCell 0; IntCell 0] ]};
     next_mat := 2%nat; next_buf := 2%nat |}.

Definition heap_5000_8333 : heap :=
  {| mats := <[ 2%nat := header_2x2 2 ]> {[ 1%nat := header_2x2 1 ]};
     bufs := <[ 2%nat := mkUMatData 1 [IntCell 8; IntCell 3; IntCell 3; IntCell 3] ]>
               {[ 1%nat := mkUMatData 1 [IntCell 5; IntCell 0; IntCell 0; IntCell 0] ]};
     next_mat := 3%nat; next_buf := 3%nat |}.

(** The contract of the sum of an 8-bit matrix and a number, per
    component: the sum as a double, rounded and clamped to 0..255. *)
Definition add_saturate_uchar (d : spec_float) (c : cell) : cell :=
  Sample.saturate_uchar (SFadd Double.prec Double.emax (Sample.as_double c) d).

(** ** The four operators together *)

(** The binding function of an operator. *)
Definition rb_operator `{K : Kernels} (op : arith_op) : VALUE -> VALUE -> M VALUE :=
  match op with
  | op_add => rb_add
  | op_sub => rb_sub
  | op_mul => rb_mul
  | op_div => rb_div
  end.

(** The exception of [NUM2DBL] for an operand that is not a number. *)
Definition not_a_number : exception :=
  RbError rb_eTypeError "no implicit conversion to float" [].

(** ** The planes of [rb_split] *)

(** The headers [ms] hold the images [ims], one each and in order: an image
    with elements in a buffer of its own that has [rc] references, at an
    address not below [lo] and below the addresses of the images after
    it. *)
Inductive planes_stored (bs : gmap nat UMatData) (rc : Z)
    : nat -> list image -> list Mat -> Prop :=
  | planes_nil (lo : nat) : planes_stored bs rc lo [] []
  | planes_without_buffer (lo : nat) (i : image) (ims : list image)
      (ms : list Mat) :
      img_rows i * img_cols i = 0 ->
      planes_stored bs rc lo ims ms ->
      planes_stored bs rc lo (i :: ims) (header_without_buffer i :: ms)
  | planes_with_buffer (lo b : nat) (i : image) (ims : list image)
      (ms : list Mat) :
      img_rows i * img_cols i <> 0 ->
      (lo <= b)%nat ->
      bs !! b = Some (mkUMatData rc (img_cells i)) ->
      planes_stored bs rc (S b) ims ms ->
      planes_stored bs rc lo (i :: ims) (header_of i b :: ms).

(** The handles of [n] headers allocated one after the other from address
    [p] on. *)
Definition handles (p : nat) (n : nat) : list VALUE :=
  (fun j => MatData Cv_Mat (Some (p + j)%nat)) <$> seq 0 n.

(** One row of two 8-bit two-channel elements, (1, 2) and (3, 4), alone on
    the heap. *)
Definition heap_two_channels : heap :=
  {| mats := {[ 1%nat := {| m_type := CV_MAKETYPE CV_8U 2; m_dims := 2;
                            m_rows := 1; m_cols := 2; m_step := 4;
                            m_data := Some (1%nat, 0) |} ]};
     bufs := {[ 1%nat := mkUMatData 1 [IntCell 1; IntCell 2; IntCell 3; IntCell 4] ]};
     next_mat := 2%nat; next_buf := 2%nat |}.

(** The exception of [rb_imread_internal] for a file without an image. *)
Definition failed_to_load : exception :=
  RbError rb_eStandardError "Failed to load image" [].

(** ** The rest of the binding

    The other functions of [ext/opencv/mat.cpp] and of
    [ext/opencv/mat_imgproc.cpp]: the allocator and the finalizer, the
    accessors, clones, the other entry points of the codecs, the operations
    that work in place, merging, and the filters. *)

(** *** More of the Ruby C API *)

(** [rb_scan_args(argc, argv, fmt, ...)] for a format of [req] mandatory and
    [opt] optional arguments: the arguments in order, with [Qnil] for every
    optional argument that is left out. *)
Definition rb_scan_args (req opt : nat) (argv : list VALUE) : M (list VALUE) :=
  if Nat.leb req (length argv) && Nat.leb (length argv) (req + opt)
  then mret (argv ++ replicate (req + opt - length argv) Qnil)
  else rb_raise rb_eArgError "wrong number of arguments" [].

Definition INT2NUM (z : Z) : VALUE := Fixnum z.

Definition DBL2NUM (d : spec_float) : VALUE := Float d.


(** [RTEST(v)]: everything but [nil] and [false] is true. *)
Definition RTEST (v : VALUE) : bool :=
  match v with
  | Qnil | Qfalse => false
  | _ => true
  end.

(** *** More of OpenCV *)

Definition BORDER_DEFAULT : Z := 4.

(** The kernels of the functions below, as maps from the contents of the
    inputs to the contents of the output. [cv_ones] and [cv_eye] are the
    values of the expressions [cv::Mat::ones] and [cv::Mat::eye] once
    assigned to a matrix. [cv_setTo] and [cv_setIdentity] work in place:
    they give the new components of their matrix, row by row. [cv_imwrite]
    gives the status it returns, [cv_imencode] the status and the bytes it
    left in the buffer. An optional mask is [None] for [cv::noArray()]. *)
Class Operations : Type := {
  cv_ones : Z -> Z -> Z -> cv_result image;
  cv_eye : Z -> Z -> Z -> cv_result image;
  cv_imwrite : string -> image -> list Z -> cv_result bool;
  cv_imencode : string -> image -> list Z -> cv_result (bool * list Z);
  cv_setTo : image -> Scalar -> option image -> cv_result (list cell);
  cv_setIdentity : image -> Scalar -> cv_result (list cell);
  cv_merge : list image -> cv_result image;
  cv_hconcat : list image -> cv_result image;
  cv_vconcat : list image -> cv_result image;
  cv_bitwise_and : image -> operand -> option image -> cv_result image;
  cv_bitwise_or : image -> operand -> option image -> cv_result image;
  cv_bitwise_xor : image -> operand -> option image -> cv_result image;
  cv_bitwise_not : image -> option image -> cv_result image;
  cv_dot : image -> image -> cv_result spec_float;
  cv_cross : image -> image -> cv_result image;
  cv_addWeighted : image -> spec_float -> image -> spec_float -> spec_float
                   -> Z -> cv_result image;
  cv_convertScaleAbs : image -> spec_float -> spec_float -> cv_result image;
  cv_convertTo : image -> Z -> spec_float -> spec_float -> cv_result image;
  cv_Sobel : image -> Z -> Z -> Z -> Z -> spec_float -> spec_float -> Z
             -> cv_result image;
  cv_Canny : image -> spec_float -> spec_float -> Z -> bool -> cv_result image;
  cv_Laplacian : image -> Z -> Z -> spec_float -> spec_float -> Z
                 -> cv_result image;
  cv_cvtColor : image -> Z -> Z -> cv_result image;
  cv_medianBlur : image -> Z -> cv_result image;
  cv_adaptiveThreshold : image -> spec_float -> Z -> Z -> Z -> spec_float
                         -> cv_result image
}.

(** [row] written over the components from position [pos] on, if they are
    all inside. *)
Definition splice (cs : list cell) (pos : Z) (row : list cell)
    : option (list cell) :=
  if (0 <=? pos) && (pos + Z.of_nat (length row) <=? Z.of_nat (length cs))
  then Some (take (Z.to_nat pos) cs ++ row
             ++ drop (Z.to_nat pos + length row) cs)
  else None.

(** The rows of a matrix written back into its buffer, [width] components
    each, the first at [pos] and the next one [step] further on. *)
Fixpoint scatter_rows (cs : list cell) (pos step width : Z) (n : nat)
    (new : list cell) : option (list cell) :=
  match n with
  | O => Some cs
  | S n' =>
      cs' ← splice cs pos (take (Z.to_nat width) new);
      scatter_rows cs' (pos + step) step width n' (drop (Z.to_nat width) new)
  end.

(** Writing a whole matrix through its header; the new components are as
    many as the matrix has. *)
Definition Mat_overwrite (m : Mat) (new : list cell) : M unit :=
  match m_data m with
  | None => mret tt
  | Some (b, off) =>
      u ← buffer_of b;
      if negb (Z.of_nat (length new)
               =? m_rows m * (m_cols m * Mat_channels m)) then undefined
      else
        cs ← defined (scatter_rows (cells u) off (m_step m)
                        (m_cols m * Mat_channels m) (Z.to_nat (m_rows m)) new);
        set_buffer b (mkUMatData (refcount u) cs)
  end.

Section Binding2.

Context `{K : Kernels} `{O : Operations}.

(** *** The allocator, the finalizer and the accessors *)

(** [rb_allocate(klass)]: an object without a matrix, its data pointer is
    null. *)
Definition rb_allocate (k : klass) : VALUE := MatData k None.

(** [free_mat(ptr)], which the garbage collector runs on the data pointer of
    an object it collects. *)
Definition free_mat (ptr : option nat) : M unit :=
  match ptr with
  | Some p => delete_Mat (Some p)
  | None => mret tt
  end.

(** [rb_rows(self)]. *)
Definition rb_rows (self : VALUE) : M VALUE :=
  dataptr ← obj2mat self;
  m ← deref dataptr;
  mret (INT2NUM (m_rows m)).

(** [rb_cols(self)]. *)
Definition rb_cols (self : VALUE) : M VALUE :=
  dataptr ← obj2mat self;
  m ← deref dataptr;
  mret (INT2NUM (m_cols m)).

(** [rb_dims(self)]. *)
Definition rb_dims (self : VALUE) : M VALUE :=
  dataptr ← obj2mat self;
  m ← deref dataptr;
  mret (INT2NUM (m_dims m)).

(** [rb_depth(self)]. *)
Definition rb_depth (self : VALUE) : M VALUE :=
  dataptr ← obj2mat self;
  m ← deref dataptr;
  mret (INT2NUM (Mat_depth m)).

(** [rb_channels(self)]. *)
Definition rb_channels (self : VALUE) : M VALUE :=
  dataptr ← obj2mat self;
  m ← deref dataptr;
  mret (INT2NUM (Mat_channels m)).

(** *** Factories *)

(** The end of [rb_ones] and [rb_eye], as of [rb_zeros]: the expression is
    evaluated into the local [tmp], the result is a copy of [tmp], and the
    object is a plain [Cv::Mat]. *)
Definition wrap_factory (r : cv_result image) : M VALUE :=
  match r with
  | cv_throw e =>
      _ ← delete_Mat None;
      Error_raise e
  | cv_ok i =>
      tmp ← store_image i;
      destptr ← new_Mat_copy tmp;
      _ ← Mat_release tmp;
      mret (mat2obj (Some destptr) rb_klass)
  end.

(** [rb_ones(self, rows, cols, type)]. *)
Definition rb_ones (self rows cols type : VALUE) : M VALUE :=
  r ← NUM2INT rows;
  c ← NUM2INT cols;
  t ← NUM2INT type;
  wrap_factory (cv_ones r c t).

(** [rb_eye(self, rows, cols, type)]. *)
Definition rb_eye (self rows cols type : VALUE) : M VALUE :=
  r ← NUM2INT rows;
  c ← NUM2INT cols;
  t ← NUM2INT type;
  wrap_factory (cv_eye r c t).

(** *** Diagonals *)

(** The number of elements of the diagonal [d] of [m]. *)
Definition diag_length (m : Mat) (d : Z) : Z :=
  if 0 <=? d then Z.min (m_cols m - d) (m_rows m)
  else Z.min (m_rows m + d) (m_cols m).

(** The header [m.diag(d)] makes: one column of [diag_length m d] rows on
    the buffer of [m]. It starts [d] elements to the right of the first
    element for [d >= 0] and [-d] rows below it otherwise, and its rows are
    one row and one element of [m] apart. *)
Definition diag_header (m : Mat) (d : Z) : Mat :=
  {| m_type := m_type m; m_dims := m_dims m;
     m_rows := diag_length m d; m_cols := 1;
     m_step := m_step m + (if 1 <? diag_length m d then Mat_channels m else 0);
     m_data := match m_data m with
               | Some (b, off) =>
                   Some (b, if 0 <=? d then off + d * Mat_channels m
                            else off - m_step m * d)
               | None => None
               end |}.

(** [m.diag(d)]: a copy of the header of [m], turned into the header of
    the diagonal. That the diagonal has elements is a debug assertion
    only. *)
Definition Mat_diag (m : Mat) (d : Z) : M (cv_result Mat) :=
  if negb (m_dims m <=? 2) then
    mret (cv_throw (mkException StsAssert "dims <= 2"))
  else
    _ ← Mat_addref m;
    mret (cv_ok (diag_header m d)).

(** [rb_diag(argc, argv, self)]. *)
Definition rb_diag (argv : list VALUE) (self : VALUE) : M VALUE :=
  args ← rb_scan_args 0 1 argv;
  let d := nth 0 args Qnil in
  d_value ← (if NIL_P d then mret 0 else NUM2INT d);
  selfptr ← obj2mat self;
  m ← deref selfptr;
  r ← Mat_diag m d_value;
  match r with
  | cv_throw e =>
      _ ← delete_Mat None;
      Error_raise e
  | cv_ok tmp =>
      retptr ← new_Mat_copy tmp;
      _ ← Mat_release tmp;
      mret (mat2obj (Some retptr) (CLASS_OF self))
  end.

(** *** Clones *)

(** [rb_obj_clone(self)] for a matrix object: a new object of the class of
    [self], made by the allocator of the class. *)
Definition rb_obj_clone (self : VALUE) : VALUE :=
  match self with
  | MatData k _ => rb_allocate k
  | _ => self
  end.

(** [m.copyTo(dst)] for a destination made by [cv::Mat()]: what the
    destination is afterwards. An empty matrix leaves it as it is; any
    other gives it a continuous buffer of its own with the elements of
    [m]. *)
Definition Mat_copyTo (m : Mat) : M (cv_result Mat) :=
  if Mat_empty m then mret (cv_ok Mat_default)
  else
    a ← Mat_image m;
    match fastMalloc (Mat_depth m) (m_rows m * m_cols m * Mat_channels m) with
    | None => mret (cv_throw (mkException StsNoMem "Failed to allocate memory"))
    | Some _ =>
        b ← new_buffer (img_cells a);
        mret (cv_ok (header_of a b))
    end.

(** [rb_clone(self)]. *)
Definition rb_clone (self : VALUE) : M VALUE :=
  let clone := rb_obj_clone self in
  selfptr ← obj2mat self;
  dataptr ← new_Mat Mat_default;
  m ← deref selfptr;
  r ← Mat_copyTo m;
  match r with
  | cv_throw e =>
      _ ← delete_Mat (Some dataptr);
      Error_raise e
  | cv_ok d =>
      _ ← assign (Some dataptr) d;
      mret (set_data clone dataptr)
  end.

(** *** The other entry points of the codecs *)



(** [rb_imdecode_as(self, buf, flags, klass)]. *)
Definition rb_imdecode_as (self buf flags : VALUE) (k : klass) : M VALUE :=
  rb_imdecode_internal self buf flags k.






(** *** Kernels that write into a header made for them *)

(** The end of a function that made the header [dstptr] with
    [new cv::Mat()] and had a kernel write into it: the output in the
    header when the kernel returned, the handler
    [delete dstptr; Error::raise(e)] when it threw, and
    [mat2obj(dstptr, klass)]. *)
Definition into_header (r : cv_result image) (dstptr : nat) (k : klass)
    : M VALUE :=
  match r with
  | cv_throw e =>
      _ ← delete_Mat (Some dstptr);
      Error_raise e
  | cv_ok i =>
      dst ← store_image i;
      _ ← assign (Some dstptr) dst;
      mret (mat2obj (Some dstptr) k)
  end.







(** [rb_dot(self, other)]. *)
Definition rb_dot (self other : VALUE) : M VALUE :=
  selfptr ← obj2mat self;
  mat ← obj2mat other;
  a ← contents selfptr;
  b ← contents mat;
  match cv_dot a b with
  | cv_throw e => Error_raise e
  | cv_ok d => mret (DBL2NUM d)
  end.

(** [rb_cross(self, other)]. *)
Definition rb_cross (self other : VALUE) : M VALUE :=
  selfptr ← obj2mat self;
  mat ← obj2mat other;
  a ← contents selfptr;
  b ← contents mat;
  wrap_expr (cv_cross a b) self.




(** *** Operations in place *)

(** [m.setTo(s, mask)]: the kernel's output written over the elements of
    [m]; [m] itself is what the call returns. *)
Definition Mat_setTo (m : Mat) (s : Scalar) (mask : option image)
    : M (cv_result unit) :=
  a ← Mat_image m;
  match cv_setTo a s mask with
  | cv_throw e => mret (cv_throw e)
  | cv_ok new =>
      _ ← Mat_overwrite m new;
      mret (cv_ok tt)
  end.

(** [rb_set_to(argc, argv, self)]. The local [tmp] is assigned the matrix
    the call of [setTo] returns, the receiver, and the result is a copy of
    [tmp]; [tmp] goes at the end of its block. *)
Definition rb_set_to (argv : list VALUE) (self : VALUE) : M VALUE :=
  args ← rb_scan_args 1 1 argv;
  let value := nth 0 args Qnil in
  let mask := nth 1 args Qnil in
  selfptr ← obj2mat self;
  s ← obj2scalar value;
  m ← deref selfptr;
  r ← (if NIL_P mask then Mat_setTo m s None
       else
         maskptr ← obj2mat mask;
         mk ← contents maskptr;
         Mat_setTo m s (Some mk));
  match r with
  | cv_throw e =>
      _ ← delete_Mat None;
      Error_raise e
  | cv_ok _ =>
      _ ← Mat_addref m;
      dstptr ← new_Mat_copy m;
      _ ← Mat_release m;
      mret (mat2obj (Some dstptr) (CLASS_OF self))
  end.

(** [rb_set_identity(argc, argv, self)]. *)
Definition rb_set_identity (argv : list VALUE) (self : VALUE) : M VALUE :=
  args ← rb_scan_args 0 1 argv;
  let s := nth 0 args Qnil in
  selfptr ← obj2mat self;
  s_value ← (if NIL_P s then mret (Scalar1 (Double.of_int 1)) else obj2scalar s);
  m ← deref selfptr;
  a ← Mat_image m;
  match cv_setIdentity a s_value with
  | cv_throw e => Error_raise e
  | cv_ok new =>
      _ ← Mat_overwrite m new;
      mret self
  end.

(** *** Merging *)

(** The loop that fills the vector [matrixes]: [obj2mat] on every
    element of the array, and [push_back] of the matrix behind the pointer.
    The vector holds a copy of every header, which shares the buffer. *)
Fixpoint merge_loop (elts : list VALUE) : M (list Mat) :=
  match elts with
  | [] => mret []
  | elt :: rest =>
      tmp ← obj2mat elt;
      m ← deref tmp;
      _ ← Mat_addref m;
      ms ← merge_loop rest;
      mret (m :: ms)
  end.

(** The contents of the matrices of a vector, as a kernel reads them. *)
Fixpoint images (ms : list Mat) : M (list image) :=
  match ms with
  | [] => mret []
  | m :: rest =>
      a ← Mat_image m;
      as' ← images rest;
      mret (a :: as')
  end.

(** [rb_merge_array_internal(self, src, merge_func)]. The vector is
    destroyed when the function returns; an exception of Ruby leaves the
    function without running the destructor. *)
Definition rb_merge_array_internal (self src : VALUE)
    (merge_func : list image -> cv_result image) : M VALUE :=
  elts ← Check_Type_ARRAY src;
  matrixes ← merge_loop elts;
  dstptr ← new_Mat Mat_default;
  inputs ← images matrixes;
  match merge_func inputs with
  | cv_throw e =>
      _ ← delete_Mat (Some dstptr);
      Error_raise e
  | cv_ok i =>
      dst ← store_image i;
      _ ← assign (Some dstptr) dst;
      _ ← release_all matrixes;
      mret (mat2obj (Some dstptr) rb_klass)
  end.

(** [rb_merge], [rb_hconcat], [rb_vconcat]. *)
Definition rb_merge (self mv : VALUE) : M VALUE :=
  rb_merge_array_internal self mv cv_merge.

Definition rb_hconcat (self src : VALUE) : M VALUE :=
  rb_merge_array_internal self src cv_hconcat.

Definition rb_vconcat (self src : VALUE) : M VALUE :=
  rb_merge_array_internal self src cv_vconcat.

(** *** Filters *)

(** [rb_sobel(argc, argv, self)]. *)
Definition rb_sobel (argv : list VALUE) (self : VALUE) : M VALUE :=
  args ← rb_scan_args 3 4 argv;
  let ddepth := nth 0 args Qnil in
  let dx := nth 1 args Qnil in
  let dy := nth 2 args Qnil in
  let ksize := nth 3 args Qnil in
  let scale := nth 4 args Qnil in
  let delta := nth 5 args Qnil in
  let border_type := nth 6 args Qnil in
  ksize_value ← (if NIL_P ksize then mret 3 else NUM2INT ksize);
  scale_value ← (if NIL_P scale then mret (Double.of_int 1) else NUM2DBL scale);
  delta_value ← (if NIL_P delta then mret (Double.of_int 0) else NUM2DBL delta);
  border_type_value ← (if NIL_P border_type then mret BORDER_DEFAULT
                       else NUM2INT border_type);
  selfptr ← obj2mat self;
  destptr ← new_Mat Mat_default;
  dd ← NUM2INT ddepth;
  x ← NUM2INT dx;
  y ← NUM2INT dy;
  a ← contents selfptr;
  into_header
    (cv_Sobel a dd x y ksize_value scale_value delta_value border_type_value)
    destptr (CLASS_OF self).

(** [rb_canny(argc, argv, self)]. *)
Definition rb_canny (argv : list VALUE) (self : VALUE) : M VALUE :=
  args ← rb_scan_args 2 2 argv;
  let threshold1 := nth 0 args Qnil in
  let threshold2 := nth 1 args Qnil in
  let aperture_size := nth 2 args Qnil in
  let l2gradient := nth 3 args Qnil in
  aperture_size_value ← (if NIL_P aperture_size then mret 3
                         else NUM2INT aperture_size);
  let l2gradient_value := if RTEST l2gradient then true else false in
  selfptr ← obj2mat self;
  destptr ← new_Mat Mat_default;
  t1 ← NUM2DBL threshold1;
  t2 ← NUM2DBL threshold2;
  a ← contents selfptr;
  into_header (cv_Canny a t1 t2 aperture_size_value l2gradient_value)
    destptr (CLASS_OF self).

(** [rb_laplacian(argc, argv, self)]. *)
Definition rb_laplacian (argv : list VALUE) (self : VALUE) : M VALUE :=
  args ← rb_scan_args 1 4 argv;
  let ddepth := nth 0 args Qnil in
  let ksize := nth 1 args Qnil in
  let scale := nth 2 args Qnil in
  let delta := nth 3 args Qnil in
  let border_type := nth 4 args Qnil in
  ksize_value ← (if NIL_P ksize then mret 3 else NUM2INT ksize);
  scale_value ← (if NIL_P scale then mret (Double.of_int 1) else NUM2DBL scale);
  delta_value ← (if NIL_P delta then mret (Double.of_int 0) else NUM2DBL delta);
  border_type_value ← (if NIL_P border_type then mret BORDER_DEFAULT
                       else NUM2INT border_type);
  selfptr ← obj2mat self;
  destptr ← new_Mat Mat_default;
  dd ← NUM2INT ddepth;
  a ← contents selfptr;
  into_header
    (cv_Laplacian a dd ksize_value scale_value delta_value border_type_value)
    destptr (CLASS_OF self).

(** [rb_cvt_color(argc, argv, self)]. The output header is made before the
    receiver is looked at. *)
Definition rb_cvt_color (argv : list VALUE) (self : VALUE) : M VALUE :=
  args ← rb_scan_args 1 1 argv;
  let code := nth 0 args Qnil in
  let dcn := nth 1 args Qnil in
  dcn_value ← (if NIL_P dcn then mret 0 else NUM2INT dcn);
  destptr ← new_Mat Mat_default;
  selfptr ← obj2mat self;
  c ← NUM2INT code;
  a ← contents selfptr;
  into_header (cv_cvtColor a c dcn_value) destptr (CLASS_OF self).

(** [rb_median_blur(self, ksize)]. *)
Definition rb_median_blur (self ksize : VALUE) : M VALUE :=
  selfptr ← obj2mat self;
  dstptr ← new_Mat Mat_default;
  ks ← NUM2INT ksize;
  a ← contents selfptr;
  into_header (cv_medianBlur a ks) dstptr (CLASS_OF self).

(** [rb_adaptive_threshold(self, max_value, adaptive_method,
    threshold_type, block_size, delta)]. *)
Definition rb_adaptive_threshold
    (self max_value adaptive_method threshold_type block_size delta : VALUE)
    : M VALUE :=
  selfptr ← obj2mat self;
  dstptr ← new_Mat Mat_default;
  mv ← NUM2DBL max_value;
  am ← NUM2INT adaptive_method;
  tt' ← NUM2INT threshold_type;
  bs ← NUM2INT block_size;
  d ← NUM2DBL delta;
  a ← contents selfptr;
  into_header (cv_adaptiveThreshold a mv am tt' bs d) dstptr (CLASS_OF self).

End Binding2.

(** ** More sample heaps *)

(** One element of five 8-bit channels, alone on the heap. *)
Definition heap_five_channels : heap :=
  {| mats := {[ 1%nat := {| m_type := CV_MAKETYPE CV_8U 5; m_dims := 2;
                            m_rows := 1; m_cols := 1; m_step := 5;
                            m_data := Some (1%nat, 0) |} ]};
     bufs := {[ 1%nat := mkUMatData 1 (replicate 5 (IntCell 0)) ]};
     next_mat := 2%nat; next_buf := 2%nat |}.

(** ** Views *)

(** The header of the region [roi] of the matrix [m]: the type and the row
    pitch of [m], the sizes of the region, and the data pointer of [m] moved
    to the first element of the region. *)
Definition region (m : Mat) (roi : Rect) : Mat :=
  {| m_type := m_type m; m_dims := 2;
     m_rows := r_height roi; m_cols := r_width roi;
     m_step := m_step m;
     m_data := match m_data m with
               | Some (b, off) =>
                   Some (b, off + r_y roi * m_step m + r_x roi * Mat_channels m)
               | None => None
               end |}.

(** A region with elements that lies inside the matrix. *)
Definition inside (roi : Rect) (m : Mat) : Prop :=
  0 <= r_x roi /\ 0 < r_width roi /\ r_x roi + r_width roi <= m_cols m
  /\ 0 <= r_y roi /\ 0 < r_height roi /\ r_y roi + r_height roi <= m_rows m.

(** A computation run for its effect. *)
Definition effect {A : Type} (c : M A) : M unit := _ ← c; mret tt.

(** ** More of the sample collaborator

    A small instance of [Operations] on 8-bit matrices, in the manner of
    [Sample]: the codec writes the format the sample decoder reads, and most
    filters are not implemented. *)
Module SampleOperations.

(** The encoder of the format of [Sample.cv_imdecode]; it knows one
    extension. *)
Definition cv_imencode (ext : string) (a : image) (params : list Z)
    : cv_result (bool * list Z) :=
  if negb (String.eqb ext ".pgm") then
    cv_throw (mkException (-2) "could not find encoder for the specified extension")
  else if negb (img_type a =? CV_8UC1) then cv_ok (false, [])
  else cv_ok (true, 80 :: 53 :: img_rows a :: img_cols a
                    :: (Sample.cell_value <$> img_cells a)).

(** Every component becomes the value of the scalar for its channel. *)
Definition cv_setTo (a : image) (s : Scalar) (mask : option image)
    : cv_result (list cell) :=
  match mask with
  | Some _ => Sample.not_implemented
  | None =>
      if negb (img_depth a =? CV_8U) then Sample.not_implemented
      else cv_ok (imap (fun pos _ =>
                          Sample.saturate_uchar
                            (Sample.channel_value s (img_channels a) pos))
                    (img_cells a))
  end.

(** Single-channel matrices: the value of the scalar on the diagonal, zero
    elsewhere. *)
Definition cv_setIdentity (a : image) (s : Scalar) : cv_result (list cell) :=
  if negb (img_type a =? CV_8UC1) then Sample.not_implemented
  else cv_ok (imap (fun pos _ =>
                      if Z.of_nat pos / img_cols a =? Z.of_nat pos mod img_cols a
                      then Sample.saturate_uchar (val0 s)
                      else IntCell 0)
                (img_cells a)).

(** The components of the planes, taken in turn. *)
Fixpoint interleave (planes : list (list cell)) (n : nat) : list cell :=
  match n with
  | O => []
  | S n' =>
      omap head planes ++ interleave (tail <$> planes) n'
  end.

Definition cv_merge (mv : list image) : cv_result image :=
  match mv with
  | [] => cv_throw (mkException StsAssert "mv && n > 0")
  | a :: _ =>
      if forallb (fun b => (img_type b =? CV_8UC1) && (img_rows b =? img_rows a)
                           && (img_cols b =? img_cols a)) mv
      then cv_ok (mkImage (CV_MAKETYPE CV_8U (Z.of_nat (length mv)))
                    (img_rows a) (img_cols a)
                    (interleave (img_cells <$> mv) (length (img_cells a))))
      else cv_throw (mkException StsUnmatchedSizes "Sizes of input arguments do not match")
  end.

(** Matrices of one type and width, one below the other. *)
Definition cv_vconcat (src : list image) : cv_result image :=
  match src with
  | [] => cv_ok (mkImage 0 0 0 [])
  | a :: _ =>
      if forallb (fun b => (img_type b =? img_type a)
                           && (img_cols b =? img_cols a)) src
      then cv_ok (mkImage (img_type a)
                    (foldr (fun b acc => img_rows b + acc) 0 src) (img_cols a)
                    (concat (img_cells <$> src)))
      else cv_throw (mkException StsUnmatchedSizes "Sizes of input arguments do not match")
  end.

Definition cv_bitwise_not (a : image) (mask : option image) : cv_result image :=
  match mask with
  | Some _ => Sample.not_implemented
  | None =>
      if negb (img_depth a =? CV_8U) then Sample.not_implemented
      else cv_ok (mkImage (img_type a) (img_rows a) (img_cols a)
                    ((fun c => IntCell (255 - Sample.cell_value c))
                     <$> img_cells a))
  end.

(** Gray to three equal channels ([COLOR_GRAY2BGR], code 8). *)
Definition cv_cvtColor (a : image) (code dcn : Z) : cv_result image :=
  if (img_type a =? CV_8UC1) && (code =? 8) then
    cv_ok (mkImage CV_8UC3 (img_rows a) (img_cols a)
             (img_cells a ≫= fun c => [c; c; c]))
  else Sample.not_implemented.

(** A median over one element is the element. *)
Definition cv_medianBlur (a : image) (ksize : Z) : cv_result image :=
  if ksize =? 1 then cv_ok a else Sample.not_implemented.

(** Ones for single-channel 8-bit matrices with elements. *)
Definition cv_ones (rows cols type : Z) : cv_result image :=
  if (CV_MAT_TYPE type =? CV_8UC1) && (0 <? rows) && (0 <? cols) then
    cv_ok (mkImage CV_8UC1 rows cols (replicate (Z.to_nat (rows * cols)) (IntCell 1)))
  else Sample.not_implemented.

(** One file can be written. *)
Definition cv_imwrite (name : string) (a : image) (params : list Z)
    : cv_result bool :=
  cv_ok (String.eqb name "out.pgm").

Definition operations : Operations :=
  Build_Operations cv_ones (fun _ _ _ => Sample.not_implemented) cv_imwrite
    cv_imencode cv_setTo cv_setIdentity cv_merge
    (fun _ => Sample.not_implemented) cv_vconcat
    (fun _ _ _ => Sample.not_implemented) (fun _ _ _ => Sample.not_implemented)
    (fun _ _ _ => Sample.not_implemented) cv_bitwise_not
    (fun _ _ => Sample.not_implemented) (fun _ _ => Sample.not_implemented)
    (fun _ _ _ _ _ _ => Sample.not_implemented)
    (fun _ _ _ => Sample.not_implemented)
    (fun _ _ _ _ => Sample.not_implemented)
    (fun _ _ _ _ _ _ _ _ => Sample.not_implemented)
    (fun _ _ _ _ _ => Sample.not_implemented)
    (fun _ _ _ _ _ _ => Sample.not_implemented)
    cv_cvtColor cv_medianBlur
    (fun _ _ _ _ _ _ => Sample.not_implemented).

End SampleOperations.

(** ** Functions that return a new matrix *)

(** The header that holds the image [i] as the output of a kernel, with its
    buffer at address [b] if it has elements. *)
Definition output_header (i : image) (b : nat) : Mat :=
  if img_rows i * img_cols i =? 0 then header_without_buffer i
  else header_of i b.

(** The buffers after the output [i] of a kernel was stored. *)
Definition output_buffers (i : image) (h : heap) : gmap nat UMatData :=
  if img_rows i * img_cols i =? 0 then bufs h
  else <[next_buf h := mkUMatData 1 (img_cells i)]> (bufs h).

(** What the call [call] does on the heap [h] when its kernel gives [r]:
    for an output, the call returns an object of the class [k] on a new
    header that holds the output in a buffer of its own, and the matrices
    and buffers that were on the heap are as before; for an exception, the
    call raises it again and leaves the matrices and buffers of the heap as
    they were. *)
Definition returns_new (h : heap) (k : klass) (call : M VALUE)
    (r : cv_result image) : Prop :=
  match r with
  | cv_ok i =>
      exists h',
        call h = Ok (MatData k (Some (next_mat h))) h'
        /\ mats h' = <[next_mat h := output_header i (next_buf h)]> (mats h)
        /\ bufs h' = output_buffers i h
  | cv_throw e =>
      exists h', call h = Raise (CvError e) h'
                 /\ mats h' = mats h /\ bufs h' = bufs h
  end.

(** ** The inputs of a merge *)

(** The number of headers among [ms] that refer to the buffer [b]. *)
Fixpoint uses (b : nat) (ms : list Mat) : Z :=
  match ms with
  | [] => 0
  | m :: rest =>
      match m_data m with
      | Some (b', _) => if decide (b' = b) then 1 + uses b rest else uses b rest
      | None => uses b rest
      end
  end.

(** A buffer with [n] references more. *)
Definition retained (n : Z) (u : UMatData) : UMatData :=
  mkUMatData (refcount u + n) (cells u).

(** An array of handles on live matrices that can be read, with their
    headers and their contents; a buffer that a header refers to has at
    least that one reference. *)
Inductive merge_inputs (h : heap) : list VALUE -> list Mat -> list image -> Prop :=
  | inputs_nil : merge_inputs h [] [] []
  | inputs_cons (k : klass) (q : nat) (m : Mat) (a : image)
      (elts : list VALUE) (ms : list Mat) (ims : list image) :
      mats h !! q = Some m ->
      Mat_image m h = Ok a h ->
      (forall b off, m_data m = Some (b, off) ->
         exists u, bufs h !! b = Some u /\ 0 < refcount u) ->
      merge_inputs h elts ms ims ->
      merge_inputs h (MatData k (Some q) :: elts) (m :: ms) (a :: ims).

(** The matrix 1 2 / 3 4 and the header of an empty matrix beside it. *)
Definition heap_1234_empty : heap :=
  {| mats := <[ 2%nat := Mat_default ]> {[ 1%nat := header_2x2 1 ]};
     bufs := {[ 1%nat := mkUMatData 1 [IntCell 1; IntCell 2; IntCell 3; IntCell 4] ]};
     next_mat := 3%nat; next_buf := 2%nat |}.

(** ** Headers that are left behind *)

(** From [h] to [h'], the header allocated next was made and is still
    there, an empty matrix that no object refers to; the buffers are as
    before. *)
Definition header_left_behind (h h' : heap) : Prop :=
  mats h !! next_mat h = None
  /\ mats h' = <[next_mat h := Mat_default]> (mats h)
  /\ bufs h' = bufs h.
(** * Properties *)

(** ** Tactics *)

#[local] Arguments Double.in_int : simpl never.
#[local] Arguments CV_MAT_DEPTH : simpl never.
#[local] Arguments CV_MAT_CN : simpl never.
#[local] Arguments CV_MAT_TYPE : simpl never.
#[local] Arguments Z.mul : simpl never.
#[local] Arguments Z.add : simpl never.
#[local] Arguments Z.sub : simpl never.
#[local] Arguments Z.ltb : simpl never.
#[local] Arguments Z.leb : simpl never.
#[local] Arguments Z.eqb : simpl never.
#[local] Arguments Z.land : simpl never.
#[local] Arguments Z.of_nat : simpl never.
#[local] Arguments Z.to_nat : simpl never.

(** Unfolding the plumbing of [M]. *)
Create HintDb monad_unfold discriminated.
#[local] Hint Unfold mbind M_bind mret M_ret defined undefined deref int_mul
  buffer_of set_buffer new_buffer free_buffer new_Mat free_Mat assign rb_raise
  Error_raise : monad_unfold.

Ltac monad :=
  repeat (progress (autounfold with monad_unfold;
                    cbv beta iota zeta;
                    cbn [mats bufs next_mat next_buf m_data refcount cells])).

(** Closed facts about concrete numbers and maps. *)
Ltac by_computation :=
  vm_compute; repeat split; first [reflexivity | discriminate].

(** Splitting a goal into its conjuncts. *)
Ltac conj := repeat match goal with |- _ /\ _ => split end.

(** ** Exact conversions between integers and doubles *)

Section DoubleFacts.

Import Double.

Lemma digits2_pos_iter_xO (p k : positive) :
  digits2_pos (Pos.iter xO p k) = (digits2_pos p + k)%positive.
Proof.
  induction k as [|k IH] using Pos.peano_ind.
  - simpl. lia.
  - rewrite Pos.iter_succ. simpl. rewrite IH. lia.
Qed.

Lemma Zpos_iter_xO (p k : positive) :
  Zpos (Pos.iter xO p k) = Zpos p * 2 ^ Zpos k.
Proof.
  induction k as [|k IH] using Pos.peano_ind.
  - simpl. lia.
  - rewrite Pos.iter_succ, Pos2Z.inj_succ, Z.pow_succ_r by lia.
    rewrite Pos2Z.inj_xO, IH. lia.
Qed.

Lemma digits2_pos_bound (p : positive) (n : Z) :
  0 <= n -> Zpos p < 2 ^ n -> Zpos (digits2_pos p) <= n.
Proof.
  revert n. induction p as [p IH|p IH|]; intros n Hn Hlt; cbn [digits2_pos].
  - assert (n <> 0) by (intros ->; simpl in Hlt; lia).
    specialize (IH (n - 1)). replace n with (Z.succ (n - 1)) in Hlt by lia.
    rewrite Z.pow_succ_r in Hlt by lia. rewrite Pos2Z.inj_succ. lia.
  - assert (n <> 0) by (intros ->; simpl in Hlt; lia).
    specialize (IH (n - 1)). replace n with (Z.succ (n - 1)) in Hlt by lia.
    rewrite Z.pow_succ_r in Hlt by lia. rewrite Pos2Z.inj_succ. lia.
  - assert (n <> 0) by (intros ->; simpl in Hlt; lia). lia.
Qed.

(** A mantissa of full width is not shifted. *)
Lemma shr_fexp_full (m : positive) (e : Z) :
  Zpos (digits2_pos m) = 53 -> -1074 <= e ->
  shr_fexp prec emax (Zpos m) e loc_Exact
  = ({| shr_m := Zpos m; shr_r := false; shr_s := false |}, e).
Proof.
  intros Hd He. unfold shr_fexp, fexp, emin, prec, emax. cbn [Zdigits2].
  rewrite Hd. replace (Z.max (53 + e - 53) (3 - 1024 - 53) - e) with 0 by lia.
  reflexivity.
Qed.

Lemma binary_round_aux_full (s : bool) (m : positive) (e : Z) :
  Zpos (digits2_pos m) = 53 -> -1074 <= e <= 971 ->
  binary_round_aux prec emax s (Zpos m) e loc_Exact = S754_finite s m e.
Proof.
  intros Hd He. unfold binary_round_aux.
  rewrite shr_fexp_full by lia. cbn [shr_m loc_of_shr_record round_nearest_even].
  rewrite shr_fexp_full by lia. cbn [shr_m].
  unfold emax, prec. destruct (Z.leb_spec e (1024 - 53)); [reflexivity | lia].
Qed.

(** An integer of at most 53 bits becomes a mantissa shifted to full
    width, with the value unchanged. *)
Lemma binary_round_integer (s : bool) (p : positive) :
  Zpos (digits2_pos p) <= 53 ->
  exists m e, binary_round prec emax s p 0 = S754_finite s m e
    /\ e <= 0 /\ Zpos m = Zpos p * 2 ^ (- e).
Proof.
  intros Hd. unfold binary_round, shl_align, fexp, emin.
  rewrite Z.add_0_r, Z.sub_0_r.
  replace (Z.max (Zpos (digits2_pos p) - prec) (3 - emax - prec))
    with (Zpos (digits2_pos p) - 53) by (unfold prec, emax; lia).
  destruct (Zpos (digits2_pos p) - 53) as [|q|q] eqn:E; try lia.
  - rewrite binary_round_aux_full by lia.
    exists p, 0. split; [reflexivity|]. split; [lia|]. simpl. lia.
  - rewrite binary_round_aux_full.
    + exists (Pos.iter xO p q), (Zneg q). split; [reflexivity|]. split; [lia|].
      apply Zpos_iter_xO.
    + rewrite digits2_pos_iter_xO. lia.
    + lia.
Qed.

Lemma trunc_of_int (z : Z) :
  - 2 ^ 53 < z < 2 ^ 53 -> trunc (of_int z) = Some z.
Proof.
  intros Hz. unfold of_int, binary_normalize.
  destruct z as [|p|p]; [reflexivity | |].
  - destruct (binary_round_integer false p) as (m & e & -> & He & Hm).
    { apply digits2_pos_bound; lia. }
    cbn [trunc cond_Zopp]. f_equal. rewrite Hm.
    rewrite <- (Z.opp_involutive e) at 2. rewrite Z.shiftl_opp_r.
    rewrite Z.shiftr_div_pow2 by lia. apply Z.div_mul. apply Z.pow_nonzero; lia.
  - destruct (binary_round_integer true p) as (m & e & -> & He & Hm).
    { apply digits2_pos_bound; lia. }
    cbn [trunc cond_Zopp]. f_equal. rewrite Hm.
    rewrite <- (Z.opp_involutive e) at 2. rewrite Z.shiftl_opp_r.
    rewrite Z.shiftr_div_pow2 by lia. rewrite Z.div_mul; [lia|].
    apply Z.pow_nonzero; lia.
Qed.

(** Converting a C [int] to double and back is the identity. *)
Lemma cvttsd2si_of_int (z : Z) :
  - 2 ^ 31 <= z < 2 ^ 31 -> cvttsd2si (of_int z) = z.
Proof.
  intros Hz. unfold cvttsd2si. rewrite trunc_of_int by lia.
  unfold in_int, INT_MIN, INT_MAX.
  destruct (Z.leb_spec (- 2 ^ 31) z); [|lia].
  destruct (Z.leb_spec z (2 ^ 31 - 1)); [reflexivity|lia].
Qed.

End DoubleFacts.

(** ** Narrowing *)

Lemma low_bits_mod (w z : Z) : 0 <= w -> low_bits w z = z mod 2 ^ w.
Proof. intros Hw. unfold low_bits. now rewrite Z.land_ones. Qed.

Lemma low_bits_small (w z : Z) : 0 <= w -> 0 <= z < 2 ^ w -> low_bits w z = z.
Proof. intros Hw Hz. rewrite low_bits_mod by lia. now apply Z.mod_small. Qed.

Lemma sign_extend_small (w z : Z) :
  0 < w -> - 2 ^ (w - 1) <= z < 2 ^ (w - 1) -> sign_extend w z = z.
Proof.
  intros Hw Hz. unfold sign_extend.
  assert (2 ^ w = 2 * 2 ^ (w - 1)) as Hp.
  { replace w with (Z.succ (w - 1)) at 1 by lia. apply Z.pow_succ_r. lia. }
  rewrite low_bits_mod by lia.
  rewrite Z.testbit_odd, Z.shiftr_div_pow2 by lia.
  destruct (Z_lt_le_dec z 0) as [Hneg|Hpos].
  - replace (z / 2 ^ (w - 1)) with (-1).
    + cbn [Z.odd]. rewrite <- (Z.mod_add z 1) by lia.
      rewrite Z.mod_small by lia. lia.
    + apply Z.div_unique with (r := z + 2 ^ (w - 1)); lia.
  - rewrite Z.div_small by lia. cbn [Z.odd]. apply Z.mod_small. lia.
Qed.

(** A value of the element type survives the cast and the conversion back
    to double. *)
Lemma to_double_cast (T : ctype) (d : spec_float) :
  representable T d -> to_double T (cast T d) = Some d.
Proof.
  destruct T; cbn [representable cast to_double in_range].
  - intros (z & Hz & ->). rewrite cvttsd2si_of_int by lia.
    now rewrite low_bits_small by lia.
  - intros (z & Hz & ->). rewrite cvttsd2si_of_int by lia.
    now rewrite sign_extend_small by lia.
  - intros (z & Hz & ->). rewrite cvttsd2si_of_int by lia.
    now rewrite low_bits_small by lia.
  - intros (z & Hz & ->). rewrite cvttsd2si_of_int by lia.
    now rewrite sign_extend_small by lia.
  - intros (z & Hz & ->). now rewrite cvttsd2si_of_int by lia.
  - intros ->. reflexivity.
  - reflexivity.
Qed.

(** What was cast to [T] can be read as a [T]. *)
Lemma is_a_cast (T : ctype) (d : spec_float) : is_a T (cast T d) = true.
Proof. destruct T; reflexivity. Qed.

(** The spec's example of a truncating write: 300 becomes 44. *)
Lemma cast_uchar_300 :
  to_double T_uchar (cast T_uchar (Double.of_int 300)) = Some (Double.of_int 44).
Proof. reflexivity. Qed.

(** ** Running the monad *)

Lemma bind_Ok {A B : Type} (c : M A) (f : A -> M B) (h h' : heap) (a : A) :
  c h = Ok a h' -> (c ≫= f) h = f a h'.
Proof. intros E. unfold mbind, M_bind. now rewrite E. Qed.

Lemma NUM2INT_Fixnum (n : Z) (h : heap) :
  Double.in_int n = true -> NUM2INT (Fixnum n) h = Ok n h.
Proof. intros E. unfold NUM2INT. now rewrite E. Qed.

Lemma in_int_iff (z : Z) :
  Double.in_int z = true <-> - 2 ^ 31 <= z <= 2 ^ 31 - 1.
Proof.
  unfold Double.in_int, Double.INT_MIN, Double.INT_MAX.
  rewrite andb_true_iff, !Z.leb_le. reflexivity.
Qed.

Lemma CV_MAT_CN_pos (flags : Z) : 1 <= CV_MAT_CN flags.
Proof.
  unfold CV_MAT_CN.
  assert (0 <= Z.land (Z.shiftr flags CV_CN_SHIFT) (CV_CN_MAX - 1)).
  { apply Z.land_nonneg. right. unfold CV_CN_MAX. lia. }
  lia.
Qed.

(** ** The depth switch *)

(** The [switch] of [rb_aref] and of [rb_aset] selects the branch of the C
    type that belongs to the depth, and the default branch for the depth
    that has none. *)
Lemma depth_switch {A : Type} (depth : Z) (branch : ctype -> A) (default : A) :
  (if depth =? CV_8U then branch T_uchar
   else if depth =? CV_8S then branch T_char
   else if depth =? CV_16U then branch T_ushort
   else if depth =? CV_16S then branch T_short
   else if depth =? CV_32F then branch T_float
   else if depth =? CV_32S then branch T_int
   else if depth =? CV_64F then branch T_double
   else default)
  = match ctype_of_depth depth with
    | Some T => branch T
    | None => default
    end.
Proof.
  unfold ctype_of_depth, CV_8U, CV_8S, CV_16U, CV_16S, CV_32S, CV_32F, CV_64F.
  repeat match goal with
         | |- context [?a =? ?b] => destruct (Z.eqb_spec a b); try lia
         end; reflexivity.
Qed.

(** ** Writing and reading one element *)

Section ElementAccess.

Variable T : ctype.
Variable s : Scalar.

(** The loop of [rb_aset] writes [n] casts at consecutive positions and
    touches nothing else. *)
Lemma store_channels_spec (p : Z) (n : nat) :
  forall (i : Z) (cs : list cell),
    0 <= i -> i + Z.of_nat n <= 4 -> 0 <= p + i ->
    p + i + Z.of_nat n <= Z.of_nat (length cs) ->
    exists cs',
      store_channels T s p i n cs = Some cs'
      /\ length cs' = length cs
      /\ (forall j, i <= j < i + Z.of_nat n ->
            exists d, Scalar_at s j = Some d
                      /\ cs' !! Z.to_nat (p + j) = Some (cast T d))
      /\ (forall q : nat, (Z.of_nat q < p + i \/ p + i + Z.of_nat n <= Z.of_nat q) ->
            cs' !! q = cs !! q).
Proof.
  induction n as [|n IH]; intros i cs Hi Hn Hp Hlen.
  - exists cs. cbn [store_channels]. split; [reflexivity|]. split; [reflexivity|].
    split; [intros j Hj; lia | reflexivity].
  - cbn [store_channels].
    assert (exists d, Scalar_at s i = Some d) as [d Hd].
    { unfold Scalar_at.
      repeat match goal with
             | |- context [?a =? ?b] => destruct (Z.eqb_spec a b); eauto
             end. lia. }
    rewrite Hd. cbn [mbind option_bind].
    destruct (Z.leb_spec 0 (p + i)); [|lia].
    destruct (Z.ltb_spec (p + i) (Z.of_nat (length cs))); [|lia].
    cbn [andb].
    destruct (IH (i + 1) (<[Z.to_nat (p + i) := cast T d]> cs))
      as (cs' & Hrun & Hlen' & Hnew & Hold);
      try rewrite length_insert; try lia.
    exists cs'. split; [exact Hrun|]. split; [now rewrite Hlen', length_insert|].
    split.
    + intros j Hj. destruct (Z.eq_dec j i) as [->|Hne].
      * exists d. split; [exact Hd|].
        rewrite Hold by lia. apply list_lookup_insert_eq. lia.
      * apply Hnew. lia.
    + intros q Hq. rewrite Hold by lia.
      apply list_lookup_insert_ne. lia.
Qed.

End ElementAccess.

(** Reading an index array of integers. *)
Lemma read_index_pair (row col : Z) (h : heap) :
  Double.in_int row = true -> Double.in_int col = true ->
  read_index [Fixnum row; Fixnum col] 0 h = Ok [row; col] h.
Proof.
  intros Hr Hc. cbn [read_index].
  unfold mbind, M_bind. rewrite (NUM2INT_Fixnum row h Hr).
  change (CV_MAX_DIM <=? 0) with false. cbv beta iota.
  rewrite (NUM2INT_Fixnum col h Hc).
  change (CV_MAX_DIM <=? 0 + 1) with false. reflexivity.
Qed.

(** [rb_aset] on a matrix of a supported depth, at an element inside it:
    the buffer is the only thing that changes. *)
Lemma rb_aset_inside (h : heap) (k : klass) (p : nat) (m : Mat) (b : nat)
    (off : Z) (u : UMatData) (T : ctype) (row col : Z) (s : Scalar) :
  mats h !! p = Some m ->
  fits h m b off u ->
  ctype_of_depth (Mat_depth m) = Some T ->
  Mat_channels m <= 4 ->
  0 <= row < m_rows m -> 0 <= col < m_cols m ->
  exists cs',
    rb_aset (MatData k (Some p)) (Fixnum row) (Fixnum col) (ScalarData s) h
    = Ok (MatData k (Some p))
        {| mats := mats h;
           bufs := <[b := mkUMatData (refcount u) cs']> (bufs h);
           next_mat := next_mat h; next_buf := next_buf h |}
    /\ length cs' = length (cells u)
    /\ (forall i, 0 <= i < Mat_channels m ->
          exists d, Scalar_at s i = Some d
            /\ cs' !! Z.to_nat (off + row * m_step m + col * Mat_channels m + i)
               = Some (cast T d))
    /\ (forall q : nat,
          (Z.of_nat q < off + row * m_step m + col * Mat_channels m
           \/ off + row * m_step m + col * Mat_channels m + Mat_channels m
              <= Z.of_nat q) ->
          cs' !! q = cells u !! q).
Proof.
  intros Hm [Hdata Hbuf Hdims Hrows Hcols Hwidth Hstep Hoff Hlen] HT Hcn Hrow Hcol.
  pose proof (CV_MAT_CN_pos (m_type m)) as Hcn1. fold (Mat_channels m) in Hcn1.
  unfold Double.INT_MAX in *.
  assert (Double.in_int row = true) as Hir by (apply in_int_iff; lia).
  assert (Double.in_int col = true) as Hic by (apply in_int_iff; nia).
  assert (Double.in_int (col * Mat_channels m) = true) as Hix by (apply in_int_iff; nia).
  destruct (store_channels_spec T s (off + m_step m * row + col * Mat_channels m)
              (Z.to_nat (Mat_channels m)) 0 (cells u))
    as (cs' & Hrun & Hlen' & Hnew & Hold); try (rewrite ?Z2Nat.id; nia).
  exists cs'. split; [|split; [exact Hlen'|split]].
  - unfold rb_aset. cbn [obj2scalar obj2mat]. monad.
    rewrite (NUM2INT_Fixnum row h Hir). monad.
    rewrite (NUM2INT_Fixnum col h Hic). monad.
    rewrite Hm. monad. rewrite Hix. monad.
    rewrite (depth_switch (Mat_depth m)
               (fun T0 => Mat_store T0 m row (col * Mat_channels m) s)), HT.
    unfold Mat_store. rewrite Hdata. monad. rewrite Hbuf. monad.
    rewrite Hrun. reflexivity.
  - intros i Hi. destruct (Hnew i) as (d & Hd & Hget); [rewrite Z2Nat.id; lia|].
    exists d. split; [exact Hd|]. rewrite <- Hget. do 2 f_equal. lia.
  - intros q Hq. apply Hold. rewrite Z2Nat.id by lia. lia.
Qed.

(** [rb_aref] with a two-dimensional index: the four components from the
    element on, whatever the channel count. *)
Lemma rb_aref_at (h : heap) (k : klass) (p : nat) (m : Mat) (b : nat)
    (off : Z) (u : UMatData) (T : ctype) (row col : Z)
    (v0 v1 v2 v3 : spec_float) :
  mats h !! p = Some m ->
  m_data m = Some (b, off) ->
  bufs h !! b = Some u ->
  m_dims m = 2 ->
  ctype_of_depth (Mat_depth m) = Some T ->
  Double.in_int row = true -> Double.in_int col = true ->
  let pos := off + row * m_step m + col * Mat_channels m in
  load T (cells u) pos = Some v0 ->
  load T (cells u) (pos + 1) = Some v1 ->
  load T (cells u) (pos + 2) = Some v2 ->
  load T (cells u) (pos + 3) = Some v3 ->
  rb_aref (MatData k (Some p)) [Fixnum row; Fixnum col] h
  = Ok (ScalarData (mkScalar v0 v1 v2 v3)) h.
Proof.
  intros Hm Hdata Hbuf Hdims HT Hir Hic pos H0 H1 H2 H3.
  unfold rb_aref.
  rewrite (bind_Ok _ _ _ _ _ (read_index_pair row col h Hir Hic)).
  cbn [obj2mat]. monad. rewrite Hm. monad.
  rewrite (depth_switch (Mat_depth m) (fun T0 => Mat_at_Scalar T0 m [row; col])), HT.
  unfold Mat_at_Scalar, Mat_steps. rewrite Hdata, Hdims.
  change (Z.to_nat 2) with 2%nat. cbn [take ptr_offset]. monad.
  cbn [option_bind]. monad. rewrite Hbuf. monad.
  replace (off + (row * m_step m + (col * Mat_channels m + 0))) with pos
    by (unfold pos; lia).
  rewrite H0, H1, H2, H3. reflexivity.
Qed.

(** A position inside a buffer of [T]s can be loaded. *)
Lemma load_inside (T : ctype) (cs : list cell) (pos : Z) :
  Forall (fun c => is_a T c = true) cs ->
  0 <= pos < Z.of_nat (length cs) ->
  exists v, load T cs pos = Some v.
Proof.
  intros Hall Hpos. unfold load.
  destruct (Z.ltb_spec pos 0); [lia|].
  destruct (lookup_lt_is_Some_2 cs (Z.to_nat pos)) as [c Hc]; [lia|].
  rewrite Hc. cbn [mbind option_bind].
  rewrite Forall_lookup in Hall. specialize (Hall _ _ Hc).
  unfold is_a in Hall. destruct (to_double T c); [eauto | discriminate].
Qed.

Lemma load_lookup (T : ctype) (cs : list cell) (pos : Z) (c : cell) :
  0 <= pos -> cs !! Z.to_nat pos = Some c -> load T cs pos = to_double T c.
Proof.
  intros Hpos Hc. unfold load. destruct (Z.ltb_spec pos 0); [lia|].
  now rewrite Hc.
Qed.

(** ** The round trip inside the buffer *)

(** What does come back. On a matrix of a supported depth with at most
    four channels, where the four components that [rb_aref] reads lie
    inside the buffer: writing the tuple [s] at an element inside the matrix
    and reading the element back succeeds, and each of the first
    [channels] components read is the component written, cast to the
    element type and converted back. A component that is a value of the
    element type comes back unchanged, and 300 written into an 8-bit
    unsigned element comes back as 44. *)
Lemma aset_aref_round_trip (h : heap) (k : klass) (p : nat) (m : Mat)
    (b : nat) (off : Z) (u : UMatData) (T : ctype) (row col : Z) (s : Scalar) :
  mats h !! p = Some m ->
  fits h m b off u ->
  ctype_of_depth (Mat_depth m) = Some T ->
  Mat_channels m <= 4 ->
  Forall (fun c => is_a T c = true) (cells u) ->
  0 <= row < m_rows m -> 0 <= col < m_cols m ->
  off + row * m_step m + col * Mat_channels m + 4 <= Z.of_nat (length (cells u)) ->
  exists h' s',
    rb_aset (MatData k (Some p)) (Fixnum row) (Fixnum col) (ScalarData s) h
      = Ok (MatData k (Some p)) h'
    /\ rb_aref (MatData k (Some p)) [Fixnum row; Fixnum col] h'
      = Ok (ScalarData s') h'
    /\ forall i d, 0 <= i < Mat_channels m -> Scalar_at s i = Some d ->
         Scalar_at s' i = to_double T (cast T d)
         /\ (representable T d -> Scalar_at s' i = Some d)
         /\ (T = T_uchar -> d = Double.of_int 300 ->
             Scalar_at s' i = Some (Double.of_int 44)).
Proof.
  intros Hm Hfits HT Hcn Hall Hrow Hcol Hread.
  destruct (rb_aset_inside h k p m b off u T row col s Hm Hfits HT Hcn Hrow Hcol)
    as (cs' & Hset & Hlen & Hnew & Hold).
  destruct Hfits as [Hdata Hbuf Hdims Hrows Hcols Hwidth Hstep Hoff Hfit].
  pose proof (CV_MAT_CN_pos (m_type m)) as Hcn1. fold (Mat_channels m) in Hcn1.
  unfold Double.INT_MAX in *.
  set (pos := off + row * m_step m + col * Mat_channels m) in *.
  assert (0 <= pos) as Hpos by (unfold pos; nia).
  set (h' := {| mats := mats h;
                bufs := <[b := mkUMatData (refcount u) cs']> (bufs h);
                next_mat := next_mat h; next_buf := next_buf h |}) in *.
  assert (Forall (fun c => is_a T c = true) cs') as Hall'.
  { apply Forall_lookup. intros q c Hq.
    destruct (Z_lt_le_dec (Z.of_nat q) pos) as [Hlt|Hge].
    - rewrite Hold in Hq by lia. rewrite Forall_lookup in Hall. eauto.
    - destruct (Z_lt_le_dec (Z.of_nat q) (pos + Mat_channels m)) as [Hin|Hout].
      + destruct (Hnew (Z.of_nat q - pos)) as (d & _ & Hget); [lia|].
        replace (pos + (Z.of_nat q - pos)) with (Z.of_nat q) in Hget by lia.
        rewrite Nat2Z.id in Hget. rewrite Hget in Hq. injection Hq as <-.
        apply is_a_cast.
      + rewrite Hold in Hq by lia. rewrite Forall_lookup in Hall. eauto. }
  destruct (load_inside T cs' pos Hall') as [v0 H0]; [lia|].
  destruct (load_inside T cs' (pos + 1) Hall') as [v1 H1]; [lia|].
  destruct (load_inside T cs' (pos + 2) Hall') as [v2 H2]; [lia|].
  destruct (load_inside T cs' (pos + 3) Hall') as [v3 H3]; [lia|].
  exists h', (mkScalar v0 v1 v2 v3).
  split; [exact Hset|]. split.
  - apply (rb_aref_at h' k p m b off (mkUMatData (refcount u) cs') T row col);
      try assumption.
    + unfold h'. cbn [bufs]. apply lookup_insert_eq.
    + apply in_int_iff. lia.
    + apply in_int_iff. nia.
  - intros i d Hi Hd.
    assert (Scalar_at (mkScalar v0 v1 v2 v3) i = to_double T (cast T d)) as Hround.
    { destruct (Hnew i Hi) as (d' & Hd' & Hget).
      rewrite Hd in Hd'. injection Hd' as <-.
      fold pos in Hget.
      rewrite <- (load_lookup T cs' (pos + i) (cast T d)) by (lia || exact Hget).
      assert (i = 0 \/ i = 1 \/ i = 2 \/ i = 3) as [-> | [-> | [-> | ->]]] by lia;
        cbv [Scalar_at Z.eqb Pos.eqb val0 val1 val2 val3];
        rewrite ?Z.add_0_r; congruence. }
    split; [exact Hround|]. split.
    + intros Hrep. rewrite Hround. now apply to_double_cast.
    + intros -> ->. rewrite Hround. apply cast_uchar_300.
Qed.

(** [rb_aref] where the four components it reads do not all lie inside
    the buffer. *)
Lemma rb_aref_beyond (h : heap) (k : klass) (p : nat) (m : Mat) (b : nat)
    (off : Z) (u : UMatData) (T : ctype) (row col : Z) :
  mats h !! p = Some m ->
  m_data m = Some (b, off) ->
  bufs h !! b = Some u ->
  m_dims m = 2 ->
  ctype_of_depth (Mat_depth m) = Some T ->
  Double.in_int row = true -> Double.in_int col = true ->
  Z.of_nat (length (cells u))
  < off + row * m_step m + col * Mat_channels m + 4 ->
  rb_aref (MatData k (Some p)) [Fixnum row; Fixnum col] h = Undefined.
Proof.
  intros Hm Hdata Hbuf Hdims HT Hir Hic Hend.
  set (pos := off + row * m_step m + col * Mat_channels m) in *.
  assert (load T (cells u) (pos + 3) = None) as H3.
  { unfold load. destruct (pos + 3 <? 0); [reflexivity|].
    rewrite lookup_ge_None_2 by lia. reflexivity. }
  unfold rb_aref.
  rewrite (bind_Ok _ _ _ _ _ (read_index_pair row col h Hir Hic)).
  cbn [obj2mat]. monad. rewrite Hm. monad.
  rewrite (depth_switch (Mat_depth m) (fun T0 => Mat_at_Scalar T0 m [row; col])), HT.
  unfold Mat_at_Scalar, Mat_steps. rewrite Hdata, Hdims.
  change (Z.to_nat 2) with 2%nat. cbn [take ptr_offset]. monad.
  cbn [option_bind]. monad. rewrite Hbuf. monad.
  replace (off + (row * m_step m + (col * Mat_channels m + 0))) with pos
    by (unfold pos; lia).
  rewrite H3.
  destruct (load T (cells u) pos); [|reflexivity].
  destruct (load T (cells u) (pos + 1)); [|reflexivity].
  destruct (load T (cells u) (pos + 2)); reflexivity.
Qed.

(** ** Claim C1: the round trip of an element *)

(** C1. The round trip does not hold at every element: [rb_aset] writes
    one component per channel, but [rb_aref] reads a [cv::Scalar_<T>],
    four components of the element type from the element on, whatever the
    number of channels. On a matrix of a supported depth with at most four
    channels, writing the tuple [s] at an element inside the matrix
    succeeds. Reading the same element back is undefined behaviour when
    fewer than four components lie between the element and the end of the
    buffer: the read goes beyond the buffer. When four components do lie
    there, the read returns a tuple whose components from [channels] on
    are not part of the element: they are what the buffer held after the
    element before the write, the elements that follow it. *)
Theorem rb_aref_reads_four_components (h : heap) (k : klass) (p : nat)
    (m : Mat) (b : nat) (off : Z) (u : UMatData) (T : ctype) (row col : Z)
    (s : Scalar) :
  mats h !! p = Some m ->
  fits h m b off u ->
  ctype_of_depth (Mat_depth m) = Some T ->
  Mat_channels m <= 4 ->
  0 <= row < m_rows m -> 0 <= col < m_cols m ->
  let pos := off + row * m_step m + col * Mat_channels m in
  exists h',
    rb_aset (MatData k (Some p)) (Fixnum row) (Fixnum col) (ScalarData s) h
      = Ok (MatData k (Some p)) h'
    /\ (Z.of_nat (length (cells u)) < pos + 4 ->
        rb_aref (MatData k (Some p)) [Fixnum row; Fixnum col] h' = Undefined)
    /\ (pos + 4 <= Z.of_nat (length (cells u)) ->
        Forall (fun c => is_a T c = true) (cells u) ->
        exists s',
          rb_aref (MatData k (Some p)) [Fixnum row; Fixnum col] h'
            = Ok (ScalarData s') h'
          /\ forall i, Mat_channels m <= i < 4 ->
               Scalar_at s' i = load T (cells u) (pos + i)).
Proof.
  intros Hm Hfits HT Hcn Hrow Hcol pos.
  destruct (rb_aset_inside h k p m b off u T row col s Hm Hfits HT Hcn Hrow Hcol)
    as (cs' & Hset & Hlen & Hnew & Hold).
  destruct Hfits as [Hdata Hbuf Hdims Hrows Hcols Hwidth Hstep Hoff Hfit].
  pose proof (CV_MAT_CN_pos (m_type m)) as Hcn1. fold (Mat_channels m) in Hcn1.
  unfold Double.INT_MAX in *. fold pos in Hnew, Hold.
  assert (0 <= pos) as Hpos by (unfold pos; nia).
  assert (Double.in_int row = true) as Hir by (apply in_int_iff; lia).
  assert (Double.in_int col = true) as Hic by (apply in_int_iff; nia).
  set (h' := {| mats := mats h;
                bufs := <[b := mkUMatData (refcount u) cs']> (bufs h);
                next_mat := next_mat h; next_buf := next_buf h |}) in *.
  assert (bufs h' !! b = Some (mkUMatData (refcount u) cs')) as Hbuf'
    by (unfold h'; cbn [bufs]; apply lookup_insert_eq).
  exists h'. split; [exact Hset|]. split.
  - intros Hend.
    apply (rb_aref_beyond h' k p m b off (mkUMatData (refcount u) cs') T row col);
      try assumption.
    cbn [cells]. fold pos. lia.
  - intros Hread Hall.
    assert (Forall (fun c => is_a T c = true) cs') as Hall'.
    { apply Forall_lookup. intros q c Hq.
      destruct (Z_lt_le_dec (Z.of_nat q) pos) as [Hlt|Hge].
      - rewrite Hold in Hq by lia. rewrite Forall_lookup in Hall. eauto.
      - destruct (Z_lt_le_dec (Z.of_nat q) (pos + Mat_channels m)) as [Hin|Hout].
        + destruct (Hnew (Z.of_nat q - pos)) as (d & _ & Hget); [lia|].
          replace (pos + (Z.of_nat q - pos)) with (Z.of_nat q) in Hget by lia.
          rewrite Nat2Z.id in Hget. rewrite Hget in Hq. injection Hq as <-.
          apply is_a_cast.
        + rewrite Hold in Hq by lia. rewrite Forall_lookup in Hall. eauto. }
    destruct (load_inside T cs' pos Hall') as [v0 H0]; [lia|].
    destruct (load_inside T cs' (pos + 1) Hall') as [v1 H1]; [lia|].
    destruct (load_inside T cs' (pos + 2) Hall') as [v2 H2]; [lia|].
    destruct (load_inside T cs' (pos + 3) Hall') as [v3 H3]; [lia|].
    assert (forall i, Mat_channels m <= i ->
            load T cs' (pos + i) = load T (cells u) (pos + i)) as Hafter.
    { intros i Hi. unfold load. destruct (pos + i <? 0); [reflexivity|].
      rewrite Hold; [reflexivity|]. right. rewrite Z2Nat.id by lia. lia. }
    exists (mkScalar v0 v1 v2 v3). split.
    + apply (rb_aref_at h' k p m b off (mkUMatData (refcount u) cs') T row col);
        assumption.
    + intros i Hi. rewrite <- Hafter by lia.
      assert (i = 1 \/ i = 2 \/ i = 3) as [-> | [-> | ->]] by lia;
        cbv [Scalar_at Z.eqb Pos.eqb val0 val1 val2 val3]; congruence.
Qed.

(** On the matrix 1 2 / 3 4 of 8-bit single-channel elements, whose buffer
    holds four components: after 5 is written at the last element, (1, 1),
    reading (1, 1) goes three components beyond the buffer. *)
Lemma rb_aref_reads_four_components_witness :
  exists h',
    rb_aset (MatData Cv_Mat (Some 1%nat)) (Fixnum 1) (Fixnum 1)
        (ScalarData (Scalar1 (Double.of_int 5))) heap_1234
      = Ok (MatData Cv_Mat (Some 1%nat)) h'
    /\ rb_aref (MatData Cv_Mat (Some 1%nat)) [Fixnum 1; Fixnum 1] h' = Undefined.
Proof.
  destruct (rb_aref_reads_four_components heap_1234 Cv_Mat 1%nat
              {| m_type := CV_8UC1; m_dims := 2; m_rows := 2; m_cols := 2;
                 m_step := 2; m_data := Some (1%nat, 0) |}
              1%nat 0
              (mkUMatData 1 [IntCell 1; IntCell 2; IntCell 3; IntCell 4])
              T_uchar 1 1 (Scalar1 (Double.of_int 5))
              eq_refl ltac:(split; by_computation) eq_refl
              ltac:(by_computation) ltac:(by_computation) ltac:(by_computation))
    as (h' & Hset & Hbeyond & _).
  exists h'. split; [exact Hset|]. apply Hbeyond. by_computation.
Defined.

(** ** Construction *)

Section Construction.

Context `{K : Kernels}.

(** [rb_initialize] with sizes: up to the call of the constructor. *)
Lemma rb_initialize_sized (h : heap) (self : VALUE) (rows cols t : Z)
    (targ : list VALUE) :
  Double.in_int rows = true -> Double.in_int cols = true ->
  type_argument targ t ->
  rb_initialize (Fixnum rows :: Fixnum cols :: targ) self h
  = (Mat_create rows cols t ≫= fun r =>
       match r with
       | cv_throw e => delete_Mat None ≫= fun _ => Error_raise e
       | cv_ok header =>
           new_Mat header ≫= fun dataptr =>
           deref (Some dataptr) ≫= fun m =>
           if Mat_empty m then
             delete_Mat (Some dataptr) ≫= fun _ =>
             rb_raise rb_eNoMemError "Failed to create matrix" []
           else mret (set_data self dataptr)
       end) h.
Proof.
  intros Hr Hc Ht. unfold rb_initialize.
  destruct Ht as [|t Ht]; cbn [rb_scan_args_21].
  - unfold mbind at 1, M_bind at 1, mret at 1, M_ret at 1. cbv beta iota.
    cbn [is_Numeric NIL_P].
    unfold mbind at 1, M_bind at 1. unfold mbind at 1, M_bind at 1.
    rewrite (NUM2INT_Fixnum rows h Hr).
    unfold mbind at 1, M_bind at 1. rewrite (NUM2INT_Fixnum cols h Hc).
    unfold mbind at 1, M_bind at 1, mret at 1, M_ret at 1. cbv beta iota.
    reflexivity.
  - unfold mbind at 1, M_bind at 1, mret at 1, M_ret at 1. cbv beta iota.
    cbn [is_Numeric NIL_P].
    unfold mbind at 1, M_bind at 1. unfold mbind at 1, M_bind at 1.
    rewrite (NUM2INT_Fixnum rows h Hr).
    unfold mbind at 1, M_bind at 1. rewrite (NUM2INT_Fixnum cols h Hc).
    unfold mbind at 1, M_bind at 1. rewrite (NUM2INT_Fixnum t h Ht).
    reflexivity.
Qed.

(** Positive sizes and an allocation that succeeds: the object gets a
    header with a buffer of its own. *)
Lemma rb_initialize_elements (h : heap) (self : VALUE) (rows cols t : Z)
    (targ : list VALUE) (cs : list cell) :
  Double.in_int rows = true -> Double.in_int cols = true ->
  type_argument targ t ->
  0 < rows -> 0 < cols ->
  fastMalloc (CV_MAT_DEPTH (CV_MAT_TYPE t))
    (rows * cols * CV_MAT_CN (CV_MAT_TYPE t)) = Some cs ->
  rb_initialize (Fixnum rows :: Fixnum cols :: targ) self h
  = Ok (set_data self (next_mat h))
      {| mats := <[next_mat h :=
                     {| m_type := CV_MAT_TYPE t; m_dims := 2; m_rows := rows;
                        m_cols := cols;
                        m_step := cols * CV_MAT_CN (CV_MAT_TYPE t);
                        m_data := Some (next_buf h, 0) |}]> (mats h);
         bufs := <[next_buf h := mkUMatData 1 cs]> (bufs h);
         next_mat := S (next_mat h); next_buf := S (next_buf h) |}.
Proof.
  intros Hr Hc Ht Hrows Hcols Halloc.
  rewrite (rb_initialize_sized h self rows cols t targ Hr Hc Ht).
  unfold Mat_create.
  destruct (Z.ltb_spec rows 0); [lia|]. destruct (Z.ltb_spec cols 0); [lia|].
  cbn [orb]. destruct (Z.eqb_spec (rows * cols) 0); [nia|].
  rewrite Halloc. monad. rewrite lookup_insert_eq. monad.
  unfold Mat_empty, Mat_total. cbn [m_data m_rows m_cols m_dims].
  destruct (Z.eqb_spec (rows * cols) 0); [nia|]. reflexivity.
Qed.

(** A size of zero: the constructor makes a header without a buffer, the
    binding finds it empty, deletes it and raises. *)
Lemma rb_initialize_no_elements (h : heap) (self : VALUE) (rows cols t : Z)
    (targ : list VALUE) :
  fresh_addresses h ->
  Double.in_int rows = true -> Double.in_int cols = true ->
  type_argument targ t ->
  0 <= rows -> 0 <= cols -> rows = 0 \/ cols = 0 ->
  rb_initialize (Fixnum rows :: Fixnum cols :: targ) self h
  = Raise (RbError rb_eNoMemError "Failed to create matrix" [])
      {| mats := mats h; bufs := bufs h;
         next_mat := S (next_mat h); next_buf := next_buf h |}.
Proof.
  intros [Hfresh _] Hr Hc Ht Hrows Hcols Hzero.
  rewrite (rb_initialize_sized h self rows cols t targ Hr Hc Ht).
  unfold Mat_create.
  destruct (Z.ltb_spec rows 0); [lia|]. destruct (Z.ltb_spec cols 0); [lia|].
  cbn [orb]. destruct (Z.eqb_spec (rows * cols) 0); [|nia].
  monad. rewrite lookup_insert_eq. monad.
  unfold Mat_empty at 1. cbn [m_data]. unfold delete_Mat. monad.
  rewrite lookup_insert_eq. unfold Mat_release. cbn [m_data]. monad.
  rewrite delete_insert_id by (apply Hfresh; lia). reflexivity.
Qed.

End Construction.

(** The empty heap is well formed. *)
Lemma fresh_addresses_empty : fresh_addresses empty_heap.
Proof. split; intros; apply lookup_empty. Qed.

(** ** Claim C3: the sizes of a constructed matrix *)

(** C3, as amended. For sizes and a type that are C [int]s: with positive
    sizes (and memory for the elements) the construction succeeds and the
    handle is not empty; with a size of zero the construction does not
    yield an empty handle but raises [NoMemoryError] with the message
    "Failed to create matrix", leaving the matrices and buffers of the heap
    as they were. *)
Theorem rb_initialize_by_size `{K : Kernels} (h : heap) (k : klass)
    (rows cols type : Z) :
  fresh_addresses h ->
  Double.in_int rows = true -> Double.in_int cols = true ->
  Double.in_int type = true ->
  (0 < rows -> 0 < cols ->
   forall cs,
     fastMalloc (CV_MAT_DEPTH (CV_MAT_TYPE type))
       (rows * cols * CV_MAT_CN (CV_MAT_TYPE type)) = Some cs ->
     exists h' m,
       rb_initialize [Fixnum rows; Fixnum cols; Fixnum type] (MatData k None) h
         = Ok (MatData k (Some (next_mat h))) h'
       /\ mats h' !! next_mat h = Some m
       /\ Mat_empty m = false
       /\ m_rows m = rows /\ m_cols m = cols /\ m_type m = CV_MAT_TYPE type)
  /\ (0 <= rows -> 0 <= cols -> rows = 0 \/ cols = 0 ->
      exists h',
        rb_initialize [Fixnum rows; Fixnum cols; Fixnum type] (MatData k None) h
          = Raise (RbError rb_eNoMemError "Failed to create matrix" []) h'
        /\ mats h' = mats h /\ bufs h' = bufs h).
Proof.
  intros Hfresh Hr Hc Ht. split.
  - intros Hrows Hcols cs Halloc.
    eexists _, _. split.
    + apply (rb_initialize_elements h (MatData k None) rows cols type
               [Fixnum type] cs); auto using type_given.
    + cbn [mats]. rewrite lookup_insert_eq. split; [reflexivity|].
      unfold Mat_empty, Mat_total. cbn [m_data m_rows m_cols m_dims m_type].
      destruct (Z.eqb_spec (rows * cols) 0); [nia|]. auto.
  - intros Hrows Hcols Hzero. eexists. split.
    + apply (rb_initialize_no_elements h (MatData k None) rows cols type
               [Fixnum type]); auto using type_given.
    + split; reflexivity.
Qed.

(** Three rows of four 8-bit three-channel elements, and no rows of three
    elements, on the empty heap with the sample collaborator. *)
Lemma rb_initialize_by_size_witness :
  (exists h' m,
     rb_initialize (K := Sample.kernels) [Fixnum 3; Fixnum 4; Fixnum CV_8UC3]
         (MatData Cv_Mat None) empty_heap
       = Ok (MatData Cv_Mat (Some 1%nat)) h'
     /\ mats h' !! 1%nat = Some m
     /\ Mat_empty m = false
     /\ m_rows m = 3 /\ m_cols m = 4 /\ m_type m = CV_8UC3)
  /\ (exists h',
        rb_initialize (K := Sample.kernels) [Fixnum 0; Fixnum 3; Fixnum CV_8UC1]
            (MatData Cv_Mat None) empty_heap
          = Raise (RbError rb_eNoMemError "Failed to create matrix" []) h'
        /\ mats h' = mats empty_heap /\ bufs h' = bufs empty_heap).
Proof.
  split.
  - destruct (rb_initialize_by_size (K := Sample.kernels) empty_heap Cv_Mat 3 4 CV_8UC3
                fresh_addresses_empty eq_refl eq_refl eq_refl) as [Hpos _].
    apply (Hpos ltac:(lia) ltac:(lia) (replicate 36 (IntCell 0))). reflexivity.
  - destruct (rb_initialize_by_size (K := Sample.kernels) empty_heap Cv_Mat 0 3 CV_8UC1
                fresh_addresses_empty eq_refl eq_refl eq_refl) as [_ Hzero].
    apply Hzero; lia.
Defined.

(** C3 as stated does not hold: constructing a matrix with no rows does not
    succeed. *)
Lemma construction_law_fails :
  ~ construction_law (K := Sample.kernels) empty_heap 0 3 CV_8UC1.
Proof.
  intros (self & h' & p & m & Hrun & _).
  vm_compute in Hrun. discriminate Hrun.
Qed.

(** ** Claim C10: the default element type *)

(** C10. Constructed from sizes alone, a matrix has the type [CV_8UC1]:
    8-bit unsigned elements with one channel, not three. *)
Theorem rb_initialize_default_type `{K : Kernels} (h : heap) (k : klass)
    (rows cols : Z) (cs : list cell) :
  Double.in_int rows = true -> Double.in_int cols = true ->
  0 < rows -> 0 < cols ->
  fastMalloc CV_8U (rows * cols * 1) = Some cs ->
  exists h' m,
    rb_initialize [Fixnum rows; Fixnum cols] (MatData k None) h
      = Ok (MatData k (Some (next_mat h))) h'
    /\ mats h' !! next_mat h = Some m
    /\ m_type m = CV_8UC1
    /\ Mat_depth m = CV_8U
    /\ Mat_channels m = 1
    /\ Mat_channels m <> 3.
Proof.
  intros Hr Hc Hrows Hcols Halloc. eexists _, _. split.
  - apply (rb_initialize_elements h (MatData k None) rows cols CV_8UC1 [] cs);
      auto using type_omitted.
  - cbn [mats]. rewrite lookup_insert_eq. split; [reflexivity|].
    unfold Mat_depth, Mat_channels. cbn [m_type].
    repeat split; by_computation.
Qed.

(** [Mat.new(3, 4)] on the empty heap with the sample collaborator. *)
Lemma rb_initialize_default_type_witness :
  exists h' m,
    rb_initialize (K := Sample.kernels) [Fixnum 3; Fixnum 4] (MatData Cv_Mat None)
        empty_heap
      = Ok (MatData Cv_Mat (Some 1%nat)) h'
    /\ mats h' !! 1%nat = Some m
    /\ m_type m = CV_8UC1
    /\ Mat_depth m = CV_8U
    /\ Mat_channels m = 1
    /\ Mat_channels m <> 3.
Proof.
  apply (rb_initialize_default_type (K := Sample.kernels) empty_heap Cv_Mat 3 4
           (replicate 12 (IntCell 0)));
    first [reflexivity | lia].
Defined.

(** ** Claim C7: the depth switch of element access *)

Lemma read_index_ints (h : heap) (index : list Z) :
  forall i : Z,
    Forall (fun n => Double.in_int n = true) index ->
    i + Z.of_nat (length index) <= CV_MAX_DIM ->
    read_index (Fixnum <$> index) i h = Ok index h.
Proof.
  induction index as [|n index IH]; intros i Hall Hlen; [reflexivity|].
  apply Forall_cons in Hall as [Hn Hall]. cbn [length] in Hlen.
  cbn [fmap list_fmap read_index].
  rewrite (bind_Ok _ _ _ _ _ (NUM2INT_Fixnum n h Hn)).
  destruct (Z.leb_spec CV_MAX_DIM i); [lia|].
  rewrite (bind_Ok _ _ _ _ _ (IH (i + 1) Hall ltac:(lia))). reflexivity.
Qed.

Lemma CV_MAT_DEPTH_range (flags : Z) : 0 <= CV_MAT_DEPTH flags < 8.
Proof.
  unfold CV_MAT_DEPTH. change (Z.shiftl 1 CV_CN_SHIFT - 1) with (Z.ones 3).
  rewrite Z.land_ones by lia. apply Z.mod_pos_bound. lia.
Qed.

(** The depth without a C type is the eighth tag. *)
Lemma ctype_of_depth_None (flags : Z) :
  ctype_of_depth (CV_MAT_DEPTH flags) = None <-> CV_MAT_DEPTH flags = 7.
Proof.
  pose proof (CV_MAT_DEPTH_range flags) as Hrange.
  unfold ctype_of_depth, CV_8U, CV_8S, CV_16U, CV_16S, CV_32S, CV_32F, CV_64F.
  repeat match goal with
         | |- context [?a =? ?b] => destruct (Z.eqb_spec a b)
         end; split; intros; try discriminate; try lia; reflexivity.
Qed.

(** C7. On a live matrix and with integer arguments, [rb_aref] and
    [rb_aset] raise [StandardError] "Invalid depth" when the depth tag of
    the matrix is not one of the seven that have a C type, and otherwise
    read and write as the C type of the depth: [uchar] for [CV_8U], [char]
    for [CV_8S], [ushort] for [CV_16U], [short] for [CV_16S], [int] for
    [CV_32S], [float] for [CV_32F], [double] for [CV_64F]. *)
Theorem element_access_by_depth (h : heap) (k : klass) (p : nat) (m : Mat)
    (index : list Z) (row col : Z) (s : Scalar) :
  mats h !! p = Some m ->
  Forall (fun n => Double.in_int n = true) index ->
  Z.of_nat (length index) <= CV_MAX_DIM ->
  Double.in_int row = true -> Double.in_int col = true ->
  Double.in_int (col * Mat_channels m) = true ->
  match ctype_of_depth (Mat_depth m) with
  | None =>
      rb_aref (MatData k (Some p)) (Fixnum <$> index) h
        = Raise (invalid_depth (Mat_depth m)) h
      /\ rb_aset (MatData k (Some p)) (Fixnum row) (Fixnum col) (ScalarData s) h
        = Raise (invalid_depth (Mat_depth m)) h
  | Some T =>
      rb_aref (MatData k (Some p)) (Fixnum <$> index) h
        = (Mat_at_Scalar T m index ≫= fun sc => mret (scalar2obj sc)) h
      /\ rb_aset (MatData k (Some p)) (Fixnum row) (Fixnum col) (ScalarData s) h
        = (Mat_store T m row (col * Mat_channels m) s
             ≫= fun _ => mret (MatData k (Some p))) h
  end
  /\ (ctype_of_depth (Mat_depth m) = None <-> Mat_depth m = 7)
  /\ ctype_of_depth CV_8U = Some T_uchar
  /\ ctype_of_depth CV_8S = Some T_char
  /\ ctype_of_depth CV_16U = Some T_ushort
  /\ ctype_of_depth CV_16S = Some T_short
  /\ ctype_of_depth CV_32S = Some T_int
  /\ ctype_of_depth CV_32F = Some T_float
  /\ ctype_of_depth CV_64F = Some T_double.
Proof.
  intros Hm Hindex Hlen Hrow Hcol Hx.
  split; [|split; [apply ctype_of_depth_None | repeat split]].
  assert (rb_aref (MatData k (Some p)) (Fixnum <$> index) h
          = (match ctype_of_depth (Mat_depth m) with
             | Some T => Mat_at_Scalar T m index
             | None => rb_raise rb_eStandardError "Invalid depth: %d"
                         [arg_int (Mat_depth m)]
             end ≫= fun sc => mret (scalar2obj sc)) h) as Href.
  { unfold rb_aref.
    rewrite (bind_Ok _ _ _ _ _ (read_index_ints h index 0 Hindex ltac:(lia))).
    cbn [obj2mat]. unfold mbind at 1, M_bind at 1, mret at 1, M_ret at 1.
    cbv beta iota. unfold mbind at 1, M_bind at 1, deref at 1. rewrite Hm.
    cbv beta iota zeta.
    now rewrite (depth_switch (Mat_depth m) (fun T => Mat_at_Scalar T m index)). }
  assert (rb_aset (MatData k (Some p)) (Fixnum row) (Fixnum col) (ScalarData s) h
          = (match ctype_of_depth (Mat_depth m) with
             | Some T => Mat_store T m row (col * Mat_channels m) s
             | None => rb_raise rb_eStandardError "Invalid depth: %d"
                         [arg_int (Mat_depth m)]
             end ≫= fun _ => mret (MatData k (Some p))) h) as Hset.
  { unfold rb_aset. cbn [obj2scalar obj2mat].
    unfold mbind at 1, M_bind at 1, mret at 1, M_ret at 1. cbv beta iota.
    unfold mbind at 1, M_bind at 1, mret at 1, M_ret at 1. cbv beta iota.
    rewrite (bind_Ok _ _ _ _ _ (NUM2INT_Fixnum row h Hrow)).
    rewrite (bind_Ok _ _ _ _ _ (NUM2INT_Fixnum col h Hcol)).
    unfold mbind at 1, M_bind at 1, deref at 1. rewrite Hm. cbv beta iota.
    unfold mbind at 1, M_bind at 1, int_mul at 1. rewrite Hx.
    unfold mret at 1, M_ret at 1. cbv beta iota zeta.
    now rewrite (depth_switch (Mat_depth m)
                   (fun T => Mat_store T m row (col * Mat_channels m) s)). }
  rewrite Href, Hset.
  destruct (ctype_of_depth (Mat_depth m)); split; reflexivity.
Qed.

(** Element access on a matrix of the eighth depth tag. *)
Lemma element_access_by_depth_witness :
  rb_aref (MatData Cv_Mat (Some 1%nat)) [Fixnum 0; Fixnum 1] heap_depth7
    = Raise (invalid_depth 7) heap_depth7
  /\ rb_aset (MatData Cv_Mat (Some 1%nat)) (Fixnum 0) (Fixnum 1)
       (ScalarData (Scalar1 (Double.of_int 5))) heap_depth7
    = Raise (invalid_depth 7) heap_depth7.
Proof.
  pose proof (element_access_by_depth heap_depth7 Cv_Mat 1%nat
                {| m_type := 7; m_dims := 2; m_rows := 2; m_cols := 2;
                   m_step := 2; m_data := Some (1%nat, 0) |}
                [0; 1] 0 1 (Scalar1 (Double.of_int 5))
                eq_refl ltac:(repeat constructor) ltac:(by_computation)
                eq_refl eq_refl eq_refl) as [H _].
  exact H.
Defined.

(** ** Frames *)

(** Reading a matrix changes nothing and looks at the buffers only. *)
Lemma Mat_image_frame (h h1 : heap) (m : Mat) (a : image) :
  bufs h1 = bufs h -> Mat_image m h = Ok a h -> Mat_image m h1 = Ok a h1.
Proof.
  intros Hbufs. unfold Mat_image. destruct (m_data m) as [[b off]|].
  - monad. rewrite Hbufs. destruct (bufs h !! b) as [u|]; [|discriminate].
    destruct (gather_rows _ _ _ _ _); [|discriminate].
    intros [= <-]. reflexivity.
  - monad. intros [= <-]. reflexivity.
Qed.

Lemma NUM2DBL_numeric (v : VALUE) (h : heap) :
  is_Numeric v = true -> NUM2DBL v h = Ok (numeric_value v) h.
Proof. destruct v; try discriminate; reflexivity. Qed.

(** A live address is below the allocation counter. *)
Lemma live_below (h : heap) (p : nat) (m : Mat) :
  fresh_addresses h -> mats h !! p = Some m -> (p < next_mat h)%nat.
Proof.
  intros [Hfresh _] Hm. destruct (Nat.lt_ge_cases p (next_mat h)) as [|Hge]; [assumption|].
  rewrite (Hfresh p Hge) in Hm. discriminate.
Qed.

Lemma fresh_addresses_1234 : fresh_addresses heap_1234.
Proof.
  split; intros q Hq; cbn [heap_1234 mats bufs next_mat next_buf] in *;
    apply lookup_singleton_ne; lia.
Qed.

(** ** Claim C8: the shape of the result of [threshold] *)

(** A flag of one bit is set in [t] exactly when the conjunction with it
    is not zero. *)
Lemma land_pow2_testbit (t n : Z) :
  0 <= n -> negb (Z.land t (2 ^ n) =? 0) = Z.testbit t n.
Proof.
  intros Hn. destruct (Z.testbit t n) eqn:Hbit.
  - destruct (Z.eqb_spec (Z.land t (2 ^ n)) 0) as [Hz|]; [|reflexivity].
    assert (Z.testbit (Z.land t (2 ^ n)) n = true) as Hset
      by (rewrite Z.land_spec, Hbit, Z.pow2_bits_true by lia; reflexivity).
    rewrite Hz, Z.bits_0 in Hset. discriminate.
  - destruct (Z.eqb_spec (Z.land t (2 ^ n)) 0) as [|Hnz]; [reflexivity|].
    exfalso. apply Hnz. apply Z.bits_inj'. intros q Hq.
    rewrite Z.land_spec, Z.bits_0, Z.pow2_bits_eqb by lia.
    destruct (Z.eqb_spec n q) as [->|]; [rewrite Hbit|];
      auto using andb_false_r.
Qed.

(** C8. On a live, readable matrix, with numbers for the threshold and the
    maximum and a C [int] for the type, and when the kernel returns: the
    result of [rb_threshold] is the pair of the output matrix and the
    threshold the kernel computed if bit 3 ([THRESH_OTSU]) or bit 4
    ([THRESH_TRIANGLE]) of the type is set, and the output matrix alone
    otherwise. *)
Theorem rb_threshold_shape `{K : Kernels} (h : heap) (k : klass) (p : nat)
    (m : Mat) (a : image) (threshold max_value : VALUE) (t : Z)
    (i : image) (optimal : spec_float) :
  fresh_addresses h ->
  mats h !! p = Some m ->
  Mat_image m h = Ok a h ->
  is_Numeric threshold = true -> is_Numeric max_value = true ->
  Double.in_int t = true ->
  cv_threshold a (numeric_value threshold) (numeric_value max_value) t
    = cv_ok (i, optimal) ->
  let dst := MatData k (Some (next_mat h)) in
  exists h',
    rb_threshold (MatData k (Some p)) threshold max_value (Fixnum t) h
      = Ok (if Z.testbit t 3 || Z.testbit t 4
            then RArray [dst; Float optimal]
            else dst) h'
    /\ THRESH_OTSU = 2 ^ 3 /\ THRESH_TRIANGLE = 2 ^ 4
    /\ exists d, mats h' !! next_mat h = Some d
                 /\ m_rows d = img_rows i /\ m_cols d = img_cols i.
Proof.
  intros Hfresh Hm Ha Hth Hmv Ht Hkernel dst.
  pose proof (live_below h p m Hfresh Hm) as Hp.
  set (h1 := {| mats := <[next_mat h := Mat_default]> (mats h); bufs := bufs h;
                next_mat := S (next_mat h); next_buf := next_buf h |}).
  assert (contents (Some p) h1 = Ok a h1) as Hcontents.
  { unfold contents, h1. monad. rewrite lookup_insert_ne by lia. rewrite Hm.
    apply Mat_image_frame with (h := h); [reflexivity | exact Ha]. }
  assert (forall r,
            rb_threshold (MatData k (Some p)) threshold max_value (Fixnum t) h
            = (store_image i ≫= fun d =>
               assign (Some (next_mat h)) d ≫= fun _ => mret r) h1 ->
            exists h',
              rb_threshold (MatData k (Some p)) threshold max_value (Fixnum t) h
                = Ok r h'
              /\ exists d, mats h' !! next_mat h = Some d
                 /\ m_rows d = img_rows i /\ m_cols d = img_cols i) as Hfinish.
  { intros r ->. unfold store_image, h1.
    destruct (img_rows i * img_cols i =? 0); monad;
      rewrite lookup_insert_eq; monad;
      (eexists; split; [reflexivity|]);
      (eexists; split; [cbn [mats]; apply lookup_insert_eq|]);
      split; reflexivity. }
  assert (Hrun :
    rb_threshold (MatData k (Some p)) threshold max_value (Fixnum t) h
    = (store_image i ≫= fun d =>
       assign (Some (next_mat h)) d ≫= fun _ =>
       mret (if Z.testbit t 3 || Z.testbit t 4
             then RArray [dst; Float optimal] else dst)) h1).
  { unfold rb_threshold. cbn [obj2mat].
    unfold mbind at 1, M_bind at 1, mret at 1, M_ret at 1. cbv beta iota.
    rewrite (bind_Ok _ _ _ _ _ (NUM2INT_Fixnum t h Ht)).
    unfold mbind at 1, M_bind at 1, new_Mat at 1. cbv beta iota. fold h1.
    rewrite (bind_Ok _ _ _ _ _ (NUM2DBL_numeric threshold h1 Hth)).
    rewrite (bind_Ok _ _ _ _ _ (NUM2DBL_numeric max_value h1 Hmv)).
    rewrite (bind_Ok _ _ _ _ _ Hcontents).
    rewrite Hkernel.
    change THRESH_OTSU with (2 ^ 3). change THRESH_TRIANGLE with (2 ^ 4).
    rewrite !land_pow2_testbit by lia.
    unfold CLASS_OF, mat2obj, rb_assoc_new. fold dst.
    unfold mbind, M_bind.
    destruct (store_image i h1) as [d h2| |]; [|reflexivity..].
    destruct (assign (Some (next_mat h)) d h2); [|reflexivity..].
    destruct (Z.testbit t 3 || Z.testbit t 4); reflexivity. }
  destruct (Hfinish _ Hrun) as (h' & Hok & Hd).
  exists h'. split; [exact Hok|]. split; [reflexivity|]. split; [reflexivity|].
  exact Hd.
Qed.

(** Thresholding the matrix 1 2 / 3 4 with the sample collaborator: a pair
    with the Otsu flag, the matrix alone without. *)
Lemma rb_threshold_shape_witness :
  (exists h',
     rb_threshold (K := Sample.kernels) (MatData Cv_Mat (Some 1%nat))
         (Fixnum 2) (Fixnum 255) (Fixnum THRESH_OTSU) heap_1234
       = Ok (RArray [MatData Cv_Mat (Some 2%nat); Float (Double.of_int 2)]) h')
  /\ (exists h',
        rb_threshold (K := Sample.kernels) (MatData Cv_Mat (Some 1%nat))
            (Fixnum 2) (Fixnum 255) (Fixnum 0) heap_1234
          = Ok (MatData Cv_Mat (Some 2%nat)) h').
Proof.
  split.
  - destruct (rb_threshold_shape (K := Sample.kernels) heap_1234 Cv_Mat 1%nat
                {| m_type := CV_8UC1; m_dims := 2; m_rows := 2; m_cols := 2;
                   m_step := 2; m_data := Some (1%nat, 0) |}
                (mkImage CV_8UC1 2 2 [IntCell 1; IntCell 2; IntCell 3; IntCell 4])
                (Fixnum 2) (Fixnum 255) THRESH_OTSU
                (mkImage CV_8UC1 2 2 [IntCell 0; IntCell 0; IntCell 255; IntCell 255])
                (Double.of_int 2)
                fresh_addresses_1234 eq_refl eq_refl eq_refl eq_refl eq_refl eq_refl)
      as (h' & Hrun & _).
    exists h'. exact Hrun.
  - destruct (rb_threshold_shape (K := Sample.kernels) heap_1234 Cv_Mat 1%nat
                {| m_type := CV_8UC1; m_dims := 2; m_rows := 2; m_cols := 2;
                   m_step := 2; m_data := Some (1%nat, 0) |}
                (mkImage CV_8UC1 2 2 [IntCell 1; IntCell 2; IntCell 3; IntCell 4])
                (Fixnum 2) (Fixnum 255) 0
                (mkImage CV_8UC1 2 2 [IntCell 0; IntCell 0; IntCell 255; IntCell 255])
                (Double.of_int 2)
                fresh_addresses_1234 eq_refl eq_refl eq_refl eq_refl eq_refl eq_refl)
      as (h' & Hrun & _).
    exists h'. exact Hrun.
Defined.

(** The contents of a live matrix are the same once another header has
    been allocated. *)
Lemma contents_new_Mat (h : heap) (p : nat) (m x : Mat) (a : image) :
  fresh_addresses h ->
  mats h !! p = Some m ->
  Mat_image m h = Ok a h ->
  let h1 := {| mats := <[next_mat h := x]> (mats h); bufs := bufs h;
               next_mat := S (next_mat h); next_buf := next_buf h |} in
  contents (Some p) h1 = Ok a h1.
Proof.
  intros Hfresh Hm Ha h1. pose proof (live_below h p m Hfresh Hm) as Hp.
  unfold contents, h1. monad. rewrite lookup_insert_ne by lia. rewrite Hm.
  apply Mat_image_frame with (h := h); [reflexivity | exact Ha].
Qed.

(** ** Claim C6: the operands of [absdiff] *)

Section Absdiff.

Context `{K : Kernels}.

(** [rb_absdiff] from the evaluation of the kernel on. *)
Lemma rb_absdiff_kernel (h : heap) (k : klass) (p : nat) (m : Mat) (a : image)
    (other : VALUE) (o : operand) :
  fresh_addresses h ->
  mats h !! p = Some m ->
  Mat_image m h = Ok a h ->
  absdiff_operand h other o ->
  let h1 := {| mats := <[next_mat h := Mat_default]> (mats h); bufs := bufs h;
               next_mat := S (next_mat h); next_buf := next_buf h |} in
  rb_absdiff (MatData k (Some p)) other h
  = match cv_absdiff a o with
    | cv_throw e => (delete_Mat (Some (next_mat h)) ≫= fun _ => Error_raise e) h1
    | cv_ok i =>
        (store_image i ≫= fun dst =>
         assign (Some (next_mat h)) dst ≫= fun _ =>
         mret (MatData k (Some (next_mat h)))) h1
    end.
Proof.
  intros Hfresh Hm Ha Hop h1.
  pose proof (contents_new_Mat h p m Mat_default a Hfresh Hm Ha) as Hself.
  cbv zeta in Hself. fold h1 in Hself.
  unfold rb_absdiff. cbn [obj2mat].
  unfold mbind at 1, M_bind at 1, mret at 1, M_ret at 1. cbv beta iota.
  unfold mbind at 1, M_bind at 1, new_Mat at 1. cbv beta iota. fold h1.
  destruct Hop as [k' q mq b Hq Hb | s]; cbn [is_kind_of_Mat is_kind_of_Scalar].
  - pose proof (contents_new_Mat h q mq Mat_default b Hfresh Hq Hb) as Hother.
    cbv zeta in Hother. fold h1 in Hother.
    cbn [obj2mat]. unfold mbind at 1, M_bind at 1.
    unfold mbind at 1, M_bind at 1, mret at 1, M_ret at 1. cbv beta iota.
    rewrite (bind_Ok _ _ _ _ _ Hself). rewrite (bind_Ok _ _ _ _ _ Hother).
    unfold mret at 1, M_ret at 1. cbv beta iota.
    destruct (cv_absdiff a (by_mat b)); reflexivity.
  - cbn [obj2scalar]. unfold mbind at 1, M_bind at 1.
    unfold mbind at 1, M_bind at 1, mret at 1, M_ret at 1. cbv beta iota.
    rewrite (bind_Ok _ _ _ _ _ Hself).
    unfold mret at 1, M_ret at 1. cbv beta iota.
    destruct (cv_absdiff a (by_scalar s)); reflexivity.
Qed.

End Absdiff.

(** The end of a function whose kernel writes into the header it made. *)
Lemma into_header_returns_new (h : heap) (k : klass) (r : cv_result image)
    (call : M VALUE) :
  fresh_addresses h ->
  call h = into_header r (next_mat h) k
             {| mats := <[next_mat h := Mat_default]> (mats h); bufs := bufs h;
                next_mat := S (next_mat h); next_buf := next_buf h |} ->
  returns_new h k call r.
Proof.
  intros [Hmats _] Hcall. unfold returns_new.
  destruct r as [i|e].
  - unfold output_header, output_buffers. rewrite Hcall.
    unfold into_header, store_image.
    destruct (img_rows i * img_cols i =? 0); monad; rewrite lookup_insert_eq;
      monad; (eexists; split; [reflexivity|]); cbn [mats bufs];
      now rewrite insert_insert_eq.
  - rewrite Hcall. unfold into_header, delete_Mat. monad.
    rewrite lookup_insert_eq. unfold Mat_release. cbn [Mat_default m_data].
    monad. eexists. split; [reflexivity|]. cbn [mats bufs].
    split; [|reflexivity]. apply delete_insert_id. apply Hmats. lia.
Qed.

(** C6. [rb_absdiff] with an operand that is neither a matrix nor a scalar
    raises [TypeError], and the matrices and buffers of the heap are then
    what they were before the call: the output header that was allocated
    first has been deleted. With a matrix or a scalar for operand it returns
    a new matrix: an object of the class of the receiver on a header at an
    address that was free, which holds the output of the kernel in a buffer
    of its own, while every matrix and buffer that was on the heap is as
    before. When the kernel throws, the output header is deleted too and
    the error is raised again. *)
Theorem rb_absdiff_operands `{K : Kernels} (h : heap) (k : klass)
    (ptr : option nat) (other : VALUE) :
  fresh_addresses h ->
  (is_kind_of_Mat other = false -> is_kind_of_Scalar other = false ->
   exists h',
     rb_absdiff (MatData k ptr) other h = Raise (no_implicit_conversion other) h'
     /\ mats h' = mats h /\ bufs h' = bufs h)
  /\ (forall p m a o,
        ptr = Some p -> mats h !! p = Some m -> Mat_image m h = Ok a h ->
        absdiff_operand h other o ->
        mats h !! next_mat h = None
        /\ bufs h !! next_buf h = None
        /\ returns_new h k (rb_absdiff (MatData k ptr) other) (cv_absdiff a o)).
Proof.
  intros Hfresh. split.
  - intros Hmat Hscalar. eexists. split.
    + unfold rb_absdiff. cbn [obj2mat]. rewrite Hmat, Hscalar.
      unfold delete_Mat, Mat_release. monad.
      rewrite lookup_insert_eq. cbn [Mat_default m_data]. monad. reflexivity.
    + cbn [mats bufs]. split; [|reflexivity].
      apply delete_insert_id, Hfresh. lia.
  - intros p m a o -> Hm Ha Hop.
    split; [apply Hfresh; lia|]. split; [apply Hfresh; lia|].
    apply into_header_returns_new; [exact Hfresh|].
    rewrite (rb_absdiff_kernel h k p m a other o Hfresh Hm Ha Hop). cbv zeta.
    destruct (cv_absdiff a o); reflexivity.
Qed.

(** [absdiff] of the matrix 1 2 / 3 4 with the number 3 (an operand of the
    wrong type) and with the scalar 2, with the sample collaborator: the
    result 1 0 / 1 2 is in a buffer of its own. *)
Lemma rb_absdiff_operands_witness :
  (exists h',
     rb_absdiff (K := Sample.kernels) (MatData Cv_Mat (Some 1%nat)) (Fixnum 3)
         heap_1234
       = Raise (RbError rb_eTypeError
                  "no implicit conversion of %s into Cv::Mat or Cv::Scalar"
                  [arg_str "Integer"]) h'
     /\ mats h' = mats heap_1234 /\ bufs h' = bufs heap_1234)
  /\ (exists h',
        rb_absdiff (K := Sample.kernels) (MatData Cv_Mat (Some 1%nat))
            (ScalarData (Scalar1 (Double.of_int 2))) heap_1234
          = Ok (MatData Cv_Mat (Some 2%nat)) h'
        /\ mats h' !! 2%nat
           = Some {| m_type := CV_8UC1; m_dims := 2; m_rows := 2; m_cols := 2;
                     m_step := 2; m_data := Some (2%nat, 0) |}
        /\ bufs h' !! 2%nat
           = Some (mkUMatData 1 [IntCell 1; IntCell 0; IntCell 1; IntCell 2])
        /\ mats h' !! 1%nat = mats heap_1234 !! 1%nat
        /\ bufs h' !! 1%nat = bufs heap_1234 !! 1%nat).
Proof.
  destruct (rb_absdiff_operands (K := Sample.kernels) heap_1234 Cv_Mat (Some 1%nat)
              (Fixnum 3) fresh_addresses_1234) as [Hwrong _].
  destruct (rb_absdiff_operands (K := Sample.kernels) heap_1234 Cv_Mat (Some 1%nat)
              (ScalarData (Scalar1 (Double.of_int 2))) fresh_addresses_1234)
    as [_ Hscalar].
  split.
  - apply Hwrong; reflexivity.
  - destruct (Hscalar 1%nat
                {| m_type := CV_8UC1; m_dims := 2; m_rows := 2; m_cols := 2;
                   m_step := 2; m_data := Some (1%nat, 0) |}
                (mkImage CV_8UC1 2 2 [IntCell 1; IntCell 2; IntCell 3; IntCell 4])
                (by_scalar (Scalar1 (Double.of_int 2)))
                eq_refl eq_refl eq_refl (operand_scalar heap_1234 _))
      as (_ & _ & h' & Hcall & Hmats & Hbufs).
    exists h'. split; [exact Hcall|]. rewrite Hmats, Hbufs.
    repeat split; reflexivity.
Defined.

(** ** Claim C4: the operands of the arithmetic operators *)

Section Operators.

Context `{K : Kernels}.

(** A matrix on the right: the matrix form of the expression, for each of
    the four operators. *)
Lemma operator_matrix (op : arith_op) (h : heap) (k k' : klass) (p q : nat)
    (a b : image) :
  contents (Some p) h = Ok a h ->
  contents (Some q) h = Ok b h ->
  rb_operator op (MatData k (Some p)) (MatData k' (Some q)) h
  = wrap_expr (MatExpr op a (by_mat b)) (MatData k (Some p)) h.
Proof.
  intros Ha Hb.
  destruct op; cbn [rb_operator]; unfold rb_add, rb_sub, rb_mul, rb_div;
    cbn [obj2mat is_kind_of_Mat];
    unfold mbind at 1, M_bind at 1, mret at 1, M_ret at 1; cbv beta iota;
    unfold mbind at 1, M_bind at 1;
    unfold mbind at 1, M_bind at 1, mret at 1, M_ret at 1; cbv beta iota;
    rewrite (bind_Ok _ _ _ _ _ Ha), (bind_Ok _ _ _ _ _ Hb); reflexivity.
Qed.

(** A number on the right: converted to one double, for each of the four
    operators. *)
Lemma operator_number (op : arith_op) (h : heap) (k : klass) (p : nat)
    (a : image) (v : VALUE) :
  is_Numeric v = true ->
  contents (Some p) h = Ok a h ->
  rb_operator op (MatData k (Some p)) v h
  = wrap_expr (MatExpr op a (by_double (numeric_value v))) (MatData k (Some p)) h.
Proof.
  intros Hv Ha.
  destruct op; cbn [rb_operator]; unfold rb_add, rb_sub, rb_mul, rb_div;
    cbn [obj2mat];
    (destruct v; try discriminate Hv);
    cbn [is_kind_of_Mat is_kind_of_Scalar NUM2DBL numeric_value];
    unfold mbind at 1, M_bind at 1, mret at 1, M_ret at 1; cbv beta iota;
    unfold mbind at 1, M_bind at 1;
    unfold mbind at 1, M_bind at 1, mret at 1, M_ret at 1; cbv beta iota;
    rewrite (bind_Ok _ _ _ _ _ Ha); reflexivity.
Qed.

(** A scalar on the right of [+] or [-]: the scalar form of the
    expression. *)
Lemma operator_scalar (op : arith_op) (h : heap) (k : klass) (p : nat)
    (a : image) (s : Scalar) :
  op = op_add \/ op = op_sub ->
  contents (Some p) h = Ok a h ->
  rb_operator op (MatData k (Some p)) (ScalarData s) h
  = wrap_expr (MatExpr op a (by_scalar s)) (MatData k (Some p)) h.
Proof.
  intros [-> | ->] Ha; cbn [rb_operator]; unfold rb_add, rb_sub;
    cbn [obj2mat is_kind_of_Mat is_kind_of_Scalar obj2scalar];
    unfold mbind at 1, M_bind at 1, mret at 1, M_ret at 1; cbv beta iota;
    unfold mbind at 1, M_bind at 1;
    unfold mbind at 1, M_bind at 1, mret at 1, M_ret at 1; cbv beta iota;
    rewrite (bind_Ok _ _ _ _ _ Ha); reflexivity.
Qed.

(** Anything else on the right: [NUM2DBL] raises [TypeError], for each of
    the four operators. *)
Lemma operator_other (op : arith_op) (h : heap) (k : klass) (ptr : option nat)
    (other : VALUE) :
  is_kind_of_Mat other = false -> is_kind_of_Scalar other = false ->
  is_Numeric other = false ->
  rb_operator op (MatData k ptr) other h = Raise not_a_number h.
Proof.
  intros Hmat Hscalar Hnum.
  destruct op; cbn [rb_operator]; unfold rb_add, rb_sub, rb_mul, rb_div;
    cbn [obj2mat]; rewrite Hmat, ?Hscalar;
    destruct other; try discriminate; reflexivity.
Qed.

End Operators.

(** C4 at its failing input. [*] and [/] have no branch for a scalar: a
    scalar on the right is handed to [NUM2DBL], which raises [TypeError],
    whatever the matrix on the left. *)
Theorem rb_mul_rb_div_reject_scalar `{K : Kernels} (h : heap) (k : klass)
    (ptr : option nat) (s : Scalar) :
  rb_mul (MatData k ptr) (ScalarData s) h = Raise not_a_number h
  /\ rb_div (MatData k ptr) (ScalarData s) h = Raise not_a_number h.
Proof.
  split.
  - unfold rb_mul. cbn [obj2mat is_kind_of_Mat]. monad. reflexivity.
  - unfold rb_div. cbn [obj2mat is_kind_of_Mat]. monad. reflexivity.
Qed.

(** [rb_zeros] with positive sizes and memory for the elements: a header
    with a buffer of zeros that it alone refers to. *)
Lemma rb_zeros_elements `{K : Kernels} (h : heap) (self : VALUE)
    (rows cols t : Z) (cs : list cell) :
  Double.in_int rows = true -> Double.in_int cols = true ->
  Double.in_int t = true ->
  0 < rows -> 0 < cols ->
  fastMalloc (CV_MAT_DEPTH (CV_MAT_TYPE t))
    (rows * cols * CV_MAT_CN (CV_MAT_TYPE t)) = Some cs ->
  rb_zeros self (Fixnum rows) (Fixnum cols) (Fixnum t) h
  = Ok (MatData Cv_Mat (Some (next_mat h)))
      {| mats := <[next_mat h :=
                     {| m_type := CV_MAT_TYPE t; m_dims := 2; m_rows := rows;
                        m_cols := cols;
                        m_step := cols * CV_MAT_CN (CV_MAT_TYPE t);
                        m_data := Some (next_buf h, 0) |}]> (mats h);
         bufs := <[next_buf h :=
                     mkUMatData 1
                       (replicate (Z.to_nat (rows * cols * CV_MAT_CN (CV_MAT_TYPE t)))
                          (zero_cell (CV_MAT_DEPTH (CV_MAT_TYPE t))))]> (bufs h);
         next_mat := S (next_mat h); next_buf := S (next_buf h) |}.
Proof.
  intros Hr Hc Ht Hrows Hcols Halloc. unfold rb_zeros.
  rewrite (bind_Ok _ _ _ _ _ (NUM2INT_Fixnum rows h Hr)).
  rewrite (bind_Ok _ _ _ _ _ (NUM2INT_Fixnum cols h Hc)).
  rewrite (bind_Ok _ _ _ _ _ (NUM2INT_Fixnum t h Ht)).
  unfold Mat_zeros.
  destruct (Z.ltb_spec rows 0); [lia|]. destruct (Z.ltb_spec cols 0); [lia|].
  cbn [orb]. destruct (Z.eqb_spec (rows * cols) 0); [nia|].
  rewrite Halloc. unfold new_Mat_copy, Mat_addref, Mat_release.
  monad. rewrite lookup_insert_eq. monad.
  rewrite lookup_insert_eq. monad.
  change (1 + 1 =? 1) with false. cbv iota.
  change (1 + 1 - 1) with 1.
  monad. now rewrite !insert_insert_eq.
Qed.

(** ** Claim C5: scalar addition leaves the receiver alone *)

(** C5. Given memory for four components and an addition kernel that adds
    the number to every component of an 8-bit single-channel matrix and
    saturates: the zero matrix with 5 written at (0,0) reads (5, 0, 0, 0)
    at (0,0); adding 3 to it returns another matrix, with a buffer of its
    own, holding 8 3 / 3 3; and the header and the buffer of the receiver
    are after the addition what they were before, its elements still
    5 0 / 0 0. *)
Theorem scalar_addition_is_pure `{K : Kernels} (cs : list cell) :
  fastMalloc CV_8U 4 = Some cs ->
  (forall rows cols cells d,
     MatExpr op_add (mkImage CV_8UC1 rows cols cells) (by_double d)
     = cv_ok (mkImage CV_8UC1 rows cols (add_saturate_uchar d <$> cells))) ->
  let m := MatData Cv_Mat (Some 1%nat) in
  let r := MatData Cv_Mat (Some 2%nat) in
  zeros_set_get empty_heap = Ok (m, ScalarData (Scalar1 (Double.of_int 5))) heap_5000
  /\ rb_add m (Fixnum 3) heap_5000 = Ok r heap_5000_8333
  /\ contents (Some 2%nat) heap_5000_8333
     = Ok (mkImage CV_8UC1 2 2 [IntCell 8; IntCell 3; IntCell 3; IntCell 3])
         heap_5000_8333
  /\ contents (Some 1%nat) heap_5000
     = Ok (mkImage CV_8UC1 2 2 [IntCell 5; IntCell 0; IntCell 0; IntCell 0])
         heap_5000
  /\ contents (Some 1%nat) heap_5000_8333
     = Ok (mkImage CV_8UC1 2 2 [IntCell 5; IntCell 0; IntCell 0; IntCell 0])
         heap_5000_8333
  /\ mats heap_5000_8333 !! 1%nat = mats heap_5000 !! 1%nat
  /\ bufs heap_5000_8333 !! 1%nat = bufs heap_5000 !! 1%nat
  /\ (m_data <$> mats heap_5000_8333 !! 2%nat)
     <> (m_data <$> mats heap_5000_8333 !! 1%nat).
Proof.
  intros Halloc Hadd m r.
  split; [|split].
  - unfold zeros_set_get.
    rewrite (bind_Ok _ _ _ _ _
               (rb_zeros_elements empty_heap Qnil 2 2 CV_8UC1 cs
                  eq_refl eq_refl eq_refl ltac:(lia) ltac:(lia) Halloc)).
    reflexivity.
  - change (rb_add m (Fixnum 3)) with (rb_operator op_add m (Fixnum 3)). unfold m.
    rewrite (operator_number op_add heap_5000 Cv_Mat 1%nat
               (mkImage CV_8UC1 2 2 [IntCell 5; IntCell 0; IntCell 0; IntCell 0])
               (Fixnum 3) eq_refl eq_refl).
    cbn [numeric_value]. rewrite Hadd. reflexivity.
  - repeat split; try reflexivity. vm_compute. discriminate.
Qed.

(** The sample collaborator keeps the contract of the sum. *)
Lemma Sample_adds_saturating (rows cols : Z) (cells : list cell) (d : spec_float) :
  Sample.MatExpr op_add (mkImage CV_8UC1 rows cols cells) (by_double d)
  = cv_ok (mkImage CV_8UC1 rows cols (add_saturate_uchar d <$> cells)).
Proof.
  unfold Sample.MatExpr, Sample.with_scalar.
  change (img_depth (mkImage CV_8UC1 rows cols cells) =? CV_8U) with true.
  cbn [negb img_type img_rows img_cols img_cells]. do 2 f_equal.
  rewrite <- imap_const. apply imap_ext. intros pos c _.
  unfold add_saturate_uchar, Sample.channel_value, Sample.apply.
  change (img_channels (mkImage CV_8UC1 rows cols cells)) with 1.
  now rewrite Z.mod_1_r.
Qed.

(** The scenario with the sample collaborator. *)
Lemma scalar_addition_is_pure_witness :
  zeros_set_get (K := Sample.kernels) empty_heap
    = Ok (MatData Cv_Mat (Some 1%nat), ScalarData (Scalar1 (Double.of_int 5)))
        heap_5000
  /\ rb_add (K := Sample.kernels) (MatData Cv_Mat (Some 1%nat)) (Fixnum 3) heap_5000
     = Ok (MatData Cv_Mat (Some 2%nat)) heap_5000_8333.
Proof.
  destruct (scalar_addition_is_pure (K := Sample.kernels) (replicate 4 (IntCell 0))
              eq_refl) as (Hbefore & Hsum & _).
  - intros rows cols cells d. apply Sample_adds_saturating.
  - split; assumption.
Defined.

(** ** Claim C9: the planes of [split] *)

Lemma planes_stored_length (bs : gmap nat UMatData) (rc : Z) (lo : nat)
    (ims : list image) (ms : list Mat) :
  planes_stored bs rc lo ims ms -> length ms = length ims.
Proof. induction 1; cbn [length]; congruence. Qed.

(** Buffers below the bound do not matter. *)
Lemma planes_stored_agree (bs bs' : gmap nat UMatData) (rc : Z) (lo : nat)
    (ims : list image) (ms : list Mat) :
  planes_stored bs rc lo ims ms ->
  (forall b, (lo <= b)%nat -> bs' !! b = bs !! b) ->
  planes_stored bs' rc lo ims ms.
Proof.
  induction 1 as [lo|lo i ims ms Hi _ IH|lo b i ims ms Hi Hb Hbuf _ IH];
    intros Hagree.
  - constructor.
  - constructor; auto.
  - constructor; auto.
    + rewrite Hagree by lia. exact Hbuf.
    + apply IH. intros b' Hb'. apply Hagree. lia.
Qed.

Lemma planes_stored_cons_inv (bs : gmap nat UMatData) (rc : Z) (lo : nat)
    (ims : list image) (d : Mat) (l : list Mat) :
  planes_stored bs rc lo ims (d :: l) ->
  exists i ims',
    ims = i :: ims'
    /\ ((img_rows i * img_cols i = 0 /\ d = header_without_buffer i
         /\ planes_stored bs rc lo ims' l)
        \/ (img_rows i * img_cols i <> 0
            /\ exists b, (lo <= b)%nat /\ d = header_of i b
                 /\ bs !! b = Some (mkUMatData rc (img_cells i))
                 /\ planes_stored bs rc (S b) ims' l)).
Proof.
  inversion 1; subst; eexists _, _; (split; [reflexivity|]); eauto 10.
Qed.

(** What a stored plane looks like. *)
Lemma planes_stored_lookup (bs : gmap nat UMatData) (rc : Z) (lo : nat)
    (ims : list image) (ms : list Mat) :
  planes_stored bs rc lo ims ms ->
  forall (j : nat) (i : image),
    ims !! j = Some i ->
    exists d, ms !! j = Some d
      /\ m_type d = CV_MAT_TYPE (img_type i)
      /\ m_rows d = img_rows i /\ m_cols d = img_cols i
      /\ (img_rows i * img_cols i <> 0 ->
          exists b, m_data d = Some (b, 0)
                    /\ bs !! b = Some (mkUMatData rc (img_cells i))).
Proof.
  induction 1 as [lo|lo i0 ims ms Hi _ IH|lo b i0 ims ms Hi Hb Hbuf _ IH];
    intros j i Hj.
  - discriminate.
  - destruct j as [|j]; [|exact (IH j i Hj)].
    injection Hj as <-. exists (header_without_buffer i0).
    repeat split; try reflexivity. intros Hne. contradiction.
  - destruct j as [|j]; [|exact (IH j i Hj)].
    injection Hj as <-. exists (header_of i0 b).
    repeat split; try reflexivity. intros _. exists b. split; [reflexivity|exact Hbuf].
Qed.

Section Split.

Context `{K : Kernels}.

(** Filling the vector: every image with elements gets a fresh buffer with
    one reference; nothing else changes. *)
Lemma store_images_spec (planes : list image) :
  forall h : heap,
    fresh_addresses h ->
    exists ms h1,
      store_images planes h = Ok ms h1
      /\ mats h1 = mats h /\ next_mat h1 = next_mat h
      /\ (next_buf h <= next_buf h1)%nat
      /\ (forall b, (b < next_buf h)%nat -> bufs h1 !! b = bufs h !! b)
      /\ fresh_addresses h1
      /\ planes_stored (bufs h1) 1 (next_buf h) planes ms.
Proof.
  induction planes as [|i planes IH]; intros h Hfresh.
  - exists [], h. cbn [store_images]. conj; auto using planes_nil.
  - cbn [store_images]. unfold store_image.
    destruct (Z.eqb_spec (img_rows i * img_cols i) 0) as [Hz|Hnz].
    + destruct (IH h Hfresh) as (ms & h1 & Hrun & Hmats & Hnext & Hle & Hold & Hf1 & Hst).
      exists (header_without_buffer i :: ms), h1.
      monad. rewrite Hrun. conj; auto using planes_without_buffer.
    + set (h' := {| mats := mats h;
                    bufs := <[next_buf h := mkUMatData 1 (img_cells i)]> (bufs h);
                    next_mat := next_mat h; next_buf := S (next_buf h) |}).
      assert (fresh_addresses h') as Hfresh'.
      { destruct Hfresh as [Hm Hb]. split; cbn [h' mats bufs next_mat next_buf].
        - exact Hm.
        - intros b Hb'. rewrite lookup_insert_ne by lia. apply Hb. lia. }
      destruct (IH h' Hfresh') as (ms & h1 & Hrun & Hmats & Hnext & Hle & Hold & Hf1 & Hst).
      exists (header_of i (next_buf h) :: ms), h1.
      monad. fold h'. rewrite Hrun.
      cbn [h' mats bufs next_mat next_buf] in *.
      split; [reflexivity|]. split; [exact Hmats|]. split; [exact Hnext|].
      split; [lia|]. split; [|split; [exact Hf1|]].
      * intros b Hb. rewrite Hold by lia. apply lookup_insert_ne. lia.
      * apply planes_with_buffer; auto.
        rewrite Hold by lia. apply lookup_insert_eq.
Qed.

(** The loop over the channels: one new header per plane, each sharing the
    buffer of its plane, which then has two references. *)
Lemma split_loop_spec (ms : list Mat) (l : list Mat) :
  forall (ims : list image) (i : nat) (lo : nat) (h : heap),
    drop i ms = l ->
    fresh_addresses h ->
    planes_stored (bufs h) 1 lo ims l ->
    exists h2,
      split_loop ms i (length l) h = Ok (handles (next_mat h) (length l)) h2
      /\ (forall q, (q < next_mat h)%nat -> mats h2 !! q = mats h !! q)
      /\ (forall j d, l !! j = Some d -> mats h2 !! (next_mat h + j)%nat = Some d)
      /\ next_mat h2 = (next_mat h + length l)%nat
      /\ next_buf h2 = next_buf h
      /\ (forall b, (b < lo)%nat -> bufs h2 !! b = bufs h !! b)
      /\ fresh_addresses h2
      /\ planes_stored (bufs h2) 2 lo ims l.
Proof.
  induction l as [|d l IH]; intros ims i lo h Hdrop Hfresh Hst.
  - exists h. cbn [length split_loop]. inversion Hst; subst.
    conj; auto using planes_nil; try lia.
    all: try (intros j d Hj; discriminate).
  - assert (ms !! i = Some d) as Hi.
    { rewrite <- (Nat.add_0_r i), <- lookup_drop, Hdrop. reflexivity. }
    assert (drop (S i) ms = l) as Hdrop'.
    { rewrite (drop_S ms d i Hi) in Hdrop. congruence. }
    cbn [length split_loop]. rewrite Hi. unfold new_Mat_copy, Mat_addref.
    destruct (planes_stored_cons_inv _ _ _ _ _ _ Hst)
      as (i0 & ims0 & -> & [(Hz & -> & Htail) | (Hnz & b & Hb & -> & Hbuf & Htail)]).
    + (* a plane without a buffer *)
      set (h' := {| mats := <[next_mat h := header_without_buffer i0]> (mats h);
                    bufs := bufs h; next_mat := S (next_mat h);
                    next_buf := next_buf h |}).
      assert (fresh_addresses h') as Hfresh'.
      { destruct Hfresh as [Hm Hb]. split; cbn [h' mats bufs next_mat next_buf].
        - intros q Hq. rewrite lookup_insert_ne by lia. apply Hm. lia.
        - exact Hb. }
      destruct (IH ims0 (S i) lo h' Hdrop' Hfresh' Htail)
        as (h2 & Hrun & Hold & Hnew & Hnm & Hnb & Hbufs & Hf2 & Hst2).
      exists h2. monad.
      change (m_data (header_without_buffer i0)) with (@None (nat * Z)).
      monad. fold h'. rewrite Hrun.
      cbn [h' mats bufs next_mat next_buf] in *.
      split; [|split; [|split; [|split; [|split; [|split; [|split]]]]]].
      * unfold handles, mat2obj, rb_klass. cbn [seq fmap list_fmap].
        rewrite Nat.add_0_r. f_equal. f_equal.
        rewrite <- fmap_S_seq, <- list_fmap_compose. apply list_fmap_ext.
        intros _ j _. cbn. do 2 f_equal. lia.
      * intros q Hq. rewrite Hold by lia. apply lookup_insert_ne. lia.
      * intros [|j] dj Hj.
        -- injection Hj as <-. rewrite Nat.add_0_r, Hold by lia.
           apply lookup_insert_eq.
        -- replace (next_mat h + S j)%nat with (S (next_mat h) + j)%nat by lia.
           apply Hnew. exact Hj.
      * lia.
      * exact Hnb.
      * exact Hbufs.
      * exact Hf2.
      * apply planes_without_buffer; assumption.
    + (* a plane with a buffer *)
      monad. change (m_data (header_of i0 b)) with (Some (b, 0)).
      monad. rewrite Hbuf. monad.
      set (h' := {| mats := <[next_mat h := header_of i0 b]> (mats h);
                    bufs := <[b := mkUMatData (1 + 1) (img_cells i0)]> (bufs h);
                    next_mat := S (next_mat h); next_buf := next_buf h |}).
      assert (is_Some (bufs h !! b)) as Hlive by eauto.
      assert (fresh_addresses h') as Hfresh'.
      { destruct Hfresh as [Hm Hbf]. split; cbn [h' mats bufs next_mat next_buf].
        - intros q Hq. rewrite lookup_insert_ne by lia. apply Hm. lia.
        - intros b' Hb'. destruct (decide (b = b')) as [<-|Hne].
          + rewrite (Hbf b Hb') in Hlive. destruct Hlive; discriminate.
          + rewrite lookup_insert_ne by assumption. apply Hbf. lia. }
      assert (planes_stored (bufs h') 1 (S b) ims0 l) as Htail'.
      { apply (planes_stored_agree (bufs h)); [exact Htail|].
        intros b' Hb'. cbn [h' bufs]. apply lookup_insert_ne. lia. }
      destruct (IH ims0 (S i) (S b) h' Hdrop' Hfresh' Htail')
        as (h2 & Hrun & Hold & Hnew & Hnm & Hnb & Hbufs & Hf2 & Hst2).
      exists h2. fold h'. rewrite Hrun.
      cbn [h' mats bufs next_mat next_buf] in *.
      split; [|split; [|split; [|split; [|split; [|split; [|split]]]]]].
      * unfold handles, mat2obj, rb_klass. cbn [seq fmap list_fmap].
        rewrite Nat.add_0_r. f_equal. f_equal.
        rewrite <- fmap_S_seq, <- list_fmap_compose. apply list_fmap_ext.
        intros _ j _. cbn. do 2 f_equal. lia.
      * intros q Hq. rewrite Hold by lia. apply lookup_insert_ne. lia.
      * intros [|j] dj Hj.
        -- injection Hj as <-. rewrite Nat.add_0_r, Hold by lia.
           apply lookup_insert_eq.
        -- replace (next_mat h + S j)%nat with (S (next_mat h) + j)%nat by lia.
           apply Hnew. exact Hj.
      * lia.
      * exact Hnb.
      * intros b' Hb'. rewrite Hbufs by lia. apply lookup_insert_ne. lia.
      * exact Hf2.
      * apply planes_with_buffer; auto.
        rewrite Hbufs by lia. apply lookup_insert_eq.
Qed.

End Split.

(** The destructor of the vector gives back one reference of every
    buffer. *)
Lemma release_all_spec (l : list Mat) :
  forall (ims : list image) (lo : nat) (h : heap),
    planes_stored (bufs h) 2 lo ims l ->
    exists h3,
      release_all l h = Ok tt h3
      /\ mats h3 = mats h
      /\ (forall b, (b < lo)%nat -> bufs h3 !! b = bufs h !! b)
      /\ planes_stored (bufs h3) 1 lo ims l.
Proof.
  induction l as [|d l IH]; intros ims lo h Hst.
  - exists h. inversion Hst; subst. conj; auto using planes_nil.
  - cbn [release_all]. unfold Mat_release.
    destruct (planes_stored_cons_inv _ _ _ _ _ _ Hst)
      as (i0 & ims0 & -> & [(Hz & -> & Htail) | (Hnz & b & Hb & -> & Hbuf & Htail)]).
    + destruct (IH ims0 lo h Htail) as (h3 & Hrun & Hmats & Hbufs & Hst3).
      exists h3. change (m_data (header_without_buffer i0)) with (@None (nat * Z)).
      monad. rewrite Hrun. conj; auto using planes_without_buffer.
    + change (m_data (header_of i0 b)) with (Some (b, 0)).
      monad. rewrite Hbuf. monad. change (2 =? 1) with false. monad.
      set (h' := {| mats := mats h;
                    bufs := <[b := mkUMatData (2 - 1) (img_cells i0)]> (bufs h);
                    next_mat := next_mat h; next_buf := next_buf h |}).
      assert (planes_stored (bufs h') 2 (S b) ims0 l) as Htail'.
      { apply (planes_stored_agree (bufs h)); [exact Htail|].
        intros b' Hb'. cbn [h' bufs]. apply lookup_insert_ne. lia. }
      destruct (IH ims0 (S b) h' Htail') as (h3 & Hrun & Hmats & Hbufs & Hst3).
      exists h3. rewrite Hrun. cbn [h' mats bufs] in *.
      conj; auto.
      * intros b' Hb'. rewrite Hbufs by lia. apply lookup_insert_ne. lia.
      * apply planes_with_buffer; auto.
        rewrite Hbufs by lia. apply lookup_insert_eq.
Qed.

(** The channel count of a type tag survives the masking of the tag. *)
Lemma CV_MAT_CN_TYPE (t : Z) : CV_MAT_CN (CV_MAT_TYPE t) = CV_MAT_CN t.
Proof.
  unfold CV_MAT_CN, CV_MAT_TYPE. f_equal.
  change (Z.shiftl CV_CN_MAX CV_CN_SHIFT - 1) with (Z.ones 12).
  change (CV_CN_MAX - 1) with (Z.ones 9). change CV_CN_SHIFT with 3.
  apply Z.bits_inj'. intros n Hn.
  rewrite !Z.land_spec, !Z.shiftr_spec, Z.land_spec by lia.
  destruct (Z_lt_le_dec n 9).
  - rewrite (Z.ones_spec_low 12 (n + 3)) by lia. now rewrite andb_true_r.
  - rewrite (Z.ones_spec_high 9 n) by lia. now rewrite !andb_false_r.
Qed.

(** Where the kernel delivers its planes. On a live, readable matrix for
    which the kernel [cv::split] returns as many planes as the matrix has
    channels, each of one channel: [rb_split] returns an array of that
    length, whose element [j] is a handle on a live single-channel matrix
    with the sizes of plane [j], holding (when the plane has elements) the
    components of plane [j] in a buffer it alone refers to. *)
Lemma rb_split_planes `{K : Kernels} (h : heap) (k : klass) (p : nat)
    (m : Mat) (a : image) (planes : list image) :
  fresh_addresses h ->
  mats h !! p = Some m ->
  Mat_image m h = Ok a h ->
  cv_split a = cv_ok planes ->
  length planes = Z.to_nat (Mat_channels m) ->
  Forall (fun i => img_channels i = 1) planes ->
  exists h' result,
    rb_split (MatData k (Some p)) h = Ok (RArray result) h'
    /\ length result = Z.to_nat (Mat_channels m)
    /\ forall (j : nat) (i : image),
         planes !! j = Some i ->
         exists q d,
           result !! j = Some (MatData Cv_Mat (Some q))
           /\ mats h' !! q = Some d
           /\ Mat_channels d = 1
           /\ m_rows d = img_rows i /\ m_cols d = img_cols i
           /\ (img_rows i * img_cols i <> 0 ->
               exists b, m_data d = Some (b, 0)
                         /\ bufs h' !! b = Some (mkUMatData 1 (img_cells i))).
Proof.
  intros Hfresh Hm Ha Hsplit Hlen Hsingle.
  destruct (store_images_spec planes h Hfresh)
    as (ms & h1 & Hstore & Hmats1 & Hnm1 & Hnb1 & Hbufs1 & Hfresh1 & Hst1).
  pose proof (planes_stored_length _ _ _ _ _ Hst1) as Hlen1.
  destruct (split_loop_spec ms ms planes 0%nat (next_buf h) h1
              (drop_0 ms) Hfresh1 Hst1)
    as (h2 & Hloop & Hold2 & Hnew2 & Hnm2 & Hnb2 & Hbufs2 & Hfresh2 & Hst2).
  destruct (release_all_spec ms planes (next_buf h) h2 Hst2)
    as (h3 & Hrelease & Hmats3 & Hbufs3 & Hst3).
  exists h3, (handles (next_mat h1) (length ms)).
  split; [|split].
  - unfold rb_split. cbn [obj2mat].
    unfold mbind at 1, M_bind at 1, mret at 1, M_ret at 1. cbv beta iota.
    unfold mbind at 1, M_bind at 1, deref at 1. rewrite Hm. cbv beta iota.
    rewrite (bind_Ok _ _ _ _ _ Ha). rewrite Hsplit.
    rewrite (bind_Ok _ _ _ _ _ Hstore). cbv zeta.
    rewrite <- Hlen, <- Hlen1.
    rewrite (bind_Ok _ _ _ _ _ Hloop). rewrite (bind_Ok _ _ _ _ _ Hrelease).
    reflexivity.
  - unfold handles. rewrite length_fmap, length_seq. congruence.
  - intros j i Hj.
    destruct (planes_stored_lookup _ _ _ _ _ Hst3 j i Hj)
      as (d & Hd & Htype & Hrows & Hcols & Hbuf).
    exists (next_mat h1 + j)%nat, d.
    assert (j < length ms)%nat as Hjlt by (apply lookup_lt_Some in Hd; exact Hd).
    conj; auto.
    + unfold handles. rewrite list_lookup_fmap, lookup_seq_lt by exact Hjlt.
      reflexivity.
    + rewrite Hmats3. apply Hnew2. exact Hd.
    + unfold Mat_channels. rewrite Htype, CV_MAT_CN_TYPE.
      rewrite Forall_lookup in Hsingle. exact (Hsingle j i Hj).
Qed.

Lemma fresh_addresses_two_channels : fresh_addresses heap_two_channels.
Proof.
  split; intros q Hq; cbn [heap_two_channels mats bufs next_mat next_buf] in *;
    apply lookup_singleton_ne; lia.
Qed.

(** Splitting the row (1, 2) (3, 4) with the sample collaborator: two
    planes. *)
Lemma rb_split_two_planes :
  exists h' result,
    rb_split (K := Sample.kernels) (MatData Cv_Mat (Some 1%nat)) heap_two_channels
      = Ok (RArray result) h'
    /\ length result = 2%nat.
Proof.
  destruct (rb_split_planes (K := Sample.kernels) heap_two_channels Cv_Mat 1%nat
              {| m_type := CV_MAKETYPE CV_8U 2; m_dims := 2; m_rows := 1;
                 m_cols := 2; m_step := 4; m_data := Some (1%nat, 0) |}
              (mkImage (CV_MAKETYPE CV_8U 2) 1 2
                 [IntCell 1; IntCell 2; IntCell 3; IntCell 4])
              [mkImage CV_8UC1 1 2 [IntCell 1; IntCell 3];
               mkImage CV_8UC1 1 2 [IntCell 2; IntCell 4]]
              fresh_addresses_two_channels eq_refl eq_refl eq_refl eq_refl
              ltac:(repeat constructor))
    as (h' & result & Hrun & Hlen & _).
  exists h', result. split; [exact Hrun | exact Hlen].
Qed.

(** [rb_split] on a matrix for which the kernel returned no plane: the
    loop runs once for every channel, and there is at least one. *)
Lemma rb_split_no_planes `{K : Kernels} (h : heap) (k : klass) (p : nat)
    (m : Mat) (a : image) :
  mats h !! p = Some m ->
  Mat_image m h = Ok a h ->
  cv_split a = cv_ok [] ->
  rb_split (MatData k (Some p)) h = Undefined.
Proof.
  intros Hm Ha Hsplit.
  pose proof (CV_MAT_CN_pos (m_type m)) as Hcn. fold (Mat_channels m) in Hcn.
  unfold rb_split. cbn [obj2mat].
  unfold mbind at 1, M_bind at 1, mret at 1, M_ret at 1. cbv beta iota.
  unfold mbind at 1, M_bind at 1, deref at 1. rewrite Hm. cbv beta iota.
  rewrite (bind_Ok _ _ _ _ _ Ha). rewrite Hsplit.
  cbn [store_images].
  unfold mbind at 1, M_bind at 1, mret at 1, M_ret at 1. cbv beta iota zeta.
  destruct (Z.to_nat (Mat_channels m)) as [|n] eqn:E; [lia|].
  reflexivity.
Qed.

(** C9. [rb_split] does not return planes for every matrix. It takes the
    length of its result from [self.channels], which is at least one, and
    never looks at the size of the vector that [cv::split] filled; for a
    matrix without elements [cv::split] returns no plane. On the matrix
    that [Mat.zeros(0, cols, type)] returns, [rb_split] therefore reads
    the first entry of an empty vector: undefined behaviour, where the
    claim has a sequence of [channels] single-channel matrices. *)
Theorem rb_split_empty_matrix `{K : Kernels} (h : heap) (self : VALUE)
    (cols type : Z) :
  Double.in_int cols = true -> Double.in_int type = true ->
  0 <= cols ->
  cv_split (mkImage (CV_MAT_TYPE type) 0 cols []) = cv_ok [] ->
  exists h1 m,
    rb_zeros self (Fixnum 0) (Fixnum cols) (Fixnum type) h
      = Ok (MatData Cv_Mat (Some (next_mat h))) h1
    /\ mats h1 !! next_mat h = Some m
    /\ 1 <= Mat_channels m
    /\ rb_split (MatData Cv_Mat (Some (next_mat h))) h1 = Undefined.
Proof.
  intros Hcols Htype Hpos Hsplit.
  set (m := {| m_type := CV_MAT_TYPE type; m_dims := 2; m_rows := 0;
               m_cols := cols;
               m_step := cols * CV_MAT_CN (CV_MAT_TYPE type);
               m_data := None |}).
  set (h1 := {| mats := <[next_mat h := m]> (mats h); bufs := bufs h;
                next_mat := S (next_mat h); next_buf := next_buf h |}).
  exists h1, m. split; [|split; [|split]].
  - unfold rb_zeros.
    rewrite (bind_Ok _ _ _ _ _ (NUM2INT_Fixnum 0 h eq_refl)).
    rewrite (bind_Ok _ _ _ _ _ (NUM2INT_Fixnum cols h Hcols)).
    rewrite (bind_Ok _ _ _ _ _ (NUM2INT_Fixnum type h Htype)).
    unfold Mat_zeros. change (0 <? 0) with false.
    destruct (Z.ltb_spec cols 0); [lia|]. cbn [orb].
    change (0 * cols =? 0) with true. cbv iota. fold m.
    unfold new_Mat_copy, Mat_addref, Mat_release. cbn [m m_data]. monad.
    reflexivity.
  - cbn [h1 mats]. apply lookup_insert_eq.
  - apply CV_MAT_CN_pos.
  - apply (rb_split_no_planes h1 Cv_Mat (next_mat h) m
             (mkImage (CV_MAT_TYPE type) 0 cols [])).
    + cbn [h1 mats]. apply lookup_insert_eq.
    + reflexivity.
    + exact Hsplit.
Qed.

(** [Mat.zeros(0, 3, CV_8UC1).split] with the sample collaborator. *)
Lemma rb_split_empty_matrix_witness :
  exists h1,
    rb_zeros (K := Sample.kernels) Qnil (Fixnum 0) (Fixnum 3) (Fixnum CV_8UC1)
        empty_heap
      = Ok (MatData Cv_Mat (Some 1%nat)) h1
    /\ rb_split (K := Sample.kernels) (MatData Cv_Mat (Some 1%nat)) h1
       = Undefined.
Proof.
  destruct (rb_split_empty_matrix (K := Sample.kernels) empty_heap Qnil 3 CV_8UC1
              eq_refl eq_refl ltac:(lia) eq_refl)
    as (h1 & m & Hzeros & _ & _ & Hsplit).
  exists h1. split; [exact Hzeros | exact Hsplit].
Defined.

(** ** Claim C2: decoding what is not an image *)

Lemma buffer_bytes_ints (bytes : list Z) (h : heap) :
  Forall (fun n => Double.in_int n = true) bytes ->
  buffer_bytes (Fixnum <$> bytes) h = Ok ((fun n => Z.land n 255) <$> bytes) h.
Proof.
  induction 1 as [|n bytes Hn _ IH]; [reflexivity|].
  cbn [fmap list_fmap buffer_bytes].
  rewrite (bind_Ok _ _ _ _ _ (NUM2INT_Fixnum n h Hn)).
  rewrite (bind_Ok _ _ _ _ _ IH). reflexivity.
Qed.

(** The sibling of [rb_imdecode_internal] checks what the codec returned:
    a file that holds no image is an error. *)
Lemma rb_imread_no_image `{K : Kernels} (h : heap) (self : VALUE)
    (name : string) (flags : Z) (k : klass) :
  Double.in_int flags = true ->
  cv_imread name flags = cv_ok None ->
  rb_imread_internal self (RString name) (Fixnum flags) k h
  = Raise failed_to_load h.
Proof.
  intros Hflags Hcodec. unfold rb_imread_internal. cbn [StringValueCStr].
  unfold mbind at 1, M_bind at 1, mret at 1, M_ret at 1. cbv beta iota.
  rewrite (bind_Ok _ _ _ _ _ (NUM2INT_Fixnum flags h Hflags)).
  rewrite Hcodec. reflexivity.
Qed.

(** C2 at its failing input. When the codec does not recognise the bytes,
    [rb_imdecode_internal] raises nothing: it returns a handle on the
    header it allocated before the call, which is still the empty
    matrix. *)
Theorem rb_imdecode_returns_empty `{K : Kernels} (h : heap) (self : VALUE)
    (bytes : list Z) (flags : Z) (k : klass) :
  Forall (fun n => Double.in_int n = true) bytes ->
  Double.in_int flags = true ->
  cv_imdecode ((fun n => Z.land n 255) <$> bytes) flags = cv_ok None ->
  exists h',
    rb_imdecode_internal self (RArray (Fixnum <$> bytes)) (Fixnum flags) k h
      = Ok (MatData k (Some (next_mat h))) h'
    /\ mats h' !! next_mat h = Some Mat_default
    /\ Mat_empty Mat_default = true.
Proof.
  intros Hbytes Hflags Hcodec. eexists. split; [|split].
  - unfold rb_imdecode_internal. cbn [Check_Type_ARRAY].
    unfold mbind at 1, M_bind at 1, mret at 1, M_ret at 1. cbv beta iota.
    rewrite (bind_Ok _ _ _ _ _ (buffer_bytes_ints bytes h Hbytes)).
    unfold mbind at 1, M_bind at 1, new_Mat at 1. cbv beta iota.
    erewrite bind_Ok by (apply NUM2INT_Fixnum; exact Hflags).
    rewrite Hcodec. reflexivity.
  - cbn [mats]. apply lookup_insert_eq.
  - reflexivity.
Qed.

(** Four bytes that are no image, decoded with the sample collaborator. *)
Lemma rb_imdecode_returns_empty_witness :
  exists h',
    rb_imdecode_internal (K := Sample.kernels) Qnil
        (RArray [Fixnum 0; Fixnum 1; Fixnum 2; Fixnum 3]) (Fixnum 1) Cv_Mat
        empty_heap
      = Ok (MatData Cv_Mat (Some 1%nat)) h'
    /\ mats h' !! 1%nat = Some Mat_default
    /\ Mat_empty Mat_default = true.
Proof.
  apply (rb_imdecode_returns_empty (K := Sample.kernels) empty_heap Qnil
           [0; 1; 2; 3] 1 Cv_Mat).
  - repeat constructor.
  - reflexivity.
  - reflexivity.
Defined.

(** * Further properties of the binding *)

#[local] Hint Unfold into_header : monad_unfold.

Lemma bind_ret {A B : Type} (a : A) (f : A -> M B) (h : heap) :
  (mret a ≫= f) h = f a h.
Proof. reflexivity. Qed.

Lemma bind_assoc {A B C : Type} (c : M A) (g : A -> M B) (f : B -> M C)
    (h : heap) :
  ((c ≫= g) ≫= f) h = (c ≫= fun x => g x ≫= f) h.
Proof. unfold mbind, M_bind. destruct (c h); reflexivity. Qed.

(** [rb_scan_args] on an argument list of a known length. *)
Ltac scan_args :=
  match goal with
  | |- context [rb_scan_args ?r ?o ?l] =>
      let v := eval cbv [rb_scan_args length Nat.leb andb app replicate
                         Nat.add Nat.sub] in (rb_scan_args r o l) in
      change (rb_scan_args r o l) with v;
      rewrite bind_ret; cbv zeta; cbn [nth]
  end.

(** ** Element access without checks *)

(** [rb_aref] and [rb_aset] on a live matrix and integer arguments, up to
    the switch over the depth. *)
Lemma rb_aref_switch (h : heap) (k : klass) (p : nat) (m : Mat)
    (index : list Z) :
  mats h !! p = Some m ->
  Forall (fun n => Double.in_int n = true) index ->
  Z.of_nat (length index) <= CV_MAX_DIM ->
  rb_aref (MatData k (Some p)) (Fixnum <$> index) h
  = (match ctype_of_depth (Mat_depth m) with
     | Some T => Mat_at_Scalar T m index
     | None => rb_raise rb_eStandardError "Invalid depth: %d"
                 [arg_int (Mat_depth m)]
     end ≫= fun sc => mret (scalar2obj sc)) h.
Proof.
  intros Hm Hindex Hlen. unfold rb_aref.
  rewrite (bind_Ok _ _ _ _ _ (read_index_ints h index 0 Hindex ltac:(lia))).
  cbn [obj2mat]. unfold mbind at 1, M_bind at 1, mret at 1, M_ret at 1.
  cbv beta iota. unfold mbind at 1, M_bind at 1, deref at 1. rewrite Hm.
  cbv beta iota zeta.
  now rewrite (depth_switch (Mat_depth m) (fun T => Mat_at_Scalar T m index)).
Qed.

Lemma rb_aset_switch (h : heap) (k : klass) (p : nat) (m : Mat)
    (row col : Z) (s : Scalar) :
  mats h !! p = Some m ->
  Double.in_int row = true -> Double.in_int col = true ->
  rb_aset (MatData k (Some p)) (Fixnum row) (Fixnum col) (ScalarData s) h
  = (int_mul col (Mat_channels m) ≫= fun x =>
     match ctype_of_depth (Mat_depth m) with
     | Some T => Mat_store T m row x s
     | None => rb_raise rb_eStandardError "Invalid depth: %d"
                 [arg_int (Mat_depth m)]
     end ≫= fun _ => mret (MatData k (Some p))) h.
Proof.
  intros Hm Hrow Hcol. unfold rb_aset. cbn [obj2scalar obj2mat].
  unfold mbind at 1, M_bind at 1, mret at 1, M_ret at 1. cbv beta iota.
  unfold mbind at 1, M_bind at 1, mret at 1, M_ret at 1. cbv beta iota.
  rewrite (bind_Ok _ _ _ _ _ (NUM2INT_Fixnum row h Hrow)).
  rewrite (bind_Ok _ _ _ _ _ (NUM2INT_Fixnum col h Hcol)).
  unfold mbind at 1, M_bind at 1, deref at 1. rewrite Hm. cbv beta iota.
  unfold mbind at 1, M_bind at 1. unfold mbind at 2, M_bind at 2.
  destruct (int_mul col (Mat_channels m) h) as [x h'| |]; try reflexivity.
  cbv zeta.
  now rewrite (depth_switch (Mat_depth m) (fun T => Mat_store T m row x s)).
Qed.

(** Rewriting a call of [rb_aref] on the integer indices [index]. *)
Ltac aref_switch h k p m index Hm :=
  let E := fresh "E" in
  assert (Forall (fun n => Double.in_int n = true) index) as E
    by (repeat constructor; assumption);
  let E' := fresh "E" in
  pose proof (rb_aref_switch h k p m index Hm E ltac:(by_computation)) as E';
  cbn [fmap list_fmap] in E'; rewrite E'; clear E E'.

(** The index array of [rb_aref] has no room for more than [CV_MAX_DIM]
    entries. *)
Lemma read_index_overflow (h : heap) (index : list Z) :
  forall i : Z,
    Forall (fun n => Double.in_int n = true) index ->
    i <= CV_MAX_DIM -> CV_MAX_DIM < i + Z.of_nat (length index) ->
    read_index (Fixnum <$> index) i h = Undefined.
Proof.
  induction index as [|n index IH]; intros i Hall Hi Hlen;
    [cbn [length] in Hlen; lia|].
  apply Forall_cons in Hall as [Hn Hall]. cbn [length] in Hlen.
  cbn [fmap list_fmap read_index].
  rewrite (bind_Ok _ _ _ _ _ (NUM2INT_Fixnum n h Hn)).
  destruct (Z.leb_spec CV_MAX_DIM i); [reflexivity|].
  unfold mbind, M_bind. now rewrite (IH (i + 1) Hall) by lia.
Qed.

(** The position of an element of a two-dimensional matrix. *)
Lemma ptr_offset_2 (m : Mat) (i j : Z) (rest : list Z) :
  m_dims m = 2 ->
  ptr_offset (Mat_steps m) (i :: j :: rest)
  = Some (i * m_step m + (j * Mat_channels m + 0)).
Proof.
  intros Hdims. unfold Mat_steps. rewrite Hdims.
  change (Z.to_nat 2) with 2%nat. reflexivity.
Qed.

(** X1. [rb_aref] takes as many indices as the matrix has dimensions and
    checks neither their number nor the room of its index array: on a live
    two-dimensional matrix of a supported depth, indices after the second
    are ignored, more than [CV_MAX_DIM] indices overflow the index array,
    and a single index or none leaves the column index uninitialised; the
    last two are undefined behaviour, not an exception. *)
Theorem rb_aref_index_count (h : heap) (k : klass) (p : nat) (m : Mat)
    (T : ctype) (i j : Z) (rest : list Z) :
  mats h !! p = Some m ->
  m_dims m = 2 ->
  ctype_of_depth (Mat_depth m) = Some T ->
  Double.in_int i = true -> Double.in_int j = true ->
  Forall (fun n => Double.in_int n = true) rest ->
  (Z.of_nat (length rest) + 2 <= CV_MAX_DIM ->
   rb_aref (MatData k (Some p)) (Fixnum <$> i :: j :: rest) h
   = rb_aref (MatData k (Some p)) [Fixnum i; Fixnum j] h)
  /\ (CV_MAX_DIM < Z.of_nat (length rest) + 2 ->
      rb_aref (MatData k (Some p)) (Fixnum <$> i :: j :: rest) h = Undefined)
  /\ rb_aref (MatData k (Some p)) [Fixnum i] h = Undefined
  /\ rb_aref (MatData k (Some p)) [] h = Undefined.
Proof.
  intros Hm Hdims HT Hi Hj Hrest.
  assert (Forall (fun n => Double.in_int n = true) (i :: j :: rest)) as Hall
    by (repeat constructor; assumption).
  split; [|split; [|split]].
  - intros Hlen.
    pose proof (rb_aref_switch h k p m (i :: j :: rest) Hm Hall
                  ltac:(cbn [length]; lia)) as E.
    cbn [fmap list_fmap] in E |- *. rewrite E. clear E.
    aref_switch h k p m [i; j] Hm.
    rewrite HT. unfold Mat_at_Scalar.
    now rewrite !ptr_offset_2 by assumption.
  - intros Hlen. unfold rb_aref. unfold mbind at 1, M_bind at 1.
    rewrite (read_index_overflow h (i :: j :: rest) 0 Hall); [reflexivity| |].
    + unfold CV_MAX_DIM. lia.
    + cbn [length]. lia.
  - aref_switch h k p m [i] Hm.
    rewrite HT. unfold Mat_at_Scalar, Mat_steps. rewrite Hdims.
    change (Z.to_nat 2) with 2%nat. cbn [take ptr_offset].
    monad. destruct (m_data m) as [[b off]|]; reflexivity.
  - aref_switch h k p m (@nil Z) Hm.
    rewrite HT. unfold Mat_at_Scalar, Mat_steps. rewrite Hdims.
    change (Z.to_nat 2) with 2%nat. cbn [take ptr_offset].
    monad. destruct (m_data m) as [[b off]|]; reflexivity.
Qed.

(** On the matrix 1 2 / 3 4: a third index changes nothing, and a single
    index is undefined. *)
Lemma rb_aref_index_count_witness :
  rb_aref (MatData Cv_Mat (Some 1%nat)) [Fixnum 0; Fixnum 0; Fixnum 7] heap_1234
  = rb_aref (MatData Cv_Mat (Some 1%nat)) [Fixnum 0; Fixnum 0] heap_1234
  /\ rb_aref (MatData Cv_Mat (Some 1%nat)) [Fixnum 0] heap_1234 = Undefined.
Proof.
  destruct (rb_aref_index_count heap_1234 Cv_Mat 1%nat
              {| m_type := CV_8UC1; m_dims := 2; m_rows := 2; m_cols := 2;
                 m_step := 2; m_data := Some (1%nat, 0) |}
              T_uchar 0 0 [7] eq_refl eq_refl eq_refl eq_refl eq_refl
              ltac:(repeat constructor)) as (Hmore & _ & Hone & _).
  split; [apply Hmore; by_computation | exact Hone].
Defined.

(** A write depends on the row and the column through the position
    only. *)
Lemma Mat_store_position (T : ctype) (m : Mat) (y y' x x' : Z) (s : Scalar)
    (h : heap) :
  m_step m * y + x = m_step m * y' + x' ->
  Mat_store T m y x s h = Mat_store T m y' x' s h.
Proof.
  intros E. unfold Mat_store.
  destruct (m_data m) as [[b off]|]; [|reflexivity].
  monad.
  replace (off + m_step m * y + x) with (off + m_step m * y' + x') by lia.
  reflexivity.
Qed.

(** X2. Neither [rb_aref] nor [rb_aset] checks the column against the width
    of the matrix: on a live two-dimensional matrix whose rows follow one
    another without padding, column [j + cols] of row [i] is column [j] of
    row [i + 1], for reading and for writing. *)
Theorem element_access_wraps_rows (h : heap) (k : klass) (p : nat) (m : Mat)
    (i j : Z) (s : Scalar) :
  mats h !! p = Some m ->
  m_dims m = 2 ->
  m_step m = m_cols m * Mat_channels m ->
  Double.in_int i = true -> Double.in_int (i + 1) = true ->
  Double.in_int j = true -> Double.in_int (j + m_cols m) = true ->
  Double.in_int (j * Mat_channels m) = true ->
  Double.in_int ((j + m_cols m) * Mat_channels m) = true ->
  rb_aref (MatData k (Some p)) [Fixnum i; Fixnum (j + m_cols m)] h
  = rb_aref (MatData k (Some p)) [Fixnum (i + 1); Fixnum j] h
  /\ rb_aset (MatData k (Some p)) (Fixnum i) (Fixnum (j + m_cols m))
       (ScalarData s) h
     = rb_aset (MatData k (Some p)) (Fixnum (i + 1)) (Fixnum j) (ScalarData s) h.
Proof.
  intros Hm Hdims Hstep Hi Hi1 Hj Hjc Hx Hxc. split.
  - aref_switch h k p m [i; j + m_cols m] Hm.
    aref_switch h k p m [i + 1; j] Hm.
    destruct (ctype_of_depth (Mat_depth m)) as [T|]; [|reflexivity].
    unfold Mat_at_Scalar. rewrite !ptr_offset_2 by assumption.
    replace (i * m_step m + ((j + m_cols m) * Mat_channels m + 0))
      with ((i + 1) * m_step m + (j * Mat_channels m + 0)) by (rewrite Hstep; lia).
    reflexivity.
  - rewrite (rb_aset_switch h k p m i (j + m_cols m) s Hm Hi Hjc).
    rewrite (rb_aset_switch h k p m (i + 1) j s Hm Hi1 Hj).
    unfold int_mul. rewrite Hx, Hxc. monad.
    destruct (ctype_of_depth (Mat_depth m)) as [T|]; [|reflexivity].
    unfold mbind, M_bind.
    rewrite (Mat_store_position T m i (i + 1) ((j + m_cols m) * Mat_channels m)
               (j * Mat_channels m) s h) by (rewrite Hstep; lia).
    reflexivity.
Qed.

(** On the matrix 1 2 / 3 4, column 2 of row 0 is column 0 of row 1. *)
Lemma element_access_wraps_rows_witness :
  rb_aref (MatData Cv_Mat (Some 1%nat)) [Fixnum 0; Fixnum 2] heap_1234
  = rb_aref (MatData Cv_Mat (Some 1%nat)) [Fixnum 1; Fixnum 0] heap_1234
  /\ rb_aset (MatData Cv_Mat (Some 1%nat)) (Fixnum 0) (Fixnum 2)
       (ScalarData (Scalar1 (Double.of_int 9))) heap_1234
     = rb_aset (MatData Cv_Mat (Some 1%nat)) (Fixnum 1) (Fixnum 0)
         (ScalarData (Scalar1 (Double.of_int 9))) heap_1234.
Proof.
  apply (element_access_wraps_rows heap_1234 Cv_Mat 1%nat
           {| m_type := CV_8UC1; m_dims := 2; m_rows := 2; m_cols := 2;
              m_step := 2; m_data := Some (1%nat, 0) |}
           0 0 (Scalar1 (Double.of_int 9)));
    reflexivity.
Defined.

(** A [cv::Scalar] has four components: the loop over the channels cannot
    run a fifth time. *)
Lemma store_channels_overrun (T : ctype) (s : Scalar) (p : Z) (n : nat) :
  forall (i : Z) (cs : list cell),
    0 <= i <= 4 -> 4 < i + Z.of_nat n ->
    store_channels T s p i n cs = None.
Proof.
  induction n as [|n IH]; intros i cs Hi Hn; [lia|].
  cbn [store_channels]. unfold Scalar_at.
  destruct (Z.eqb_spec i 0), (Z.eqb_spec i 1), (Z.eqb_spec i 2),
    (Z.eqb_spec i 3); try lia; cbn [mbind option_bind]; try reflexivity;
    (destruct ((0 <=? p + i) && (p + i <? Z.of_nat (length cs)));
     [apply IH; lia | reflexivity]).
Qed.

(** X3. [rb_aset] copies one component of the [cv::Scalar] per channel and
    does not look at the number of channels: on a live matrix of a
    supported depth with more than four channels it reads beyond the four
    components of the scalar, which is undefined behaviour, whatever the
    element and the value. *)
Theorem rb_aset_beyond_four_channels (h : heap) (k : klass) (p : nat)
    (m : Mat) (T : ctype) (row col : Z) (s : Scalar) :
  mats h !! p = Some m ->
  ctype_of_depth (Mat_depth m) = Some T ->
  4 < Mat_channels m ->
  Double.in_int row = true -> Double.in_int col = true ->
  rb_aset (MatData k (Some p)) (Fixnum row) (Fixnum col) (ScalarData s) h
  = Undefined.
Proof.
  intros Hm HT Hcn Hrow Hcol.
  rewrite (rb_aset_switch h k p m row col s Hm Hrow Hcol), HT.
  unfold int_mul.
  destruct (Double.in_int (col * Mat_channels m)); [|reflexivity].
  unfold Mat_store. monad.
  destruct (m_data m) as [[b off]|]; [|reflexivity].
  destruct (bufs h !! b) as [u|]; [|reflexivity].
  now rewrite store_channels_overrun by lia.
Qed.

(** Writing into a matrix of five channels. *)
Lemma rb_aset_beyond_four_channels_witness :
  rb_aset (MatData Cv_Mat (Some 1%nat)) (Fixnum 0) (Fixnum 0)
    (ScalarData (Scalar1 (Double.of_int 1))) heap_five_channels
  = Undefined.
Proof.
  apply (rb_aset_beyond_four_channels heap_five_channels Cv_Mat 1%nat
           {| m_type := CV_MAKETYPE CV_8U 5; m_dims := 2; m_rows := 1;
              m_cols := 1; m_step := 5; m_data := Some (1%nat, 0) |}
           T_uchar 0 0 (Scalar1 (Double.of_int 1)));
    by_computation.
Defined.

(** ** Zeros, accessors and the finalizer *)

Lemma CV_MAT_DEPTH_TYPE (t : Z) : CV_MAT_DEPTH (CV_MAT_TYPE t) = CV_MAT_DEPTH t.
Proof.
  unfold CV_MAT_DEPTH, CV_MAT_TYPE. rewrite <- Z.land_assoc. reflexivity.
Qed.

(** The zero of a depth, read as the C type of the depth. *)
Lemma to_double_zero_cell (depth : Z) (T : ctype) :
  ctype_of_depth depth = Some T ->
  to_double T (zero_cell depth) = Some (S754_zero false).
Proof.
  unfold ctype_of_depth, zero_cell, CV_8U, CV_8S, CV_16U, CV_16S, CV_32S,
    CV_32F, CV_64F.
  repeat match goal with
         | |- context [?a =? ?b] => destruct (Z.eqb_spec a b); try lia
         end; intros [= <-]; reflexivity.
Qed.

Lemma load_replicate (T : ctype) (n : nat) (c : cell) (pos : Z) :
  0 <= pos < Z.of_nat n -> load T (replicate n c) pos = to_double T c.
Proof.
  intros Hpos. apply load_lookup; [lia|].
  apply lookup_replicate_2. lia.
Qed.

(** X4. [rb_zeros] with positive sizes (and memory for the elements)
    returns a plain [Cv::Mat], whatever the receiver, on a fresh header
    with a buffer that it alone refers to; for a supported depth every
    element of the matrix reads as zeros (the four components read at the
    element must lie inside the buffer). *)
Theorem rb_zeros_reads_zero `{K : Kernels} (h : heap) (self : VALUE)
    (rows cols t : Z) (cs : list cell) (T : ctype) (i j : Z) :
  Double.in_int rows = true -> Double.in_int cols = true ->
  Double.in_int t = true ->
  0 < rows -> 0 < cols ->
  fastMalloc (CV_MAT_DEPTH (CV_MAT_TYPE t))
    (rows * cols * CV_MAT_CN (CV_MAT_TYPE t)) = Some cs ->
  ctype_of_depth (CV_MAT_DEPTH t) = Some T ->
  0 <= i < rows -> 0 <= j < cols ->
  (i * cols + j) * CV_MAT_CN t + 4 <= rows * cols * CV_MAT_CN t ->
  exists h' n,
    rb_zeros self (Fixnum rows) (Fixnum cols) (Fixnum t) h
      = Ok (MatData Cv_Mat (Some (next_mat h))) h'
    /\ bufs h' !! next_buf h
       = Some (mkUMatData 1 (replicate n (zero_cell (CV_MAT_DEPTH t))))
    /\ Z.of_nat n = rows * cols * CV_MAT_CN t
    /\ rb_aref (MatData Cv_Mat (Some (next_mat h))) [Fixnum i; Fixnum j] h'
       = Ok (ScalarData (mkScalar (S754_zero false) (S754_zero false)
                           (S754_zero false) (S754_zero false))) h'.
Proof.
  intros Hr Hc Ht Hrows Hcols Halloc HT Hi Hj Hin.
  pose proof (CV_MAT_CN_pos t) as Hcn.
  assert (- 2 ^ 31 <= rows <= 2 ^ 31 - 1) as Hr' by now apply in_int_iff.
  assert (- 2 ^ 31 <= cols <= 2 ^ 31 - 1) as Hc' by now apply in_int_iff.
  eexists. exists (Z.to_nat (rows * cols * CV_MAT_CN t)).
  split; [|split; [|split]].
  - rewrite (rb_zeros_elements h self rows cols t cs) by assumption.
    rewrite CV_MAT_CN_TYPE, CV_MAT_DEPTH_TYPE. reflexivity.
  - cbn [bufs]. now rewrite lookup_insert_eq.
  - rewrite Z2Nat.id by nia. reflexivity.
  - eapply (rb_aref_at _ Cv_Mat (next_mat h) _ (next_buf h) 0 _ T i j).
    + cbn [mats]. apply lookup_insert_eq.
    + reflexivity.
    + cbn [bufs]. apply lookup_insert_eq.
    + reflexivity.
    + unfold Mat_depth. cbn [m_type]. now rewrite CV_MAT_DEPTH_TYPE.
    + apply in_int_iff. lia.
    + apply in_int_iff. lia.
    + cbn [cells m_step]. unfold Mat_channels. cbn [m_type].
      rewrite CV_MAT_CN_TYPE. rewrite load_replicate by (rewrite Z2Nat.id; nia).
      now apply to_double_zero_cell.
    + cbn [cells m_step]. unfold Mat_channels. cbn [m_type].
      rewrite CV_MAT_CN_TYPE. rewrite load_replicate by (rewrite Z2Nat.id; nia).
      now apply to_double_zero_cell.
    + cbn [cells m_step]. unfold Mat_channels. cbn [m_type].
      rewrite CV_MAT_CN_TYPE. rewrite load_replicate by (rewrite Z2Nat.id; nia).
      now apply to_double_zero_cell.
    + cbn [cells m_step]. unfold Mat_channels. cbn [m_type].
      rewrite CV_MAT_CN_TYPE. rewrite load_replicate by (rewrite Z2Nat.id; nia).
      now apply to_double_zero_cell.
Qed.

(** [Mat.zeros(2, 4, CV_8UC1)] on the empty heap, read at (1, 0). *)
Lemma rb_zeros_reads_zero_witness :
  exists h' n,
    rb_zeros (K := Sample.kernels) Qnil (Fixnum 2) (Fixnum 4) (Fixnum CV_8UC1)
        empty_heap
      = Ok (MatData Cv_Mat (Some 1%nat)) h'
    /\ bufs h' !! 1%nat = Some (mkUMatData 1 (replicate n (IntCell 0)))
    /\ Z.of_nat n = 8
    /\ rb_aref (MatData Cv_Mat (Some 1%nat)) [Fixnum 1; Fixnum 0] h'
       = Ok (ScalarData (mkScalar (S754_zero false) (S754_zero false)
                           (S754_zero false) (S754_zero false))) h'.
Proof.
  apply (rb_zeros_reads_zero (K := Sample.kernels) empty_heap Qnil 2 4 CV_8UC1
           (replicate 8 (IntCell 0)) T_uchar 1 0);
    by_computation.
Defined.

(** X5. The accessors report what the matrix was made with: after
    [Mat.new(rows, cols, type)] with positive sizes (and memory for the
    elements), [rows] and [cols] return the sizes, [dims] returns 2, and
    [depth] and [channels] return the two parts of the type tag, its low
    three bits and the bits above them plus one; no accessor changes the
    heap. On an object that was allocated and never initialised the
    accessors dereference the null data pointer. *)
Theorem accessors_after_new `{K : Kernels} (h : heap) (k : klass)
    (rows cols type : Z) (cs : list cell) :
  Double.in_int rows = true -> Double.in_int cols = true ->
  Double.in_int type = true ->
  0 < rows -> 0 < cols ->
  fastMalloc (CV_MAT_DEPTH (CV_MAT_TYPE type))
    (rows * cols * CV_MAT_CN (CV_MAT_TYPE type)) = Some cs ->
  (exists self h',
     rb_initialize [Fixnum rows; Fixnum cols; Fixnum type] (rb_allocate k) h
       = Ok self h'
     /\ rb_rows self h' = Ok (Fixnum rows) h'
     /\ rb_cols self h' = Ok (Fixnum cols) h'
     /\ rb_dims self h' = Ok (Fixnum 2) h'
     /\ rb_depth self h' = Ok (Fixnum (Z.land type 7)) h'
     /\ rb_channels self h'
        = Ok (Fixnum (Z.land (Z.shiftr type 3) 511 + 1)) h')
  /\ rb_rows (rb_allocate k) h = Undefined
  /\ rb_cols (rb_allocate k) h = Undefined
  /\ rb_dims (rb_allocate k) h = Undefined
  /\ rb_depth (rb_allocate k) h = Undefined
  /\ rb_channels (rb_allocate k) h = Undefined.
Proof.
  intros Hr Hc Ht Hrows Hcols Halloc.
  split; [|repeat split].
  do 2 eexists. split.
  - apply (rb_initialize_elements h (rb_allocate k) rows cols type [Fixnum type] cs);
      try assumption. now constructor.
  - unfold rb_rows, rb_cols, rb_dims, rb_depth, rb_channels, rb_allocate.
    cbn [set_data obj2mat]. monad. rewrite lookup_insert_eq. monad.
    unfold INT2NUM, Mat_depth, Mat_channels. cbn [m_rows m_cols m_dims m_type].
    rewrite CV_MAT_DEPTH_TYPE, CV_MAT_CN_TYPE.
    repeat split.
Qed.

(** [Mat.new(3, 4, CV_8UC3)] on the empty heap. *)
Lemma accessors_after_new_witness :
  exists self h',
    rb_initialize (K := Sample.kernels) [Fixnum 3; Fixnum 4; Fixnum CV_8UC3]
        (rb_allocate Cv_Mat) empty_heap
      = Ok self h'
    /\ rb_rows self h' = Ok (Fixnum 3) h'
    /\ rb_cols self h' = Ok (Fixnum 4) h'
    /\ rb_dims self h' = Ok (Fixnum 2) h'
    /\ rb_depth self h' = Ok (Fixnum 0) h'
    /\ rb_channels self h' = Ok (Fixnum 3) h'.
Proof.
  apply (accessors_after_new (K := Sample.kernels) empty_heap Cv_Mat 3 4 CV_8UC3
           (replicate 36 (IntCell 0)));
    by_computation.
Defined.

(** X6. A matrix that was made by [Mat.new] and is collected leaves
    nothing behind: the finalizer deletes the header, and the buffer goes
    with it, so that the matrices and buffers of the heap are what they
    were before the construction. *)
Theorem free_mat_after_new `{K : Kernels} (h : heap) (k : klass)
    (rows cols type : Z) (cs : list cell) :
  fresh_addresses h ->
  Double.in_int rows = true -> Double.in_int cols = true ->
  Double.in_int type = true ->
  0 < rows -> 0 < cols ->
  fastMalloc (CV_MAT_DEPTH (CV_MAT_TYPE type))
    (rows * cols * CV_MAT_CN (CV_MAT_TYPE type)) = Some cs ->
  exists ptr h1 h2,
    rb_initialize [Fixnum rows; Fixnum cols; Fixnum type] (rb_allocate k) h
      = Ok (MatData k ptr) h1
    /\ (exists b u, bufs h1 !! b = Some u /\ bufs h !! b = None)
    /\ free_mat ptr h1 = Ok tt h2
    /\ mats h2 = mats h /\ bufs h2 = bufs h.
Proof.
  intros [Hmats Hbufs] Hr Hc Ht Hrows Hcols Halloc.
  do 3 eexists. split; [|split; [|split]].
  - apply (rb_initialize_elements h (rb_allocate k) rows cols type [Fixnum type] cs);
      try assumption. now constructor.
  - exists (next_buf h). eexists. cbn [bufs]. rewrite lookup_insert_eq.
    split; [reflexivity|]. apply Hbufs. lia.
  - unfold free_mat, delete_Mat, Mat_release. monad.
    rewrite lookup_insert_eq. monad. rewrite lookup_insert_eq. monad.
    change (1 =? 1) with true. monad. reflexivity.
  - cbn [mats bufs]. split; apply delete_insert_id; [apply Hmats | apply Hbufs]; lia.
Qed.

(** [Mat.new(3, 4, CV_8UC3)] on the empty heap, collected. *)
Lemma free_mat_after_new_witness :
  exists ptr h1 h2,
    rb_initialize (K := Sample.kernels) [Fixnum 3; Fixnum 4; Fixnum CV_8UC3]
        (rb_allocate Cv_Mat) empty_heap
      = Ok (MatData Cv_Mat ptr) h1
    /\ (exists b u, bufs h1 !! b = Some u /\ bufs empty_heap !! b = None)
    /\ free_mat ptr h1 = Ok tt h2
    /\ mats h2 = mats empty_heap /\ bufs h2 = bufs empty_heap.
Proof.
  apply (free_mat_after_new (K := Sample.kernels) empty_heap Cv_Mat 3 4 CV_8UC3
           (replicate 36 (IntCell 0)));
    first [apply fresh_addresses_empty | by_computation].
Defined.

(** ** Views *)

(** Two headers on one buffer read and write the same components where
    their positions agree. *)
Lemma Mat_at_Scalar_same (T : ctype) (m m' : Mat) (b : nat) (off off' o o' : Z)
    (index index' : list Z) (h : heap) :
  m_data m = Some (b, off) -> m_data m' = Some (b, off') ->
  ptr_offset (Mat_steps m) index = Some o ->
  ptr_offset (Mat_steps m') index' = Some o' ->
  off + o = off' + o' ->
  Mat_at_Scalar T m index h = Mat_at_Scalar T m' index' h.
Proof.
  intros Hd Hd' Ho Ho' E. unfold Mat_at_Scalar.
  rewrite Hd, Hd', Ho, Ho'. monad. now rewrite E.
Qed.

Lemma Mat_store_same (T : ctype) (m m' : Mat) (b : nat) (off off' : Z)
    (y y' x x' : Z) (s : Scalar) (h : heap) :
  m_data m = Some (b, off) -> m_data m' = Some (b, off') ->
  Mat_channels m = Mat_channels m' ->
  off + m_step m * y + x = off' + m_step m' * y' + x' ->
  Mat_store T m y x s h = Mat_store T m' y' x' s h.
Proof.
  intros Hd Hd' Hcn E. unfold Mat_store.
  rewrite Hd, Hd', Hcn. monad. now rewrite E.
Qed.

Lemma effect_run {A : Type} (c : M A) (h : heap) :
  effect c h = match c h with
               | Ok _ h' => Ok tt h'
               | Raise e h' => Raise e h'
               | Undefined => Undefined
               end.
Proof. reflexivity. Qed.

Section Views.

Context `{K : Kernels}.

(** [rb_initialize] with a matrix and a region: up to the call of the
    constructor. *)
Lemma rb_initialize_roi (h : heap) (self : VALUE) (k' : klass) (p : nat)
    (m : Mat) (roi : Rect) :
  mats h !! p = Some m ->
  rb_initialize [MatData k' (Some p); RectData roi] self h
  = (Mat_roi m roi ≫= fun r =>
       match r with
       | cv_throw e => delete_Mat None ≫= fun _ => Error_raise e
       | cv_ok header =>
           new_Mat header ≫= fun dataptr =>
           deref (Some dataptr) ≫= fun m =>
           if Mat_empty m then
             delete_Mat (Some dataptr) ≫= fun _ =>
             rb_raise rb_eNoMemError "Failed to create matrix" []
           else mret (set_data self dataptr)
       end) h.
Proof.
  intros Hm. unfold rb_initialize. cbn [rb_scan_args_21].
  unfold mbind at 1, M_bind at 1, mret at 1, M_ret at 1. cbv beta iota.
  cbn [is_Numeric obj2mat obj2rect].
  unfold mbind at 1, M_bind at 1. unfold mbind at 1, M_bind at 1.
  unfold mret at 1, M_ret at 1. cbv beta iota.
  unfold mbind at 1, M_bind at 1, mret at 1, M_ret at 1. cbv beta iota.
  unfold mbind at 1, M_bind at 1, deref at 1. rewrite Hm. cbv beta iota.
  reflexivity.
Qed.

(** A region with elements inside a matrix with a buffer. *)
Lemma rb_initialize_region (h : heap) (k k' : klass) (p : nat) (m : Mat)
    (b : nat) (off : Z) (u : UMatData) (roi : Rect) :
  mats h !! p = Some m ->
  m_data m = Some (b, off) ->
  bufs h !! b = Some u ->
  m_dims m = 2 ->
  inside roi m ->
  rb_initialize [MatData k' (Some p); RectData roi] (rb_allocate k) h
  = Ok (MatData k (Some (next_mat h)))
      {| mats := <[next_mat h := region m roi]> (mats h);
         bufs := <[b := mkUMatData (refcount u + 1) (cells u)]> (bufs h);
         next_mat := S (next_mat h); next_buf := next_buf h |}.
Proof.
  intros Hm Hdata Hbuf Hdims (Hx & Hw & Hxw & Hy & Hh & Hyh).
  rewrite (rb_initialize_roi h _ k' p m roi Hm). unfold Mat_roi.
  rewrite Hdims. change (negb (2 <=? 2)) with false. cbv iota.
  replace ((0 <=? r_x roi) && (0 <=? r_width roi)
           && (r_x roi + r_width roi <=? m_cols m)
           && (0 <=? r_y roi) && (0 <=? r_height roi)
           && (r_y roi + r_height roi <=? m_rows m)) with true
    by (symmetry; rewrite !andb_true_iff, !Z.leb_le; lia).
  cbn [negb]. cbv iota.
  destruct (Z.leb_spec (r_height roi) 0); [lia|].
  destruct (Z.leb_spec (r_width roi) 0); [lia|].
  cbn [orb]. cbv iota. unfold Mat_addref. cbn [m_data]. rewrite Hdata.
  monad. rewrite Hbuf. monad. rewrite lookup_insert_eq. monad.
  unfold Mat_empty, Mat_total. cbn [m_data m_rows m_cols m_dims].
  destruct (Z.eqb_spec (r_height roi * r_width roi) 0); [nia|].
  cbn [orb]. change (2 =? 0) with false. cbv iota.
  unfold region. rewrite Hdata. reflexivity.
Qed.

End Views.

(** X7. [Mat.new(m, roi)] copies no data: for a region with elements
    inside a live two-dimensional matrix with a buffer it returns an object
    on a new header that points into the buffer of [m], which gains one
    reference and is not copied. Element (i, j) of the view is element
    (y + i, x + j) of [m]: in every heap that holds the two headers,
    reading it through either handle gives the same result, and writing it
    through either handle has the same effect. *)
Theorem rb_initialize_view `{K : Kernels} (h : heap) (k k' : klass) (p : nat)
    (m : Mat) (b : nat) (off : Z) (u : UMatData) (roi : Rect) :
  fresh_addresses h ->
  mats h !! p = Some m ->
  m_data m = Some (b, off) ->
  bufs h !! b = Some u ->
  m_dims m = 2 ->
  inside roi m ->
  let q := next_mat h in
  exists h1,
    rb_initialize [MatData k' (Some p); RectData roi] (rb_allocate k) h
      = Ok (MatData k (Some q)) h1
    /\ mats h1 !! q = Some (region m roi)
    /\ mats h1 !! p = Some m
    /\ m_data (region m roi)
       = Some (b, off + r_y roi * m_step m + r_x roi * Mat_channels m)
    /\ bufs h1 = <[b := mkUMatData (refcount u + 1) (cells u)]> (bufs h)
    /\ next_buf h1 = next_buf h
    /\ forall (h' : heap) (i j : Z) (s : Scalar),
         mats h' !! q = Some (region m roi) ->
         mats h' !! p = Some m ->
         Double.in_int i = true -> Double.in_int j = true ->
         Double.in_int (r_y roi + i) = true ->
         Double.in_int (r_x roi + j) = true ->
         rb_aref (MatData k (Some q)) [Fixnum i; Fixnum j] h'
         = rb_aref (MatData k' (Some p))
             [Fixnum (r_y roi + i); Fixnum (r_x roi + j)] h'
         /\ (Double.in_int (j * Mat_channels m) = true ->
             Double.in_int ((r_x roi + j) * Mat_channels m) = true ->
             effect (rb_aset (MatData k (Some q)) (Fixnum i) (Fixnum j)
                       (ScalarData s)) h'
             = effect (rb_aset (MatData k' (Some p)) (Fixnum (r_y roi + i))
                         (Fixnum (r_x roi + j)) (ScalarData s)) h').
Proof.
  intros Hfresh Hm Hdata Hbuf Hdims Hin q.
  assert (m_data (region m roi)
          = Some (b, off + r_y roi * m_step m + r_x roi * Mat_channels m)) as Hv
    by (unfold region; cbn [m_data]; now rewrite Hdata).
  eexists. split; [|split; [|split; [|split; [|split; [|split]]]]].
  - apply (rb_initialize_region h k k' p m b off u roi); assumption.
  - cbn [mats]. apply lookup_insert_eq.
  - cbn [mats]. rewrite lookup_insert_ne; [exact Hm|].
    pose proof (live_below h p m Hfresh Hm). unfold q. lia.
  - exact Hv.
  - reflexivity.
  - reflexivity.
  - intros h' i j s Hq Hp Hi Hj Hyi Hxj. split.
    + aref_switch h' k q (region m roi) [i; j] Hq.
      aref_switch h' k' p m [r_y roi + i; r_x roi + j] Hp.
      change (Mat_depth (region m roi)) with (Mat_depth m).
      destruct (ctype_of_depth (Mat_depth m)) as [T|]; [|reflexivity].
      unfold mbind, M_bind.
      rewrite (Mat_at_Scalar_same T (region m roi) m b _ off
                 (i * m_step m + (j * Mat_channels m + 0))
                 ((r_y roi + i) * m_step m + ((r_x roi + j) * Mat_channels m + 0))
                 [i; j] [r_y roi + i; r_x roi + j] h' Hv Hdata);
        [reflexivity | now apply (ptr_offset_2 (region m roi))
        | now apply ptr_offset_2 | lia].
    + intros Hx Hxx. rewrite !effect_run.
      rewrite (rb_aset_switch h' k q (region m roi) i j s Hq Hi Hj).
      rewrite (rb_aset_switch h' k' p m (r_y roi + i) (r_x roi + j) s Hp Hyi Hxj).
      change (Mat_depth (region m roi)) with (Mat_depth m).
      change (Mat_channels (region m roi)) with (Mat_channels m).
      unfold int_mul. rewrite Hx, Hxx. monad.
      destruct (ctype_of_depth (Mat_depth m)) as [T|]; [|reflexivity].
      rewrite (Mat_store_same T (region m roi) m b _ off i (r_y roi + i)
                 (j * Mat_channels m) ((r_x roi + j) * Mat_channels m) s h'
                 Hv Hdata eq_refl) by (cbn [m_step region]; lia).
      destruct (Mat_store T m (r_y roi + i) ((r_x roi + j) * Mat_channels m) s h');
        reflexivity.
Qed.

(** The second column of the matrix 1 2 / 3 4 as a view: its element
    (1, 0) is element (1, 1) of the matrix. *)
Lemma rb_initialize_view_witness :
  exists h1,
    rb_initialize (K := Sample.kernels)
        [MatData Cv_Mat (Some 1%nat); RectData (mkRect 1 0 1 2)]
        (rb_allocate Cv_Mat) heap_1234
      = Ok (MatData Cv_Mat (Some 2%nat)) h1
    /\ bufs h1 !! 1%nat
       = Some (mkUMatData 2 [IntCell 1; IntCell 2; IntCell 3; IntCell 4])
    /\ effect (rb_aset (MatData Cv_Mat (Some 2%nat)) (Fixnum 1) (Fixnum 0)
                 (ScalarData (Scalar1 (Double.of_int 9)))) h1
       = effect (rb_aset (MatData Cv_Mat (Some 1%nat)) (Fixnum 1) (Fixnum 1)
                   (ScalarData (Scalar1 (Double.of_int 9)))) h1.
Proof.
  destruct (rb_initialize_view (K := Sample.kernels) heap_1234 Cv_Mat Cv_Mat 1%nat
              {| m_type := CV_8UC1; m_dims := 2; m_rows := 2; m_cols := 2;
                 m_step := 2; m_data := Some (1%nat, 0) |}
              1%nat 0 (mkUMatData 1 [IntCell 1; IntCell 2; IntCell 3; IntCell 4])
              (mkRect 1 0 1 2) fresh_addresses_1234 eq_refl eq_refl eq_refl
              eq_refl ltac:(by_computation))
    as (h1 & Hnew & Hq & Hp & _ & Hbufs & _ & Hsame).
  exists h1. split; [exact Hnew|]. split.
  - rewrite Hbufs. reflexivity.
  - apply (Hsame h1 1 0 (Scalar1 (Double.of_int 9)) Hq Hp); reflexivity.
Defined.

(** X8. A view that is collected gives back its reference and nothing
    else: after [Mat.new(m, roi)] and the finalizer of the new object, the
    matrices and buffers of the heap are what they were before, the buffer
    of [m] with its elements and its count of references among them. *)
Theorem free_mat_after_view `{K : Kernels} (h : heap) (k k' : klass) (p : nat)
    (m : Mat) (b : nat) (off : Z) (u : UMatData) (roi : Rect) :
  fresh_addresses h ->
  mats h !! p = Some m ->
  m_data m = Some (b, off) ->
  bufs h !! b = Some u ->
  0 < refcount u ->
  m_dims m = 2 ->
  inside roi m ->
  exists ptr h1 h2,
    rb_initialize [MatData k' (Some p); RectData roi] (rb_allocate k) h
      = Ok (MatData k ptr) h1
    /\ bufs h1 !! b = Some (mkUMatData (refcount u + 1) (cells u))
    /\ free_mat ptr h1 = Ok tt h2
    /\ mats h2 = mats h /\ bufs h2 = bufs h.
Proof.
  intros [Hmats _] Hm Hdata Hbuf Hrc Hdims Hin.
  do 3 eexists. split; [|split; [|split]].
  - apply (rb_initialize_region h k k' p m b off u roi); assumption.
  - cbn [bufs]. apply lookup_insert_eq.
  - unfold free_mat, delete_Mat. monad. rewrite lookup_insert_eq. monad.
    unfold Mat_release, region. cbn [m_data]. rewrite Hdata. monad.
    rewrite lookup_insert_eq. monad.
    destruct (Z.eqb_spec (refcount u + 1) 1); [lia|]. monad. reflexivity.
  - cbn [mats bufs]. split.
    + apply delete_insert_id. apply Hmats. lia.
    + rewrite insert_insert_eq.
      replace (refcount u + 1 - 1) with (refcount u) by lia.
      destruct u as [rc cs]. cbn [refcount cells]. now apply insert_id.
Qed.

(** The second column of the matrix 1 2 / 3 4 as a view, collected. *)
Lemma free_mat_after_view_witness :
  exists ptr h1 h2,
    rb_initialize (K := Sample.kernels)
        [MatData Cv_Mat (Some 1%nat); RectData (mkRect 1 0 1 2)]
        (rb_allocate Cv_Mat) heap_1234
      = Ok (MatData Cv_Mat ptr) h1
    /\ bufs h1 !! 1%nat
       = Some (mkUMatData 2 [IntCell 1; IntCell 2; IntCell 3; IntCell 4])
    /\ free_mat ptr h1 = Ok tt h2
    /\ mats h2 = mats heap_1234 /\ bufs h2 = bufs heap_1234.
Proof.
  apply (free_mat_after_view (K := Sample.kernels) heap_1234 Cv_Mat Cv_Mat 1%nat
           {| m_type := CV_8UC1; m_dims := 2; m_rows := 2; m_cols := 2;
              m_step := 2; m_data := Some (1%nat, 0) |}
           1%nat 0 (mkUMatData 1 [IntCell 1; IntCell 2; IntCell 3; IntCell 4])
           (mkRect 1 0 1 2));
    first [apply fresh_addresses_1234 | by_computation].
Defined.

(** X9. A region without elements is refused like a size of zero: for a
    region inside a live matrix whose width or height is zero,
    [Mat.new(m, roi)] raises [NoMemoryError] with the message "Failed to
    create matrix"; the header it made is deleted again, and the buffer of
    [m] keeps its count of references. *)
Theorem rb_initialize_empty_region `{K : Kernels} (h : heap) (k k' : klass)
    (p : nat) (m : Mat) (roi : Rect) :
  fresh_addresses h ->
  mats h !! p = Some m ->
  m_dims m <= 2 ->
  0 <= r_x roi -> 0 <= r_width roi -> r_x roi + r_width roi <= m_cols m ->
  0 <= r_y roi -> 0 <= r_height roi -> r_y roi + r_height roi <= m_rows m ->
  r_width roi = 0 \/ r_height roi = 0 ->
  exists h',
    rb_initialize [MatData k' (Some p); RectData roi] (rb_allocate k) h
      = Raise (RbError rb_eNoMemError "Failed to create matrix" []) h'
    /\ mats h' = mats h /\ bufs h' = bufs h.
Proof.
  intros [Hmats _] Hm Hdims Hx Hw Hxw Hy Hh Hyh Hzero.
  eexists. split.
  - rewrite (rb_initialize_roi h _ k' p m roi Hm). unfold Mat_roi.
    destruct (Z.leb_spec (m_dims m) 2); [|lia]. cbn [negb]. cbv iota.
    replace ((0 <=? r_x roi) && (0 <=? r_width roi)
             && (r_x roi + r_width roi <=? m_cols m)
             && (0 <=? r_y roi) && (0 <=? r_height roi)
             && (r_y roi + r_height roi <=? m_rows m)) with true
      by (symmetry; rewrite !andb_true_iff, !Z.leb_le; lia).
    cbn [negb]. cbv iota.
    replace ((r_height roi <=? 0) || (r_width roi <=? 0)) with true
      by (symmetry; rewrite orb_true_iff, !Z.leb_le; lia).
    monad. rewrite lookup_insert_eq. monad.
    unfold Mat_empty at 1. cbn [m_data]. unfold delete_Mat. monad.
    rewrite lookup_insert_eq. unfold Mat_release. cbn [m_data]. monad.
    reflexivity.
  - cbn [mats bufs]. split; [|reflexivity].
    apply delete_insert_id. apply Hmats. lia.
Qed.

(** A region of width zero of the matrix 1 2 / 3 4. *)
Lemma rb_initialize_empty_region_witness :
  exists h',
    rb_initialize (K := Sample.kernels)
        [MatData Cv_Mat (Some 1%nat); RectData (mkRect 1 0 0 2)]
        (rb_allocate Cv_Mat) heap_1234
      = Raise (RbError rb_eNoMemError "Failed to create matrix" []) h'
    /\ mats h' = mats heap_1234 /\ bufs h' = bufs heap_1234.
Proof.
  apply (rb_initialize_empty_region (K := Sample.kernels) heap_1234 Cv_Mat
           Cv_Mat 1%nat
           {| m_type := CV_8UC1; m_dims := 2; m_rows := 2; m_cols := 2;
              m_step := 2; m_data := Some (1%nat, 0) |}
           (mkRect 1 0 0 2));
    first [apply fresh_addresses_1234 | by_computation | (left; reflexivity)].
Defined.

(** ** Rows of a buffer *)

Lemma slice_Some (cs : list cell) (pos len : Z) :
  0 <= pos -> 0 <= len -> pos + len <= Z.of_nat (length cs) ->
  slice cs pos len = Some (take (Z.to_nat len) (drop (Z.to_nat pos) cs)).
Proof.
  intros Hpos Hlen Hin. unfold slice.
  destruct (Z.leb_spec 0 pos); [|lia]. destruct (Z.leb_spec 0 len); [|lia].
  destruct (Z.leb_spec (pos + len) (Z.of_nat (length cs))); [|lia].
  reflexivity.
Qed.

Lemma slice_inv (cs : list cell) (pos len : Z) (row : list cell) :
  slice cs pos len = Some row ->
  0 <= pos /\ 0 <= len /\ pos + len <= Z.of_nat (length cs)
  /\ row = take (Z.to_nat len) (drop (Z.to_nat pos) cs).
Proof.
  unfold slice.
  destruct (Z.leb_spec 0 pos); [|discriminate].
  destruct (Z.leb_spec 0 len); [|discriminate].
  destruct (Z.leb_spec (pos + len) (Z.of_nat (length cs))); [|discriminate].
  cbn [andb]. intros [= <-]. auto.
Qed.

Lemma slice_length (cs : list cell) (pos len : Z) (row : list cell) :
  slice cs pos len = Some row -> Z.of_nat (length row) = len.
Proof.
  intros H. apply slice_inv in H as (Hpos & Hlen & Hin & ->).
  rewrite length_take, length_drop. lia.
Qed.

(** What was gathered has the length of the rows. *)
Lemma gather_rows_length (cs : list cell) (step width : Z) (n : nat) :
  forall (pos : Z) (x : list cell),
    gather_rows cs pos step width n = Some x ->
    Z.of_nat (length x) = Z.of_nat n * width.
Proof.
  induction n as [|n IH]; intros pos x; cbn [gather_rows].
  - intros [= <-]. cbn [length]. lia.
  - destruct (slice cs pos width) as [row|] eqn:Hrow; [|discriminate].
    cbn [mbind option_bind].
    destruct (gather_rows cs (pos + step) step width n) as [rest|] eqn:Hrest;
      [|discriminate].
    cbn [mbind option_bind]. intros [= <-].
    rewrite length_app, Nat2Z.inj_add, (slice_length _ _ _ _ Hrow),
      (IH _ _ Hrest). lia.
Qed.

(** The rows of a buffer without padding are the buffer. *)
Lemma gather_rows_continuous (cs : list cell) (width : Z) (n : nat) :
  forall pos : Z,
    0 <= pos -> 0 <= width ->
    pos + Z.of_nat n * width <= Z.of_nat (length cs) ->
    gather_rows cs pos width width n
    = Some (take (Z.to_nat (Z.of_nat n * width)) (drop (Z.to_nat pos) cs)).
Proof.
  induction n as [|n IH]; intros pos Hpos Hw Hin; cbn [gather_rows].
  - reflexivity.
  - rewrite slice_Some by nia. cbn [mbind option_bind].
    rewrite IH by nia. cbn [mbind option_bind]. f_equal.
    replace (Z.to_nat (pos + width)) with (Z.to_nat pos + Z.to_nat width)%nat
      by lia.
    rewrite <- drop_drop, take_take_drop. f_equal. nia.
Qed.

Lemma gather_rows_whole (cs : list cell) (width : Z) (n : nat) :
  0 <= width -> Z.of_nat (length cs) = Z.of_nat n * width ->
  gather_rows cs 0 width width n = Some cs.
Proof.
  intros Hw Hlen. rewrite gather_rows_continuous by lia.
  rewrite drop_0, take_ge by lia. reflexivity.
Qed.

(** Gathering looks at the components of the rows only. *)
Lemma gather_rows_ext (cs cs' : list cell) (step width : Z) (n : nat) :
  length cs' = length cs ->
  forall pos : Z,
    0 <= pos -> 0 <= step ->
    (forall q : nat, pos <= Z.of_nat q -> cs' !! q = cs !! q) ->
    gather_rows cs' pos step width n = gather_rows cs pos step width n.
Proof.
  intros Hlen. induction n as [|n IH]; intros pos Hpos Hstep Hsame;
    cbn [gather_rows]; [reflexivity|].
  rewrite (IH (pos + step)) by (try lia; intros q Hq; apply Hsame; lia).
  assert (slice cs' pos width = slice cs pos width) as ->; [|reflexivity].
  unfold slice. rewrite Hlen.
  destruct ((0 <=? pos) && (0 <=? width)
            && (pos + width <=? Z.of_nat (length cs))); [|reflexivity].
  f_equal. apply list_eq. intros i.
  rewrite !lookup_take. destruct (decide (i < Z.to_nat width)%nat); [|reflexivity].
  rewrite !lookup_drop. apply Hsame. lia.
Qed.

(** Reading a matrix looks at the buffer of the matrix only. *)
Lemma Mat_image_buffer (h h1 : heap) (m : Mat) (a : image) :
  (forall b off, m_data m = Some (b, off) -> bufs h1 !! b = bufs h !! b) ->
  Mat_image m h = Ok a h -> Mat_image m h1 = Ok a h1.
Proof.
  intros Hsame. unfold Mat_image.
  destruct (m_data m) as [[b off]|]; [|intros [= <-]; reflexivity].
  monad. rewrite (Hsame b off eq_refl).
  destruct (bufs h !! b) as [u|]; [|discriminate].
  destruct (gather_rows (cells u) off (m_step m) (m_cols m * Mat_channels m)
              (Z.to_nat (m_rows m))); [|discriminate].
  intros [= <-]. reflexivity.
Qed.

(** A matrix that can be read has a live buffer. *)
Lemma Mat_image_live (h : heap) (m : Mat) (a : image) (b : nat) (off : Z) :
  fresh_addresses h ->
  Mat_image m h = Ok a h -> m_data m = Some (b, off) ->
  (b < next_buf h)%nat.
Proof.
  intros [_ Hbufs] Hread Hdata. unfold Mat_image in Hread.
  rewrite Hdata in Hread. revert Hread. monad.
  destruct (bufs h !! b) as [u|] eqn:Hb; [|discriminate]. intros _.
  destruct (decide (b < next_buf h)%nat) as [|Hge]; [assumption|].
  rewrite Hbufs in Hb by lia. discriminate.
Qed.

(** The image of a matrix has the type and the sizes of the header, and as
    many components as the matrix. *)
Lemma Mat_image_shape (h : heap) (m : Mat) (a : image) :
  Mat_image m h = Ok a h ->
  img_type a = m_type m /\ img_rows a = m_rows m /\ img_cols a = m_cols m
  /\ (forall b off, m_data m = Some (b, off) ->
      Z.of_nat (length (img_cells a))
      = Z.of_nat (Z.to_nat (m_rows m)) * (m_cols m * Mat_channels m)).
Proof.
  unfold Mat_image.
  destruct (m_data m) as [[b off]|]; [|intros [= <-]; repeat split; discriminate].
  monad. destruct (bufs h !! b) as [u|]; [|discriminate].
  destruct (gather_rows (cells u) off (m_step m) (m_cols m * Mat_channels m)
              (Z.to_nat (m_rows m))) as [cs|] eqn:Hrows; [|discriminate].
  intros [= <-]. cbn [img_type img_rows img_cols img_cells].
  repeat split. intros ? ? _. now apply gather_rows_length in Hrows.
Qed.

(** ** Clones *)

(** A write through a handle changes the buffer of its matrix and nothing
    else. *)
Lemma rb_aset_frame (h h2 : heap) (k : klass) (q : nat) (mq : Mat) (v : VALUE)
    (row col : Z) (s : Scalar) :
  mats h !! q = Some mq ->
  Double.in_int row = true -> Double.in_int col = true ->
  rb_aset (MatData k (Some q)) (Fixnum row) (Fixnum col) (ScalarData s) h
    = Ok v h2 ->
  mats h2 = mats h
  /\ exists b off, m_data mq = Some (b, off)
       /\ forall b', b' <> b -> bufs h2 !! b' = bufs h !! b'.
Proof.
  intros Hq Hrow Hcol.
  rewrite (rb_aset_switch h k q mq row col s Hq Hrow Hcol).
  unfold int_mul.
  destruct (Double.in_int (col * Mat_channels mq)); [|discriminate].
  monad.
  destruct (ctype_of_depth (Mat_depth mq)) as [T|]; [|discriminate].
  unfold Mat_store.
  destruct (m_data mq) as [[b off]|]; [|discriminate].
  monad. destruct (bufs h !! b) as [u|]; [|discriminate].
  destruct (store_channels T s (off + m_step mq * row + col * Mat_channels mq) 0
              (Z.to_nat (Mat_channels mq)) (cells u)) as [cs|]; [|discriminate].
  intros [= _ <-]. cbn [mats bufs]. split; [reflexivity|].
  exists b, off. split; [reflexivity|].
  intros b' Hb'. now rewrite lookup_insert_ne.
Qed.

Lemma contents_lookup (h : heap) (p : nat) (m : Mat) (a : image) :
  mats h !! p = Some m -> Mat_image m h = Ok a h ->
  contents (Some p) h = Ok a h.
Proof.
  intros Hm Hread. unfold contents. unfold mbind, M_bind, deref.
  now rewrite Hm.
Qed.

(** X10. [rb_clone] copies the elements: for a live matrix with elements
    that can be read (and memory for the copy) it returns an object of the
    class of the receiver on a new header with a new buffer that it alone
    refers to; the clone holds the elements of the receiver, row by row
    without padding, and the receiver is as it was. The two share nothing:
    a write through either handle leaves the elements of the other
    unchanged. *)
Theorem rb_clone_is_deep `{K : Kernels} (h : heap) (k : klass) (p : nat)
    (m : Mat) (a : image) (cs0 : list cell) :
  fresh_addresses h ->
  mats h !! p = Some m ->
  Mat_image m h = Ok a h ->
  0 < m_rows m -> 0 < m_cols m ->
  (exists b off, m_data m = Some (b, off)) ->
  m_dims m <> 0 ->
  fastMalloc (Mat_depth m) (m_rows m * m_cols m * Mat_channels m) = Some cs0 ->
  let q := next_mat h in
  let copy := mkImage (CV_MAT_TYPE (m_type m)) (m_rows m) (m_cols m)
                (img_cells a) in
  exists h',
    rb_clone (MatData k (Some p)) h = Ok (MatData k (Some q)) h'
    /\ mats h !! q = None
    /\ bufs h !! next_buf h = None
    /\ mats h' !! q = Some (header_of a (next_buf h))
    /\ bufs h' !! next_buf h = Some (mkUMatData 1 (img_cells a))
    /\ contents (Some q) h' = Ok copy h'
    /\ contents (Some p) h' = Ok a h'
    /\ forall (i j : Z) (s : Scalar) (v : VALUE) (h2 : heap),
         Double.in_int i = true -> Double.in_int j = true ->
         (rb_aset (MatData k (Some q)) (Fixnum i) (Fixnum j) (ScalarData s) h'
            = Ok v h2 ->
          contents (Some p) h2 = Ok a h2)
         /\ (rb_aset (MatData k (Some p)) (Fixnum i) (Fixnum j) (ScalarData s) h'
               = Ok v h2 ->
             contents (Some q) h2 = Ok copy h2).
Proof.
  intros Hfresh Hm Hread Hrows Hcols (b & off & Hdata) Hdims Halloc q copy.
  pose proof Hfresh as [Hmats Hbufs].
  pose proof (Mat_image_live h m a b off Hfresh Hread Hdata) as Hb.
  pose proof (live_below h p m Hfresh Hm) as Hp.
  pose proof (Mat_image_shape h m a Hread) as (Htype & Hr & Hc & Hlen).
  specialize (Hlen b off Hdata). rewrite Z2Nat.id in Hlen by lia.
  pose proof (CV_MAT_CN_pos (m_type m)) as Hcn. fold (Mat_channels m) in Hcn.
  set (h' := {| mats := <[q := header_of a (next_buf h)]> (mats h);
                bufs := <[next_buf h := mkUMatData 1 (img_cells a)]> (bufs h);
                next_mat := S (next_mat h); next_buf := S (next_buf h) |}).
  assert (mats h' !! q = Some (header_of a (next_buf h))) as Hq'
    by (unfold h'; cbn [mats]; apply lookup_insert_eq).
  assert (mats h' !! p = Some m) as Hp'
    by (unfold h'; cbn [mats]; rewrite lookup_insert_ne by (unfold q; lia);
        exact Hm).
  assert (Mat_image (header_of a (next_buf h)) h' = Ok copy h') as Hcopy.
  { unfold Mat_image, header_of. cbn [m_data m_type m_rows m_cols m_step].
    unfold h' at 1. monad. rewrite lookup_insert_eq. monad.
    unfold Mat_channels, img_channels. cbn [m_type].
    rewrite CV_MAT_CN_TYPE, Htype, Hr, Hc.
    fold (Mat_channels m).
    rewrite gather_rows_whole by (rewrite ?Z2Nat.id; nia).
    reflexivity. }
  assert (Mat_image m h' = Ok a h') as Horig.
  { apply (Mat_image_buffer h h' m a); [|exact Hread].
    intros b1 off1 Hd. rewrite Hdata in Hd. injection Hd as <- <-.
    unfold h'. cbn [bufs]. apply lookup_insert_ne. lia. }
  exists h'. split; [|split; [|split; [|split; [|split; [|split; [|split]]]]]].
  - unfold rb_clone. cbn [obj2mat rb_obj_clone rb_allocate set_data].
    monad. rewrite lookup_insert_ne by lia. rewrite Hm. monad.
    unfold Mat_copyTo, Mat_empty, Mat_total. rewrite Hdata.
    destruct (Z.eqb_spec (m_rows m * m_cols m) 0); [nia|].
    destruct (Z.eqb_spec (m_dims m) 0); [contradiction|]. cbn [orb]. cbv iota.
    unfold mbind at 1, M_bind at 1. unfold mbind at 1, M_bind at 1.
    rewrite (Mat_image_buffer h _ m a); [|reflexivity|exact Hread].
    rewrite Halloc. monad. rewrite lookup_insert_eq. monad.
    unfold h'. now rewrite insert_insert_eq.
  - apply Hmats. unfold q. lia.
  - apply Hbufs. lia.
  - exact Hq'.
  - unfold h'. cbn [bufs]. apply lookup_insert_eq.
  - now apply (contents_lookup h' q (header_of a (next_buf h))).
  - now apply (contents_lookup h' p m).
  - intros i j s v h2 Hi Hj. split; intros Hset.
    + eapply rb_aset_frame in Hset as (Hmats2 & b1 & off1 & Hd1 & Hothers);
        [|exact Hq'|assumption..].
      cbn [header_of m_data] in Hd1. injection Hd1 as <- <-.
      apply (contents_lookup h2 p m); [now rewrite Hmats2|].
      apply (Mat_image_buffer h' h2 m a); [|exact Horig].
      intros b1 off1 Hd. rewrite Hdata in Hd. injection Hd as <- <-.
      apply Hothers. lia.
    + eapply rb_aset_frame in Hset as (Hmats2 & b1 & off1 & Hd1 & Hothers);
        [|exact Hp'|assumption..].
      rewrite Hdata in Hd1. injection Hd1 as <- <-.
      apply (contents_lookup h2 q (header_of a (next_buf h)));
        [now rewrite Hmats2|].
      apply (Mat_image_buffer h' h2 _ copy); [|exact Hcopy].
      intros b1 off1 Hd. cbn [header_of m_data] in Hd. injection Hd as <- <-.
      apply Hothers. lia.
Qed.

(** The clone of the matrix 1 2 / 3 4. *)
Lemma rb_clone_is_deep_witness :
  exists h',
    rb_clone (K := Sample.kernels) (MatData Cv_Mat (Some 1%nat)) heap_1234
      = Ok (MatData Cv_Mat (Some 2%nat)) h'
    /\ bufs h' !! 2%nat
       = Some (mkUMatData 1 [IntCell 1; IntCell 2; IntCell 3; IntCell 4])
    /\ contents (Some 2%nat) h'
       = Ok (mkImage CV_8UC1 2 2 [IntCell 1; IntCell 2; IntCell 3; IntCell 4]) h'.
Proof.
  destruct (rb_clone_is_deep (K := Sample.kernels) heap_1234 Cv_Mat 1%nat
              {| m_type := CV_8UC1; m_dims := 2; m_rows := 2; m_cols := 2;
                 m_step := 2; m_data := Some (1%nat, 0) |}
              (mkImage CV_8UC1 2 2 [IntCell 1; IntCell 2; IntCell 3; IntCell 4])
              (replicate 4 (IntCell 0))
              fresh_addresses_1234 eq_refl eq_refl eq_refl eq_refl
              ltac:(exists 1%nat, 0; reflexivity) ltac:(discriminate) eq_refl)
    as (h' & Hclone & _ & _ & _ & Hbuf & Hcopy & _).
  exists h'. split; [exact Hclone|]. split; [exact Hbuf | exact Hcopy].
Defined.

(** ** Codecs *)




Lemma land_255 (n : Z) : Z.land n 255 = n mod 256.
Proof. change 255 with (Z.ones 8). now rewrite Z.land_ones by lia. Qed.

(** [rb_imdecode_as] on an array of integers: from the allocation of the
    output header on. *)
Lemma rb_imdecode_run `{K : Kernels} (h : heap) (self flags : VALUE)
    (k : klass) (xs : list Z) :
  Forall (fun n => Double.in_int n = true) xs ->
  rb_imdecode_as self (RArray (Fixnum <$> xs)) flags k h
  = (new_Mat Mat_default ≫= fun dstptr =>
     NUM2INT flags ≫= fun f =>
     match cv_imdecode ((fun n => Z.land n 255) <$> xs) f with
     | cv_throw e => delete_Mat (Some dstptr) ≫= fun _ => Error_raise e
     | cv_ok o =>
         match o with
         | Some i =>
             store_image i ≫= fun dst =>
             assign (Some dstptr) dst ≫= fun _ =>
             mret (mat2obj (Some dstptr) k)
         | None => mret (mat2obj (Some dstptr) k)
         end
     end) h.
Proof.
  intros Hxs. unfold rb_imdecode_as, rb_imdecode_internal.
  cbn [Check_Type_ARRAY].
  unfold mbind at 1, M_bind at 1, mret at 1, M_ret at 1. cbv beta iota.
  now rewrite (bind_Ok _ _ _ _ _ (buffer_bytes_ints xs h Hxs)).
Qed.

(** X12. [rb_imdecode_as] takes the low eight bits of every entry of the
    array: arrays of integers that agree modulo 256 are decoded alike,
    whatever the flags and the codec. What is no array is refused by the
    check of the type, which comes first: a [TypeError] is raised and the
    heap is as it was. *)
Theorem rb_imdecode_reads_bytes `{K : Kernels} (h : heap) (self flags : VALUE)
    (k : klass) (xs ys : list Z) :
  Forall (fun n => Double.in_int n = true) xs ->
  Forall (fun n => Double.in_int n = true) ys ->
  (((fun n => n mod 256) <$> xs) = ((fun n => n mod 256) <$> ys) ->
   rb_imdecode_as self (RArray (Fixnum <$> xs)) flags k h
   = rb_imdecode_as self (RArray (Fixnum <$> ys)) flags k h)
  /\ (forall buf,
        match buf with RArray _ => False | _ => True end ->
        exists format args,
          rb_imdecode_as self buf flags k h
          = Raise (RbError rb_eTypeError format args) h).
Proof.
  intros Hxs Hys. split.
  - intros Hmod.
    rewrite (rb_imdecode_run h self flags k xs Hxs).
    rewrite (rb_imdecode_run h self flags k ys Hys).
    replace ((fun n => Z.land n 255) <$> xs) with ((fun n => Z.land n 255) <$> ys);
      [reflexivity|].
    erewrite (list_fmap_ext (fun n => Z.land n 255) (fun n => n mod 256) ys)
      by (intros; apply land_255).
    erewrite (list_fmap_ext (fun n => Z.land n 255) (fun n => n mod 256) xs)
      by (intros; apply land_255).
    now symmetry.
  - intros buf Hbuf. unfold rb_imdecode_as, rb_imdecode_internal.
    destruct buf; try contradiction; eexists _, _; reflexivity.
Qed.

(** The four bytes 0 1 2 3, and the same bytes with 256 added to the
    first. *)
Lemma rb_imdecode_reads_bytes_witness :
  rb_imdecode_as (K := Sample.kernels) Qnil
    (RArray [Fixnum 0; Fixnum 1; Fixnum 2; Fixnum 3]) (Fixnum 1) Cv_Mat empty_heap
  = rb_imdecode_as (K := Sample.kernels) Qnil
      (RArray [Fixnum 256; Fixnum 1; Fixnum 2; Fixnum 3]) (Fixnum 1) Cv_Mat
      empty_heap.
Proof.
  apply (rb_imdecode_reads_bytes (K := Sample.kernels) empty_heap Qnil (Fixnum 1)
           Cv_Mat [0; 1; 2; 3] [256; 1; 2; 3]);
    first [reflexivity | repeat constructor].
Defined.







(** ** Filters and other functions that return a new matrix *)

(** The receiver can still be read once the output header is made. *)
Lemma contents_after_new (h : heap) (p : nat) (m x : Mat) (a : image) :
  fresh_addresses h ->
  mats h !! p = Some m ->
  Mat_image m h = Ok a h ->
  contents (Some p)
    {| mats := <[next_mat h := x]> (mats h); bufs := bufs h;
       next_mat := S (next_mat h); next_buf := next_buf h |}
  = Ok a {| mats := <[next_mat h := x]> (mats h); bufs := bufs h;
            next_mat := S (next_mat h); next_buf := next_buf h |}.
Proof. intros Hfresh Hm Hread. exact (contents_new_Mat h p m x a Hfresh Hm Hread). Qed.

(** Running a function up to its kernel: the conversions of integer
    arguments, the allocation of the output header, the reading of the
    receiver. *)
Ltac run_binding :=
  cbn [NIL_P nth obj2mat obj2scalar NUM2DBL is_kind_of_Mat is_kind_of_Scalar
       CLASS_OF negb];
  repeat first
    [ rewrite bind_assoc
    | erewrite bind_Ok
        by first [ apply NUM2INT_Fixnum; assumption
                 | eapply contents_after_new; eassumption
                 | eapply contents_lookup; eassumption
                 | reflexivity ] ].

Ltac split_ints :=
  repeat match goal with
         | H : Forall _ (_ :: _) |- _ => apply Forall_cons in H as [? H]
         end.

(** X14. The filters of [mat_imgproc.cpp] that take numbers only leave
    the receiver alone. For a live receiver that can be read and integer
    arguments where integers are expected, [rb_sobel], [rb_canny],
    [rb_laplacian], [rb_cvt_color], [rb_median_blur] and
    [rb_adaptive_threshold] hand their arguments to the kernel in the order
    of its parameters ([rb_canny] its last one by its truth value); when
    the kernel returns, the result is an object of the class of the
    receiver on a new header with the output in a buffer of its own, and
    all matrices and buffers that were on the heap are unchanged; when the
    kernel throws, the exception is raised again and the header made for
    the output is deleted. *)
Theorem filters_return_new `{O : Operations} (h : heap)
    (k : klass) (p : nat) (m : Mat) (a : image)
    (ddepth dx dy ksize border code dcn aperture method type block : Z)
    (scale delta t1 t2 maxval : spec_float) (l2gradient : VALUE) :
  fresh_addresses h ->
  mats h !! p = Some m ->
  Mat_image m h = Ok a h ->
  Forall (fun n => Double.in_int n = true)
    [ddepth; dx; dy; ksize; border; code; dcn; aperture; method; type; block] ->
  returns_new h k
    (rb_sobel [Fixnum ddepth; Fixnum dx; Fixnum dy; Fixnum ksize; Float scale;
               Float delta; Fixnum border] (MatData k (Some p)))
    (cv_Sobel a ddepth dx dy ksize scale delta border)
  /\ returns_new h k
       (rb_canny [Float t1; Float t2; Fixnum aperture; l2gradient]
          (MatData k (Some p)))
       (cv_Canny a t1 t2 aperture (RTEST l2gradient))
  /\ returns_new h k
       (rb_laplacian [Fixnum ddepth; Fixnum ksize; Float scale; Float delta;
                      Fixnum border] (MatData k (Some p)))
       (cv_Laplacian a ddepth ksize scale delta border)
  /\ returns_new h k
       (rb_cvt_color [Fixnum code; Fixnum dcn] (MatData k (Some p)))
       (cv_cvtColor a code dcn)
  /\ returns_new h k
       (rb_median_blur (MatData k (Some p)) (Fixnum ksize))
       (cv_medianBlur a ksize)
  /\ returns_new h k
       (rb_adaptive_threshold (MatData k (Some p)) (Float maxval)
          (Fixnum method) (Fixnum type) (Fixnum block) (Float delta))
       (cv_adaptiveThreshold a maxval method type block delta).
Proof.
  intros Hfresh Hm Hread Hints. split_ints.
  repeat split; apply into_header_returns_new; try assumption.
  - unfold rb_sobel. scan_args. run_binding. reflexivity.
  - unfold rb_canny. scan_args. run_binding.
    destruct (RTEST l2gradient); reflexivity.
  - unfold rb_laplacian. scan_args. run_binding. reflexivity.
  - unfold rb_cvt_color. scan_args. run_binding. reflexivity.
  - unfold rb_median_blur. run_binding. reflexivity.
  - unfold rb_adaptive_threshold. run_binding. reflexivity.
Qed.

(** The filters on the matrix 1 2 / 3 4 with the sample collaborator, which
    converts gray to colour and has no Sobel operator. *)
Lemma filters_return_new_witness :
  (exists h',
     rb_cvt_color (O := SampleOperations.operations)
         [Fixnum 8; Fixnum 0] (MatData Cv_Mat (Some 1%nat)) heap_1234
       = Ok (MatData Cv_Mat (Some 2%nat)) h'
     /\ bufs h' !! 2%nat
        = Some (mkUMatData 1
                  [IntCell 1; IntCell 1; IntCell 1; IntCell 2; IntCell 2; IntCell 2;
                   IntCell 3; IntCell 3; IntCell 3; IntCell 4; IntCell 4; IntCell 4])
     /\ bufs h' !! 1%nat = bufs heap_1234 !! 1%nat)
  /\ (exists e h',
        rb_sobel (O := SampleOperations.operations)
            [Fixnum 0; Fixnum 1; Fixnum 0; Fixnum 3; Float (Double.of_int 1);
             Float (Double.of_int 0); Fixnum BORDER_DEFAULT]
            (MatData Cv_Mat (Some 1%nat)) heap_1234
          = Raise (CvError e) h'
        /\ mats h' = mats heap_1234 /\ bufs h' = bufs heap_1234).
Proof.
  destruct (filters_return_new (O := SampleOperations.operations) heap_1234 Cv_Mat 1%nat
              {| m_type := CV_8UC1; m_dims := 2; m_rows := 2; m_cols := 2;
                 m_step := 2; m_data := Some (1%nat, 0) |}
              (mkImage CV_8UC1 2 2 [IntCell 1; IntCell 2; IntCell 3; IntCell 4])
              0 1 0 3 BORDER_DEFAULT 8 0 3 0 0 3
              (Double.of_int 1) (Double.of_int 0) (Double.of_int 1)
              (Double.of_int 2) (Double.of_int 255) Qfalse
              fresh_addresses_1234 eq_refl eq_refl
              ltac:(repeat constructor))
    as (Hsobel & _ & _ & Hcvt & _).
  split.
  - destruct Hcvt as (h' & Hcall & _ & Hbufs). exists h'.
    split; [exact Hcall|]. rewrite Hbufs. split; reflexivity.
  - destruct Hsobel as (h' & Hcall & Hmats & Hbufs).
    eexists. exists h'. split; [exact Hcall|]. split; assumption.
Defined.



(** ** Arithmetic *)

(** The end of a function that evaluates an expression and copies the
    result. *)
Lemma wrap_expr_returns_new (h : heap) (k : klass) (ptr : option nat)
    (r : cv_result image) (call : M VALUE) :
  call h = wrap_expr r (MatData k ptr) h ->
  returns_new h k call r.
Proof.
  intros Hcall. unfold returns_new. rewrite Hcall.
  destruct r as [i|e].
  - unfold output_header, output_buffers, wrap_expr, store_image.
    destruct (img_rows i * img_cols i =? 0).
    + unfold new_Mat_copy, Mat_addref, Mat_release, header_without_buffer.
      cbn [m_data CLASS_OF]. monad. eexists. split; [reflexivity|].
      split; reflexivity.
    + unfold new_Mat_copy, Mat_addref, Mat_release, header_of.
      cbn [m_data CLASS_OF]. monad. rewrite lookup_insert_eq. monad.
      rewrite lookup_insert_eq. monad.
      change (1 + 1 =? 1) with false. cbv iota. change (1 + 1 - 1) with 1.
      monad. eexists. split; [reflexivity|]. cbn [mats bufs].
      split; [reflexivity|]. now rewrite !insert_insert_eq.
  - unfold wrap_expr, delete_Mat. monad. eexists. repeat split.
Qed.

(** X16. The arithmetic operators never change their operands. For a
    live receiver that can be read, [rb_add], [rb_sub], [rb_mul] and
    [rb_div] with a matrix or a number, [rb_add] and [rb_sub] with a scalar,
    and [rb_cross] hand the operands to OpenCV as they are (a number as the
    double Ruby converts it to); when the expression has a value they
    return an object of the class of the receiver on a new header that
    holds the value in a buffer of its own, and when it throws they raise
    the exception again; either way the matrices and buffers that were on
    the heap are as before. [rb_dot] returns the number of its kernel and
    changes nothing. *)
Theorem operators_return_new `{K : Kernels} `{O : Operations} (h : heap)
    (k k' : klass) (p q : nat) (m mq : Mat) (a b : image) (op : arith_op)
    (s : Scalar) (v : VALUE) :
  mats h !! p = Some m -> Mat_image m h = Ok a h ->
  mats h !! q = Some mq -> Mat_image mq h = Ok b h ->
  is_Numeric v = true ->
  returns_new h k (rb_operator op (MatData k (Some p)) (MatData k' (Some q)))
    (MatExpr op a (by_mat b))
  /\ returns_new h k (rb_operator op (MatData k (Some p)) v)
       (MatExpr op a (by_double (numeric_value v)))
  /\ returns_new h k (rb_add (MatData k (Some p)) (ScalarData s))
       (MatExpr op_add a (by_scalar s))
  /\ returns_new h k (rb_sub (MatData k (Some p)) (ScalarData s))
       (MatExpr op_sub a (by_scalar s))
  /\ returns_new h k (rb_cross (MatData k (Some p)) (MatData k' (Some q)))
       (cv_cross a b)
  /\ rb_dot (MatData k (Some p)) (MatData k' (Some q)) h
     = match cv_dot a b with
       | cv_ok d => Ok (Float d) h
       | cv_throw e => Raise (CvError e) h
       end.
Proof.
  intros Hm Hread Hq Hreadq Hv.
  pose proof (contents_lookup h p m a Hm Hread) as Ha.
  pose proof (contents_lookup h q mq b Hq Hreadq) as Hb.
  split; [|split; [|split; [|split; [|split]]]].
  - apply (wrap_expr_returns_new h k (Some p)).
    now apply operator_matrix.
  - apply (wrap_expr_returns_new h k (Some p)).
    now apply operator_number.
  - apply (wrap_expr_returns_new h k (Some p)).
    apply (operator_scalar op_add); [now left | assumption].
  - apply (wrap_expr_returns_new h k (Some p)).
    apply (operator_scalar op_sub); [now right | assumption].
  - apply (wrap_expr_returns_new h k (Some p)).
    unfold rb_cross. run_binding. reflexivity.
  - unfold rb_dot. run_binding. destruct (cv_dot a b); reflexivity.
Qed.

(** The sum of the matrix 1 2 / 3 4 and 3. *)
Lemma operators_return_new_witness :
  exists h',
    rb_add (K := Sample.kernels) (MatData Cv_Mat (Some 1%nat)) (Fixnum 3) heap_1234
      = Ok (MatData Cv_Mat (Some 2%nat)) h'
    /\ bufs h' !! 2%nat
       = Some (mkUMatData 1 [IntCell 4; IntCell 5; IntCell 6; IntCell 7])
    /\ bufs h' !! 1%nat = bufs heap_1234 !! 1%nat
    /\ mats h' !! 1%nat = mats heap_1234 !! 1%nat.
Proof.
  destruct (operators_return_new (K := Sample.kernels)
              (O := SampleOperations.operations) heap_1234
              Cv_Mat Cv_Mat 1%nat 1%nat
              {| m_type := CV_8UC1; m_dims := 2; m_rows := 2; m_cols := 2;
                 m_step := 2; m_data := Some (1%nat, 0) |}
              {| m_type := CV_8UC1; m_dims := 2; m_rows := 2; m_cols := 2;
                 m_step := 2; m_data := Some (1%nat, 0) |}
              (mkImage CV_8UC1 2 2 [IntCell 1; IntCell 2; IntCell 3; IntCell 4])
              (mkImage CV_8UC1 2 2 [IntCell 1; IntCell 2; IntCell 3; IntCell 4])
              op_add (Scalar1 (Double.of_int 1)) (Fixnum 3)
              eq_refl eq_refl eq_refl eq_refl eq_refl)
    as (_ & (h' & Hcall & Hmats & Hbufs) & _).
  exists h'. split; [exact Hcall|]. rewrite Hmats, Hbufs.
  repeat split.
Defined.

(** ** Operations in place *)

Lemma splice_Some (cs row : list cell) (pos : Z) :
  0 <= pos -> pos + Z.of_nat (length row) <= Z.of_nat (length cs) ->
  splice cs pos row
  = Some (take (Z.to_nat pos) cs ++ row ++ drop (Z.to_nat pos + length row) cs).
Proof.
  intros Hpos Hin. unfold splice.
  destruct (Z.leb_spec 0 pos); [|lia].
  destruct (Z.leb_spec (pos + Z.of_nat (length row)) (Z.of_nat (length cs)));
    [|lia].
  reflexivity.
Qed.

Lemma splice_length (cs row cs' : list cell) (pos : Z) :
  splice cs pos row = Some cs' -> length cs' = length cs.
Proof.
  unfold splice.
  destruct (Z.leb_spec 0 pos); [|discriminate].
  destruct (Z.leb_spec (pos + Z.of_nat (length row)) (Z.of_nat (length cs)));
    [|discriminate].
  cbn [andb]. intros [= <-].
  rewrite !length_app, length_take, length_drop. lia.
Qed.

Lemma splice_lookup (cs row cs' : list cell) (pos : Z) (q : nat) :
  splice cs pos row = Some cs' ->
  cs' !! q
  = if decide (Z.of_nat q < pos) then cs !! q
    else if decide (Z.of_nat q < pos + Z.of_nat (length row))
         then row !! (q - Z.to_nat pos)%nat
         else cs !! q.
Proof.
  unfold splice.
  destruct (Z.leb_spec 0 pos); [|discriminate].
  destruct (Z.leb_spec (pos + Z.of_nat (length row)) (Z.of_nat (length cs)));
    [|discriminate].
  cbn [andb]. intros [= <-].
  destruct (decide (Z.of_nat q < pos)).
  - rewrite lookup_app_l by (rewrite length_take; lia).
    apply lookup_take_lt. lia.
  - rewrite lookup_app_r by (rewrite length_take; lia).
    rewrite length_take.
    replace (q - Z.to_nat pos `min` length cs)%nat with (q - Z.to_nat pos)%nat
      by lia.
    destruct (decide (Z.of_nat q < pos + Z.of_nat (length row))).
    + apply lookup_app_l. lia.
    + rewrite lookup_app_r by lia. rewrite lookup_drop. f_equal. lia.
Qed.

(** Rows that were written can be read back, when they do not overlap. *)
Lemma scatter_rows_gather (step width : Z) (n : nat) :
  0 <= width <= step ->
  forall (cs : list cell) (pos : Z) (new : list cell),
    0 <= pos ->
    Z.of_nat (length new) = Z.of_nat n * width ->
    (n <> 0%nat ->
     pos + (Z.of_nat n - 1) * step + width <= Z.of_nat (length cs)) ->
    exists cs',
      scatter_rows cs pos step width n new = Some cs'
      /\ length cs' = length cs
      /\ (forall q : nat, Z.of_nat q < pos -> cs' !! q = cs !! q)
      /\ gather_rows cs' pos step width n = Some new.
Proof.
  intros Hw. induction n as [|n IH]; intros cs pos new Hpos Hlen Hin.
  - exists cs. cbn [scatter_rows gather_rows]. repeat split.
    destruct new; [reflexivity | cbn [length] in Hlen; lia].
  - specialize (Hin ltac:(discriminate)).
    set (row := take (Z.to_nat width) new).
    assert (Z.of_nat (length row) = width) as Hrow
      by (unfold row; rewrite length_take; nia).
    destruct (splice cs pos row) as [cs1|] eqn:Hsplice;
      [|rewrite splice_Some in Hsplice by nia; discriminate].
    pose proof (splice_length _ _ _ _ Hsplice) as Hlen1.
    destruct (IH cs1 (pos + step) (drop (Z.to_nat width) new))
      as (cs' & Hscatter & Hlen' & Hbelow & Hgather);
      [lia | rewrite length_drop; nia | rewrite Hlen1; nia |].
    exists cs'. cbn [scatter_rows gather_rows]. fold row.
    rewrite Hsplice. cbn [mbind option_bind].
    split; [exact Hscatter|]. split; [congruence|]. split.
    + intros q Hq. rewrite Hbelow by lia.
      rewrite (splice_lookup _ _ _ _ q Hsplice).
      destruct (decide (Z.of_nat q < pos)); [reflexivity | lia].
    + rewrite slice_Some by (rewrite ?Hlen', ?Hlen1; nia).
      cbn [mbind option_bind]. rewrite Hgather. cbn [mbind option_bind].
      f_equal.
      transitivity (row ++ drop (Z.to_nat width) new); [|apply take_drop].
      f_equal. apply list_eq. intros i. unfold row.
      destruct (decide (i < Z.to_nat width)%nat) as [Hi|Hi].
      * rewrite lookup_take_lt by assumption. rewrite lookup_drop.
        rewrite Hbelow by lia.
        rewrite (splice_lookup _ _ _ _ _ Hsplice).
        destruct (decide (Z.of_nat (Z.to_nat pos + i) < pos)); [lia|].
        destruct (decide (Z.of_nat (Z.to_nat pos + i)
                          < pos + Z.of_nat (length row))); [|lia].
        f_equal. lia.
      * assert (Z.to_nat width <= i)%nat as Hge by lia.
        rewrite !lookup_take_ge by exact Hge. reflexivity.
Qed.

(** Writing a whole matrix that fits its buffer. *)
Lemma Mat_overwrite_fits (h : heap) (m : Mat) (b : nat) (off : Z)
    (u : UMatData) (new : list cell) :
  fits h m b off u ->
  Z.of_nat (length new) = m_rows m * (m_cols m * Mat_channels m) ->
  exists cs',
    Mat_overwrite m new h
    = Ok tt {| mats := mats h;
               bufs := <[b := mkUMatData (refcount u) cs']> (bufs h);
               next_mat := next_mat h; next_buf := next_buf h |}
    /\ gather_rows cs' off (m_step m) (m_cols m * Mat_channels m)
         (Z.to_nat (m_rows m))
       = Some new.
Proof.
  intros [Hdata Hbuf Hdims Hrows Hcols Hwidth Hstep Hoff Hlen] Hnew.
  pose proof (CV_MAT_CN_pos (m_type m)) as Hcn. fold (Mat_channels m) in Hcn.
  destruct (scatter_rows_gather (m_step m) (m_cols m * Mat_channels m)
              (Z.to_nat (m_rows m)) ltac:(nia) (cells u) off new Hoff)
    as (cs' & Hscatter & _ & _ & Hgather);
    [rewrite Z2Nat.id by lia; exact Hnew | rewrite Z2Nat.id by lia; lia |].
  exists cs'. split; [|exact Hgather].
  unfold Mat_overwrite. rewrite Hdata. monad. rewrite Hbuf. monad.
  destruct (Z.eqb_spec (Z.of_nat (length new))
              (m_rows m * (m_cols m * Mat_channels m))); [|contradiction].
  cbn [negb]. cbv iota. rewrite Hscatter. reflexivity.
Qed.

(** X18. [rb_set_to] changes its receiver and returns another handle on
    the same elements. For a live two-dimensional matrix that fits its
    buffer, a scalar and no mask, when the kernel gives as many components
    as the matrix has: the components are written over the elements of the
    receiver, which reads as the output of the kernel afterwards; the
    object returned has the class of the receiver and a new header that is
    a copy of the header of the receiver, so that it points at the same
    position of the same buffer; no buffer is allocated, and the buffer of
    the receiver has one reference more. *)
Theorem rb_set_to_shares_buffer `{O : Operations} (h : heap) (k : klass)
    (p : nat) (m : Mat) (b : nat) (off : Z) (u : UMatData) (a : image)
    (s : Scalar) (new : list cell) :
  mats h !! p = Some m ->
  fits h m b off u ->
  0 < refcount u ->
  Mat_image m h = Ok a h ->
  cv_setTo a s None = cv_ok new ->
  Z.of_nat (length new) = m_rows m * (m_cols m * Mat_channels m) ->
  exists h' cs',
    rb_set_to [ScalarData s] (MatData k (Some p)) h
      = Ok (MatData k (Some (next_mat h))) h'
    /\ mats h' = <[next_mat h := m]> (mats h)
    /\ bufs h' = <[b := mkUMatData (refcount u + 1) cs']> (bufs h)
    /\ next_buf h' = next_buf h
    /\ Mat_image m h' = Ok (mkImage (m_type m) (m_rows m) (m_cols m) new) h'.
Proof.
  intros Hm Hfits Hrc Hread Hkernel Hnew.
  destruct (Mat_overwrite_fits h m b off u new Hfits Hnew)
    as (cs' & Hwrite & Hgather).
  pose proof (fits_data _ _ _ _ _ Hfits) as Hdata.
  eexists. exists cs'. split; [|split; [|split; [|split]]].
  - unfold rb_set_to. scan_args. cbn [obj2mat obj2scalar NIL_P].
    rewrite !bind_ret. unfold mbind at 1, M_bind at 1, deref at 1.
    rewrite Hm. cbv beta iota. unfold Mat_setTo.
    rewrite bind_assoc, (bind_Ok _ _ _ _ _ Hread), Hkernel.
    rewrite bind_assoc, (bind_Ok _ _ _ _ _ Hwrite), bind_ret.
    unfold new_Mat_copy, Mat_addref, Mat_release. rewrite Hdata.
    monad. rewrite lookup_insert_eq. monad. rewrite lookup_insert_eq. monad.
    rewrite lookup_insert_eq. monad.
    destruct (Z.eqb_spec (refcount u + 1 + 1) 1); [lia|]. monad.
    reflexivity.
  - reflexivity.
  - cbn [bufs]. rewrite !insert_insert_eq. do 3 f_equal. lia.
  - reflexivity.
  - unfold Mat_image. rewrite Hdata. monad. rewrite lookup_insert_eq. monad.
    rewrite Hgather. reflexivity.
Qed.

(** X19. [rb_set_identity] works in place: for a live two-dimensional
    matrix that fits its buffer and a kernel that gives as many components
    as the matrix has, it writes them over the elements of the receiver and
    returns the receiver itself; no header and no buffer is allocated, and
    the references of the buffer are as before. *)
Theorem rb_set_identity_in_place `{O : Operations} (h : heap) (k : klass)
    (p : nat) (m : Mat) (b : nat) (off : Z) (u : UMatData) (a : image)
    (s : Scalar) (new : list cell) :
  mats h !! p = Some m ->
  fits h m b off u ->
  Mat_image m h = Ok a h ->
  cv_setIdentity a s = cv_ok new ->
  Z.of_nat (length new) = m_rows m * (m_cols m * Mat_channels m) ->
  exists h' cs',
    rb_set_identity [ScalarData s] (MatData k (Some p)) h
      = Ok (MatData k (Some p)) h'
    /\ mats h' = mats h
    /\ bufs h' = <[b := mkUMatData (refcount u) cs']> (bufs h)
    /\ next_mat h' = next_mat h /\ next_buf h' = next_buf h
    /\ Mat_image m h' = Ok (mkImage (m_type m) (m_rows m) (m_cols m) new) h'.
Proof.
  intros Hm Hfits Hread Hkernel Hnew.
  destruct (Mat_overwrite_fits h m b off u new Hfits Hnew)
    as (cs' & Hwrite & Hgather).
  pose proof (fits_data _ _ _ _ _ Hfits) as Hdata.
  eexists. exists cs'. split; [|split; [|split; [|split; [|split]]]].
  - unfold rb_set_identity. scan_args. cbn [obj2mat obj2scalar NIL_P].
    rewrite !bind_ret. unfold mbind at 1, M_bind at 1, deref at 1.
    rewrite Hm. cbv beta iota.
    rewrite (bind_Ok _ _ _ _ _ Hread), Hkernel.
    rewrite (bind_Ok _ _ _ _ _ Hwrite). reflexivity.
  - reflexivity.
  - reflexivity.
  - reflexivity.
  - reflexivity.
  - unfold Mat_image. rewrite Hdata. monad. rewrite lookup_insert_eq. monad.
    rewrite Hgather. reflexivity.
Qed.

(** The matrix 1 2 / 3 4 fits its buffer. *)
Lemma fits_1234 :
  fits heap_1234
    {| m_type := CV_8UC1; m_dims := 2; m_rows := 2; m_cols := 2; m_step := 2;
       m_data := Some (1%nat, 0) |}
    1%nat 0 (mkUMatData 1 [IntCell 1; IntCell 2; IntCell 3; IntCell 4]).
Proof. constructor; by_computation. Qed.

(** The matrix 1 2 / 3 4 set to 7. *)
Lemma rb_set_to_shares_buffer_witness :
  exists h' cs',
    rb_set_to (O := SampleOperations.operations)
        [ScalarData (Scalar1 (Double.of_int 7))] (MatData Cv_Mat (Some 1%nat))
        heap_1234
      = Ok (MatData Cv_Mat (Some 2%nat)) h'
    /\ mats h'
       = <[2%nat := {| m_type := CV_8UC1; m_dims := 2; m_rows := 2; m_cols := 2;
                       m_step := 2; m_data := Some (1%nat, 0) |}]>
           (mats heap_1234)
    /\ bufs h' = <[1%nat := mkUMatData 2 cs']> (bufs heap_1234)
    /\ next_buf h' = 2%nat
    /\ Mat_image {| m_type := CV_8UC1; m_dims := 2; m_rows := 2; m_cols := 2;
                    m_step := 2; m_data := Some (1%nat, 0) |} h'
       = Ok (mkImage CV_8UC1 2 2 [IntCell 7; IntCell 7; IntCell 7; IntCell 7]) h'.
Proof.
  apply (rb_set_to_shares_buffer (O := SampleOperations.operations) heap_1234
           Cv_Mat 1%nat
           {| m_type := CV_8UC1; m_dims := 2; m_rows := 2; m_cols := 2;
              m_step := 2; m_data := Some (1%nat, 0) |}
           1%nat 0 (mkUMatData 1 [IntCell 1; IntCell 2; IntCell 3; IntCell 4])
           (mkImage CV_8UC1 2 2 [IntCell 1; IntCell 2; IntCell 3; IntCell 4])
           (Scalar1 (Double.of_int 7))
           [IntCell 7; IntCell 7; IntCell 7; IntCell 7]);
    first [exact fits_1234 | by_computation].
Defined.

(** The matrix 1 2 / 3 4 made the identity scaled by 7. *)
Lemma rb_set_identity_in_place_witness :
  exists h' cs',
    rb_set_identity (O := SampleOperations.operations)
        [ScalarData (Scalar1 (Double.of_int 7))] (MatData Cv_Mat (Some 1%nat))
        heap_1234
      = Ok (MatData Cv_Mat (Some 1%nat)) h'
    /\ mats h' = mats heap_1234
    /\ bufs h' = <[1%nat := mkUMatData 1 cs']> (bufs heap_1234)
    /\ next_mat h' = 2%nat /\ next_buf h' = 2%nat
    /\ Mat_image {| m_type := CV_8UC1; m_dims := 2; m_rows := 2; m_cols := 2;
                    m_step := 2; m_data := Some (1%nat, 0) |} h'
       = Ok (mkImage CV_8UC1 2 2 [IntCell 7; IntCell 0; IntCell 0; IntCell 7]) h'.
Proof.
  apply (rb_set_identity_in_place (O := SampleOperations.operations) heap_1234
           Cv_Mat 1%nat
           {| m_type := CV_8UC1; m_dims := 2; m_rows := 2; m_cols := 2;
              m_step := 2; m_data := Some (1%nat, 0) |}
           1%nat 0 (mkUMatData 1 [IntCell 1; IntCell 2; IntCell 3; IntCell 4])
           (mkImage CV_8UC1 2 2 [IntCell 1; IntCell 2; IntCell 3; IntCell 4])
           (Scalar1 (Double.of_int 7))
           [IntCell 7; IntCell 0; IntCell 0; IntCell 7]);
    first [exact fits_1234 | by_computation].
Defined.

(** ** Merging *)

Lemma retained_0 (u : UMatData) : retained 0 u = u.
Proof. destruct u as [rc cs]. unfold retained. cbn [refcount cells]. f_equal. lia. Qed.

Lemma retained_retained (n n' : Z) (u : UMatData) :
  retained n (retained n' u) = retained (n' + n) u.
Proof. unfold retained. cbn [refcount cells]. f_equal. lia. Qed.

Lemma uses_nonneg (b : nat) (ms : list Mat) : 0 <= uses b ms.
Proof.
  induction ms as [|m ms IH]; cbn [uses]; [lia|].
  destruct (m_data m) as [[b' off]|]; [|exact IH].
  destruct (decide (b' = b)); lia.
Qed.

(** Reading a matrix looks at the components of its buffer, not at the
    count of references. *)
Lemma Mat_image_cells (h h1 : heap) (m : Mat) (a : image) :
  (forall b off, m_data m = Some (b, off) ->
     cells <$> bufs h1 !! b = cells <$> bufs h !! b) ->
  Mat_image m h = Ok a h -> Mat_image m h1 = Ok a h1.
Proof.
  intros Hsame. unfold Mat_image.
  destruct (m_data m) as [[b off]|]; [|intros [= <-]; reflexivity].
  specialize (Hsame b off eq_refl). monad.
  destruct (bufs h !! b) as [u|]; [|discriminate].
  destruct (bufs h1 !! b) as [u1|]; [|discriminate].
  injection Hsame as ->.
  destruct (gather_rows (cells u) off (m_step m) (m_cols m * Mat_channels m)
              (Z.to_nat (m_rows m))); [|discriminate].
  intros [= <-]. reflexivity.
Qed.

(** The loop that fills the vector: every buffer gains one reference for
    every header in the vector that refers to it. *)
Lemma merge_loop_spec (elts : list VALUE) :
  forall (h0 h : heap) (ms : list Mat) (ims : list image),
    merge_inputs h0 elts ms ims ->
    mats h = mats h0 ->
    (forall b, exists n, 0 <= n /\ bufs h !! b = retained n <$> bufs h0 !! b) ->
    exists h1,
      merge_loop elts h = Ok ms h1
      /\ mats h1 = mats h
      /\ next_mat h1 = next_mat h /\ next_buf h1 = next_buf h
      /\ forall b, bufs h1 !! b = retained (uses b ms) <$> bufs h !! b.
Proof.
  induction elts as [|elt elts IH]; intros h0 h ms ims Hin Hmats Hbufs;
    inversion Hin as [|k q m a elts' ms' ims' Hq Hread Hlive Hrest]; subst.
  - exists h. cbn [merge_loop uses]. repeat split.
    intros b. destruct (bufs h !! b) as [u|]; [|reflexivity].
    cbn [fmap option_fmap option_map]. now rewrite retained_0.
  - assert (mats h !! q = Some m) as Hq' by (rewrite Hmats; exact Hq).
    cbn [merge_loop obj2mat]. rewrite bind_ret.
    unfold mbind at 1, M_bind at 1, deref at 1. rewrite Hq'.
    cbv beta iota.
    destruct (m_data m) as [[b0 off0]|] eqn:Hdata.
    + destruct (Hlive b0 off0 eq_refl) as (u0 & Hu0 & Hrc0).
      destruct (Hbufs b0) as (n0 & Hn0 & Hb0). rewrite Hu0 in Hb0.
      cbn [fmap option_fmap option_map] in Hb0.
      set (ha := {| mats := mats h;
                    bufs := <[b0 := retained 1 (retained n0 u0)]> (bufs h);
                    next_mat := next_mat h; next_buf := next_buf h |}).
      destruct (IH h0 ha ms' ims' Hrest Hmats) as (h1 & Hloop & Hm1 & Hnm & Hnb & Hb1).
      { intros b. destruct (decide (b = b0)) as [->|Hne].
        - exists (n0 + 1). split; [lia|]. unfold ha. cbn [bufs].
          rewrite lookup_insert_eq, Hu0. cbn [fmap option_fmap option_map].
          now rewrite retained_retained.
        - destruct (Hbufs b) as (n & Hn & Hb). exists n. split; [lia|].
          unfold ha. cbn [bufs]. now rewrite lookup_insert_ne. }
      exists h1.
      split; [|split; [exact Hm1|split; [exact Hnm|split; [exact Hnb|]]]].
      * unfold Mat_addref. rewrite Hdata. monad. rewrite Hb0. monad.
        fold (retained 1 (retained n0 u0)). fold ha.
        unfold mbind, M_bind in Hloop |- *. now rewrite Hloop.
      * intros b. rewrite Hb1. cbn [uses]. rewrite Hdata. unfold ha. cbn [bufs].
        destruct (decide (b0 = b)) as [->|Hne].
        -- rewrite lookup_insert_eq, Hb0.
           cbn [fmap option_fmap option_map].
           rewrite !retained_retained. do 2 f_equal; lia.
        -- now rewrite lookup_insert_ne.
    + destruct (IH h0 h ms' ims' Hrest Hmats Hbufs)
        as (h1 & Hloop & Hm1 & Hnm & Hnb & Hb1).
      exists h1.
      split; [|split; [exact Hm1|split; [exact Hnm|split; [exact Hnb|]]]].
      * unfold Mat_addref. rewrite Hdata. rewrite bind_ret.
        unfold mbind, M_bind in Hloop |- *. now rewrite Hloop.
      * intros b. rewrite Hb1. cbn [uses]. now rewrite Hdata.
Qed.

(** The destructor of the vector takes the references back, as long as
    every buffer has more references than the vector holds. *)
Lemma release_all_uses (ms : list Mat) :
  forall h2 : heap,
    (forall b, 0 < uses b ms ->
       exists u, bufs h2 !! b = Some u /\ uses b ms < refcount u) ->
    exists h3,
      release_all ms h2 = Ok tt h3
      /\ mats h3 = mats h2
      /\ next_mat h3 = next_mat h2 /\ next_buf h3 = next_buf h2
      /\ forall b, bufs h3 !! b = retained (- uses b ms) <$> bufs h2 !! b.
Proof.
  induction ms as [|m ms IH]; intros h2 Hlive.
  - exists h2. cbn [release_all uses]. repeat split.
    intros b. destruct (bufs h2 !! b) as [u|]; [|reflexivity].
    cbn [fmap option_fmap option_map]. now rewrite retained_0.
  - cbn [release_all]. unfold Mat_release.
    destruct (m_data m) as [[b0 off0]|] eqn:Hdata.
    + destruct (Hlive b0) as (u0 & Hu0 & Hrc0).
      { cbn [uses]. rewrite Hdata. destruct (decide (b0 = b0)); [|contradiction].
        pose proof (uses_nonneg b0 ms). lia. }
      cbn [uses] in Hrc0. rewrite Hdata in Hrc0.
      destruct (decide (b0 = b0)); [|contradiction].
      pose proof (uses_nonneg b0 ms) as Hnn.
      set (hb := {| mats := mats h2;
                    bufs := <[b0 := retained (- 1) u0]> (bufs h2);
                    next_mat := next_mat h2; next_buf := next_buf h2 |}).
      destruct (IH hb) as (h3 & Hrel & Hm3 & Hnm & Hnb & Hb3).
      { intros b Hb. destruct (decide (b = b0)) as [->|Hne].
        - exists (retained (- 1) u0). unfold hb. cbn [bufs].
          rewrite lookup_insert_eq. split; [reflexivity|].
          unfold retained. cbn [refcount]. lia.
        - destruct (Hlive b) as (u & Hu & Hrc).
          { cbn [uses]. rewrite Hdata.
            destruct (decide (b0 = b)); [congruence | exact Hb]. }
          cbn [uses] in Hrc. rewrite Hdata in Hrc.
          destruct (decide (b0 = b)); [congruence|].
          exists u. unfold hb. cbn [bufs]. now rewrite lookup_insert_ne. }
      exists h3.
      split; [|split; [exact Hm3|split; [exact Hnm|split; [exact Hnb|]]]].
      * monad. rewrite Hu0. monad.
        destruct (Z.eqb_spec (refcount u0) 1); [lia|]. monad.
        change (refcount u0 - 1) with (refcount u0 + - 1).
        fold (retained (- 1) u0). fold hb. exact Hrel.
      * intros b. rewrite Hb3. cbn [uses]. rewrite Hdata. unfold hb. cbn [bufs].
        destruct (decide (b0 = b)) as [->|Hne].
        -- rewrite lookup_insert_eq, Hu0. cbn [fmap option_fmap option_map].
           rewrite retained_retained. do 2 f_equal; lia.
        -- now rewrite lookup_insert_ne.
    + destruct (IH h2) as (h3 & Hrel & Hm3 & Hnm & Hnb & Hb3).
      { intros b Hb. destruct (Hlive b) as (u & Hu & Hrc).
        - cbn [uses]. now rewrite Hdata.
        - cbn [uses] in Hrc. rewrite Hdata in Hrc. eauto. }
      exists h3.
      split; [|split; [exact Hm3|split; [exact Hnm|split; [exact Hnb|]]]].
      * rewrite bind_ret. exact Hrel.
      * intros b. rewrite Hb3. cbn [uses]. now rewrite Hdata.
Qed.

(** A buffer that the vector refers to is live. *)
Lemma uses_live (h : heap) (elts : list VALUE) (ms : list Mat)
    (ims : list image) (b : nat) :
  merge_inputs h elts ms ims -> 0 < uses b ms ->
  exists u, bufs h !! b = Some u /\ 0 < refcount u.
Proof.
  induction 1 as [|k q m a elts ms ims Hq Hread Hlive Hrest IH];
    cbn [uses]; [lia|].
  destruct (m_data m) as [[b' off]|]; [|exact IH].
  destruct (decide (b' = b)) as [->|]; [|exact IH].
  intros _. now apply (Hlive b off).
Qed.

(** The kernel reads the matrices of the vector. *)
Lemma images_spec (h0 : heap) (elts : list VALUE) (ms : list Mat)
    (ims : list image) :
  merge_inputs h0 elts ms ims ->
  forall h : heap,
    (forall b, cells <$> bufs h !! b = cells <$> bufs h0 !! b) ->
    images ms h = Ok ims h.
Proof.
  induction 1 as [|k q m a elts ms ims Hq Hread Hlive Hrest IH];
    intros h Hcells; [reflexivity|].
  cbn [images].
  rewrite (bind_Ok _ _ _ _ _ (Mat_image_cells h0 h m a (fun b _ _ => Hcells b) Hread)).
  rewrite (bind_Ok _ _ _ _ _ (IH h Hcells)). reflexivity.
Qed.

Lemma cells_retained (n : Z) (o : option UMatData) :
  cells <$> (retained n <$> o) = cells <$> o.
Proof. destruct o; reflexivity. Qed.

Section Merge.

Context `{O : Operations}.

Variable merge_func : list image -> cv_result image.

(** [rb_merge_array_internal] when its kernel returns. *)
Lemma rb_merge_array_internal_returns (h : heap) (self : VALUE)
    (elts : list VALUE) (ms : list Mat) (ims : list image) (i : image) :
  fresh_addresses h ->
  merge_inputs h elts ms ims ->
  merge_func ims = cv_ok i ->
  returns_new h Cv_Mat (rb_merge_array_internal self (RArray elts) merge_func)
    (cv_ok i).
Proof.
  intros [Hmats Hbufs] Hin Hkernel.
  destruct (merge_loop_spec elts h h ms ims Hin eq_refl)
    as (h1 & Hloop & Hm1 & Hnm1 & Hnb1 & Hb1).
  { intros b. exists 0. split; [lia|].
    destruct (bufs h !! b) as [u|]; [|reflexivity].
    cbn [fmap option_fmap option_map]. now rewrite retained_0. }
  assert (forall b, (next_buf h <= b)%nat -> uses b ms = 0) as Hfree.
  { intros b Hb. pose proof (uses_nonneg b ms).
    destruct (decide (0 < uses b ms)) as [Hpos|]; [|lia].
    destruct (uses_live h elts ms ims b Hin Hpos) as (u & Hu & _).
    rewrite Hbufs in Hu by exact Hb. discriminate. }
  unfold returns_new, rb_merge_array_internal. cbn [Check_Type_ARRAY].
  rewrite bind_ret, (bind_Ok _ _ _ _ _ Hloop).
  unfold mbind at 1, M_bind at 1, new_Mat at 1. cbv beta iota.
  erewrite bind_Ok
    by (apply (images_spec h elts ms ims Hin); intros b; cbn [bufs];
        rewrite Hb1; apply cells_retained).
  rewrite Hkernel. unfold output_header, output_buffers, store_image.
  rewrite Hm1, Hnm1, Hnb1.
  destruct (img_rows i * img_cols i =? 0).
  - monad. rewrite lookup_insert_eq. monad.
    match goal with
    | |- context [release_all ms ?h2] =>
        destruct (release_all_uses ms h2) as (h3 & Hrel & Hm3 & _ & _ & Hb3)
    end.
    { intros b Hb. cbn [bufs]. rewrite Hb1.
      destruct (uses_live h elts ms ims b Hin Hb) as (u & -> & Hrc).
      exists (retained (uses b ms) u). split; [reflexivity|].
      unfold retained. cbn [refcount]. lia. }
    rewrite Hrel. eexists. split; [reflexivity|]. split.
    + rewrite Hm3. cbn [mats]. now rewrite insert_insert_eq.
    + apply map_eq. intros b. rewrite Hb3. cbn [bufs]. rewrite Hb1.
      destruct (bufs h !! b) as [u|]; [|reflexivity].
      cbn [fmap option_fmap option_map]. rewrite retained_retained.
      replace (uses b ms + - uses b ms) with 0 by lia. now rewrite retained_0.
  - monad. rewrite lookup_insert_eq. monad.
    match goal with
    | |- context [release_all ms ?h2] =>
        destruct (release_all_uses ms h2) as (h3 & Hrel & Hm3 & _ & _ & Hb3)
    end.
    { intros b Hb. cbn [bufs].
      destruct (uses_live h elts ms ims b Hin Hb) as (u & Hu & Hrc).
      assert (b <> next_buf h) as Hne
        by (intros ->; rewrite Hbufs in Hu by lia; discriminate).
      rewrite lookup_insert_ne by congruence. rewrite Hb1, Hu.
      exists (retained (uses b ms) u). split; [reflexivity|].
      unfold retained. cbn [refcount]. lia. }
    rewrite Hrel. eexists. split; [reflexivity|]. split.
    + rewrite Hm3. cbn [mats]. now rewrite insert_insert_eq.
    + apply map_eq. intros b. rewrite Hb3. cbn [bufs].
      destruct (decide (b = next_buf h)) as [->|Hne].
      * rewrite !lookup_insert_eq. cbn [fmap option_fmap option_map].
        rewrite Hfree by lia. now rewrite retained_0.
      * rewrite !lookup_insert_ne by congruence. rewrite Hb1.
        destruct (bufs h !! b) as [u|]; [|reflexivity].
        cbn [fmap option_fmap option_map]. rewrite retained_retained.
        replace (uses b ms + - uses b ms) with 0 by lia. now rewrite retained_0.
Qed.

End Merge.

(** X20. Merging gives back the references it takes. [rb_merge],
    [rb_hconcat] and [rb_vconcat] copy the header of every matrix of the
    array into a vector, which shares the buffers; for an array of handles
    on live matrices that can be read, in any number and with repetitions,
    when the kernel returns they return a plain [Cv::Mat], whatever the
    classes of the inputs, on a new header with the output in a buffer of
    its own, and every header and every buffer that was on the heap is as
    before, the counts of references included. What is not an array is
    refused before anything is allocated. *)
Theorem rb_merge_restores_references `{O : Operations} (h : heap) (self : VALUE)
    (elts : list VALUE) (ms : list Mat) (ims : list image) :
  fresh_addresses h ->
  merge_inputs h elts ms ims ->
  (forall i, cv_merge ims = cv_ok i ->
     returns_new h Cv_Mat (rb_merge self (RArray elts)) (cv_ok i))
  /\ (forall i, cv_hconcat ims = cv_ok i ->
        returns_new h Cv_Mat (rb_hconcat self (RArray elts)) (cv_ok i))
  /\ (forall i, cv_vconcat ims = cv_ok i ->
        returns_new h Cv_Mat (rb_vconcat self (RArray elts)) (cv_ok i))
  /\ (forall src,
        match src with RArray _ => False | _ => True end ->
        exists e, rb_merge self src h = Raise e h
                  /\ rb_hconcat self src h = Raise e h
                  /\ rb_vconcat self src h = Raise e h).
Proof.
  intros Hfresh Hin. split; [|split; [|split]].
  - intros i Hi. now apply (rb_merge_array_internal_returns cv_merge h self elts ms ims).
  - intros i Hi. now apply (rb_merge_array_internal_returns cv_hconcat h self elts ms ims).
  - intros i Hi. now apply (rb_merge_array_internal_returns cv_vconcat h self elts ms ims).
  - intros src Hsrc. unfold rb_merge, rb_hconcat, rb_vconcat, rb_merge_array_internal.
    destruct src; try contradiction; eexists; repeat split.
Qed.

(** The matrix 1 2 / 3 4 as the two inputs of a merge. *)
Lemma merge_inputs_1234 :
  merge_inputs heap_1234
    [MatData Cv_Mat (Some 1%nat); MatData Cv_Mat (Some 1%nat)]
    [header_2x2 1; header_2x2 1]
    [mkImage CV_8UC1 2 2 [IntCell 1; IntCell 2; IntCell 3; IntCell 4];
     mkImage CV_8UC1 2 2 [IntCell 1; IntCell 2; IntCell 3; IntCell 4]].
Proof.
  repeat (constructor; try reflexivity;
          try (intros b off [= <- <-]; eexists; split; [reflexivity | by_computation])).
Qed.

(** The matrix 1 2 / 3 4 merged with itself. *)
Lemma rb_merge_restores_references_witness :
  exists h',
    rb_merge (O := SampleOperations.operations) Qnil
        (RArray [MatData Cv_Mat (Some 1%nat); MatData Cv_Mat (Some 1%nat)])
        heap_1234
      = Ok (MatData Cv_Mat (Some 2%nat)) h'
    /\ bufs h' !! 1%nat = bufs heap_1234 !! 1%nat
    /\ bufs h' !! 2%nat
       = Some (mkUMatData 1 [IntCell 1; IntCell 1; IntCell 2; IntCell 2;
                             IntCell 3; IntCell 3; IntCell 4; IntCell 4]).
Proof.
  destruct (rb_merge_restores_references (O := SampleOperations.operations)
              heap_1234 Qnil _ _ _ fresh_addresses_1234 merge_inputs_1234)
    as (Hmerge & _).
  destruct (Hmerge _ eq_refl) as (h' & Hcall & _ & Hbufs).
  exists h'. split; [exact Hcall|]. rewrite Hbufs. split; reflexivity.
Defined.

(** X21. When the kernel of [rb_merge] throws, the references are not
    given back. The handler deletes the output header and raises the Ruby
    exception, which leaves the function without destroying the vector of
    copies: the headers of the heap are as before, and every buffer keeps
    one reference for every entry of the array that refers to it, with its
    elements unchanged. *)
Theorem rb_merge_keeps_references_on_error `{O : Operations} (h : heap)
    (self : VALUE) (elts : list VALUE) (ms : list Mat) (ims : list image)
    (e : cv_Exception) :
  fresh_addresses h ->
  merge_inputs h elts ms ims ->
  cv_merge ims = cv_throw e ->
  exists h',
    rb_merge self (RArray elts) h = Raise (CvError e) h'
    /\ mats h' = mats h
    /\ forall b, bufs h' !! b = retained (uses b ms) <$> bufs h !! b.
Proof.
  intros [Hmats Hbufs] Hin Hkernel.
  destruct (merge_loop_spec elts h h ms ims Hin eq_refl)
    as (h1 & Hloop & Hm1 & Hnm1 & Hnb1 & Hb1).
  { intros b. exists 0. split; [lia|].
    destruct (bufs h !! b) as [u|]; [|reflexivity].
    cbn [fmap option_fmap option_map]. now rewrite retained_0. }
  unfold rb_merge, rb_merge_array_internal. cbn [Check_Type_ARRAY].
  rewrite bind_ret, (bind_Ok _ _ _ _ _ Hloop).
  unfold mbind at 1, M_bind at 1, new_Mat at 1. cbv beta iota.
  erewrite bind_Ok
    by (apply (images_spec h elts ms ims Hin); intros b; cbn [bufs];
        rewrite Hb1; apply cells_retained).
  rewrite Hkernel. unfold delete_Mat. monad. rewrite lookup_insert_eq.
  unfold Mat_release. cbn [Mat_default m_data]. monad.
  eexists. split; [reflexivity|]. cbn [mats bufs]. split; [|exact Hb1].
  rewrite delete_insert_id by (rewrite Hm1; apply Hmats; lia). exact Hm1.
Qed.

Lemma fresh_addresses_1234_empty : fresh_addresses heap_1234_empty.
Proof.
  split; intros q Hq; cbn [heap_1234_empty mats bufs next_mat next_buf] in *.
  - rewrite lookup_insert_ne by lia. apply lookup_singleton_ne. lia.
  - apply lookup_singleton_ne. lia.
Qed.

(** The matrix 1 2 / 3 4 and a matrix without elements cannot be merged:
    the buffer of the first keeps a second reference. *)
Lemma rb_merge_keeps_references_on_error_witness :
  exists e h',
    rb_merge (O := SampleOperations.operations) Qnil
        (RArray [MatData Cv_Mat (Some 1%nat); MatData Cv_Mat (Some 2%nat)])
        heap_1234_empty
      = Raise (CvError e) h'
    /\ bufs h' !! 1%nat
       = Some (mkUMatData 2 [IntCell 1; IntCell 2; IntCell 3; IntCell 4]).
Proof.
  destruct (rb_merge_keeps_references_on_error (O := SampleOperations.operations)
              heap_1234_empty Qnil
              [MatData Cv_Mat (Some 1%nat); MatData Cv_Mat (Some 2%nat)]
              [header_2x2 1; Mat_default]
              [mkImage CV_8UC1 2 2 [IntCell 1; IntCell 2; IntCell 3; IntCell 4];
               mkImage 0 0 0 []]
              (mkException StsUnmatchedSizes "Sizes of input arguments do not match"))
    as (h' & Hcall & _ & Hbufs).
  - exact fresh_addresses_1234_empty.
  - repeat (constructor; try reflexivity;
            try (intros b off [= <- <-]; eexists; split;
                 [reflexivity | by_computation]));
      intros b off [=].
  - reflexivity.
  - eexists. exists h'. split; [exact Hcall|]. rewrite Hbufs. reflexivity.
Defined.

(** ** Errors after the allocation of the output header *)

Lemma NUM2INT_not_a_number (v : VALUE) (h : heap) :
  is_Numeric v = false -> exists e, NUM2INT v h = Raise e h.
Proof. destruct v; try discriminate; intros _; eexists; reflexivity. Qed.

Lemma NUM2DBL_not_a_number (v : VALUE) (h : heap) :
  is_Numeric v = false -> exists e, NUM2DBL v h = Raise e h.
Proof. destruct v; try discriminate; intros _; eexists; reflexivity. Qed.

(** X22. Where a function makes the output header before it converts its
    arguments, an argument that cannot be converted leaves the header
    behind: the conversion raises, and nothing deletes the header. This is
    so for the flags of [rb_imdecode_as], the threshold of [rb_threshold]
    and the aperture of [rb_median_blur], when they are not numbers. *)
Theorem header_outlives_conversion_error `{K : Kernels} `{O : Operations}
    (h : heap) (self : VALUE) (k : klass) (ptr : option nat) (xs : list Z)
    (flags threshold max_value ksize : VALUE) (t : Z) :
  fresh_addresses h ->
  Forall (fun n => Double.in_int n = true) xs ->
  Double.in_int t = true ->
  is_Numeric flags = false ->
  is_Numeric threshold = false ->
  is_Numeric ksize = false ->
  (exists e h',
     rb_imdecode_as self (RArray (Fixnum <$> xs)) flags k h = Raise e h'
     /\ header_left_behind h h')
  /\ (exists e h',
        rb_threshold (MatData k ptr) threshold max_value (Fixnum t) h
          = Raise e h'
        /\ header_left_behind h h')
  /\ (exists e h',
        rb_median_blur (MatData k ptr) ksize h = Raise e h'
        /\ header_left_behind h h').
Proof.
  intros [Hmats _] Hxs Ht Hflags Hthreshold Hksize.
  assert (mats h !! next_mat h = None) as Hnone by (apply Hmats; lia).
  split; [|split].
  - rewrite (rb_imdecode_run h self flags k xs Hxs).
    unfold mbind at 1, M_bind at 1, new_Mat at 1. cbv beta iota.
    unfold mbind at 1, M_bind at 1.
    match goal with
    | |- context [NUM2INT flags ?h1] =>
        destruct (NUM2INT_not_a_number flags h1 Hflags) as [e ->]
    end.
    exists e. eexists. split; [reflexivity|]. now split.
  - unfold rb_threshold. cbn [obj2mat]. rewrite bind_ret.
    rewrite (bind_Ok _ _ _ _ _ (NUM2INT_Fixnum t h Ht)).
    unfold mbind at 1, M_bind at 1, new_Mat at 1. cbv beta iota.
    unfold mbind at 1, M_bind at 1.
    match goal with
    | |- context [NUM2DBL threshold ?h1] =>
        destruct (NUM2DBL_not_a_number threshold h1 Hthreshold) as [e ->]
    end.
    exists e. eexists. split; [reflexivity|]. now split.
  - unfold rb_median_blur. cbn [obj2mat]. rewrite bind_ret.
    unfold mbind at 1, M_bind at 1, new_Mat at 1. cbv beta iota.
    unfold mbind at 1, M_bind at 1.
    match goal with
    | |- context [NUM2INT ksize ?h1] =>
        destruct (NUM2INT_not_a_number ksize h1 Hksize) as [e ->]
    end.
    exists e. eexists. split; [reflexivity|]. now split.
Qed.

(** A threshold that is a string, on the matrix 1 2 / 3 4. *)
Lemma header_outlives_conversion_error_witness :
  exists e h',
    rb_threshold (K := Sample.kernels) (MatData Cv_Mat (Some 1%nat))
        (RString "high") (Fixnum 255) (Fixnum 0) heap_1234
      = Raise e h'
    /\ mats h' !! 2%nat = Some Mat_default.
Proof.
  destruct (header_outlives_conversion_error (K := Sample.kernels)
              (O := SampleOperations.operations) heap_1234 Qnil Cv_Mat
              (Some 1%nat) [] Qnil (RString "high") (Fixnum 255) Qnil 0
              fresh_addresses_1234 ltac:(constructor) eq_refl eq_refl eq_refl
              eq_refl)
    as (_ & (e & h' & Hcall & _ & Hmats & _) & _).
  exists e, h'. split; [exact Hcall|]. rewrite Hmats. reflexivity.
Defined.

(** ** Factories *)

(** X23. [rb_ones] and [rb_eye] make a matrix of their own: with integer
    arguments they hand them to OpenCV in the order rows, columns, type;
    when the expression has a value they return a plain [Cv::Mat], whatever
    the receiver is, on a new header that holds the value in a buffer of
    its own; when it throws they raise the exception again. Either way the
    matrices and buffers that were on the heap are as before. *)
Theorem factories_return_new `{O : Operations} (h : heap) (self : VALUE)
    (rows cols type : Z) :
  Double.in_int rows = true -> Double.in_int cols = true ->
  Double.in_int type = true ->
  returns_new h Cv_Mat
    (rb_ones self (Fixnum rows) (Fixnum cols) (Fixnum type))
    (cv_ones rows cols type)
  /\ returns_new h Cv_Mat
       (rb_eye self (Fixnum rows) (Fixnum cols) (Fixnum type))
       (cv_eye rows cols type).
Proof.
  intros Hrows Hcols Htype.
  split; apply (wrap_expr_returns_new h Cv_Mat None).
  - unfold rb_ones. run_binding. now destruct (cv_ones rows cols type).
  - unfold rb_eye. run_binding. now destruct (cv_eye rows cols type).
Qed.

(** Two rows and two columns of ones, and an identity that the sample
    collaborator does not implement. *)
Lemma factories_return_new_witness :
  (exists h',
     rb_ones (O := SampleOperations.operations) (MatData Cv_Mat (Some 1%nat))
         (Fixnum 2) (Fixnum 2) (Fixnum 0) heap_1234
       = Ok (MatData Cv_Mat (Some 2%nat)) h'
     /\ bufs h' !! 2%nat
        = Some (mkUMatData 1 [IntCell 1; IntCell 1; IntCell 1; IntCell 1])
     /\ bufs h' !! 1%nat = bufs heap_1234 !! 1%nat)
  /\ (exists e h',
        rb_eye (O := SampleOperations.operations) (MatData Cv_Mat (Some 1%nat))
            (Fixnum 2) (Fixnum 2) (Fixnum 0) heap_1234
          = Raise (CvError e) h'
        /\ mats h' = mats heap_1234 /\ bufs h' = bufs heap_1234).
Proof.
  destruct (factories_return_new (O := SampleOperations.operations) heap_1234
              (MatData Cv_Mat (Some 1%nat)) 2 2 0 eq_refl eq_refl eq_refl)
    as (Hones & Heye).
  split.
  - destruct Hones as (h' & Hcall & _ & Hbufs). exists h'.
    split; [exact Hcall|]. rewrite Hbufs. split; reflexivity.
  - destruct Heye as (h' & Hcall & Hmats & Hbufs).
    eexists. exists h'. split; [exact Hcall|]. split; assumption.
Defined.

(** ** Diagonals *)

(** [rb_diag] on a live two-dimensional matrix with a buffer. *)
Lemma rb_diag_run (h : heap) (k : klass) (p : nat) (m : Mat) (b : nat)
    (off : Z) (u : UMatData) (d : Z) :
  mats h !! p = Some m ->
  m_data m = Some (b, off) ->
  bufs h !! b = Some u ->
  0 < refcount u ->
  m_dims m = 2 ->
  Double.in_int d = true ->
  rb_diag [Fixnum d] (MatData k (Some p)) h
  = Ok (MatData k (Some (next_mat h)))
      {| mats := <[next_mat h := diag_header m d]> (mats h);
         bufs := <[b := mkUMatData (refcount u + 1) (cells u)]> (bufs h);
         next_mat := S (next_mat h); next_buf := next_buf h |}.
Proof.
  intros Hm Hdata Hbuf Hcount Hdims Hd. unfold rb_diag. scan_args.
  cbn [NIL_P obj2mat].
  rewrite (bind_Ok _ _ _ _ _ (NUM2INT_Fixnum d h Hd)).
  rewrite bind_ret.
  unfold mbind at 1, M_bind at 1, deref at 1. rewrite Hm. cbv beta iota.
  unfold Mat_diag. rewrite Hdims. change (negb (2 <=? 2)) with false. cbv iota.
  unfold new_Mat_copy, Mat_addref, Mat_release, diag_header.
  cbn [m_data]. rewrite Hdata.
  monad. rewrite Hbuf. monad.
  rewrite lookup_insert_eq. monad. rewrite lookup_insert_eq. monad.
  destruct (Z.eqb_spec (refcount u + 1 + 1) 1); [lia|].
  cbn [mats bufs next_mat next_buf mat2obj CLASS_OF].
  rewrite !insert_insert_eq.
  replace (refcount u + 1 + 1 - 1) with (refcount u + 1) by lia.
  reflexivity.
Qed.

(** X24. [rb_diag] copies no data: on a live two-dimensional matrix with
    a buffer it returns an object of the class of the receiver on a new
    header of one column that points into the buffer of the matrix, which
    gains one reference; without an argument it takes the main diagonal.
    For [d >= 0] element (i, 0) of the result is element (i, i + d) of the
    matrix, on or above the main diagonal, and for [d < 0] it is element
    (i - d, i), below it: in every heap that holds the two headers, reading
    it through either handle gives the same result, and writing it through
    either handle has the same effect. *)
Theorem rb_diag_view (h : heap) (k : klass) (p : nat) (m : Mat) (b : nat)
    (off : Z) (u : UMatData) (d : Z) :
  fresh_addresses h ->
  mats h !! p = Some m ->
  m_data m = Some (b, off) ->
  bufs h !! b = Some u ->
  0 < refcount u ->
  m_dims m = 2 ->
  Double.in_int d = true ->
  let q := next_mat h in
  let row i := if 0 <=? d then i else i - d in
  let col i := if 0 <=? d then i + d else i in
  exists h1,
    rb_diag [Fixnum d] (MatData k (Some p)) h = Ok (MatData k (Some q)) h1
    /\ (d = 0 -> rb_diag [] (MatData k (Some p)) h = Ok (MatData k (Some q)) h1)
    /\ mats h1 !! q = Some (diag_header m d)
    /\ mats h1 !! p = Some m
    /\ m_rows (diag_header m d) = diag_length m d
    /\ m_cols (diag_header m d) = 1
    /\ bufs h1 = <[b := mkUMatData (refcount u + 1) (cells u)]> (bufs h)
    /\ next_buf h1 = next_buf h
    /\ forall (h' : heap) (i : Z) (s : Scalar),
         mats h' !! q = Some (diag_header m d) ->
         mats h' !! p = Some m ->
         0 <= i < diag_length m d ->
         Double.in_int i = true ->
         Double.in_int (row i) = true ->
         Double.in_int (col i) = true ->
         rb_aref (MatData k (Some q)) [Fixnum i; Fixnum 0] h'
         = rb_aref (MatData k (Some p)) [Fixnum (row i); Fixnum (col i)] h'
         /\ (Double.in_int (col i * Mat_channels m) = true ->
             effect (rb_aset (MatData k (Some q)) (Fixnum i) (Fixnum 0)
                       (ScalarData s)) h'
             = effect (rb_aset (MatData k (Some p)) (Fixnum (row i))
                         (Fixnum (col i)) (ScalarData s)) h').
Proof.
  intros Hfresh Hm Hdata Hbuf Hcount Hdims Hd q row col.
  assert (m_data (diag_header m d)
          = Some (b, if 0 <=? d then off + d * Mat_channels m
                     else off - m_step m * d)) as Hv
    by (unfold diag_header; cbn [m_data]; now rewrite Hdata).
  assert (forall i, 0 <= i < diag_length m d ->
          (if 0 <=? d then off + d * Mat_channels m else off - m_step m * d)
          + i * m_step (diag_header m d)
          = off + row i * m_step m + col i * Mat_channels m) as Hpos.
  { intros i Hi. unfold row, col. cbn [m_step diag_header].
    destruct (Z.ltb_spec 1 (diag_length m d)).
    - destruct (0 <=? d); lia.
    - assert (i = 0) as -> by lia. destruct (0 <=? d); lia. }
  eexists. split; [|split; [|split; [|split; [|split; [|split; [|split; [|split]]]]]]].
  - apply (rb_diag_run h k p m b off u d); assumption.
  - intros ->.
    etransitivity; [|apply (rb_diag_run h k p m b off u 0); assumption].
    unfold rb_diag. scan_args. scan_args. cbn [NIL_P].
    rewrite bind_ret. now rewrite (bind_Ok _ _ _ _ _ (NUM2INT_Fixnum 0 h eq_refl)).
  - cbn [mats]. apply lookup_insert_eq.
  - cbn [mats]. rewrite lookup_insert_ne; [exact Hm|].
    pose proof (live_below h p m Hfresh Hm). unfold q. lia.
  - reflexivity.
  - reflexivity.
  - reflexivity.
  - reflexivity.
  - intros h' i s Hq Hp Hi Hii Hrow Hcol. split.
    + aref_switch h' k q (diag_header m d) [i; 0] Hq.
      aref_switch h' k p m [row i; col i] Hp.
      change (Mat_depth (diag_header m d)) with (Mat_depth m).
      destruct (ctype_of_depth (Mat_depth m)) as [T|]; [|reflexivity].
      unfold mbind, M_bind.
      rewrite (Mat_at_Scalar_same T (diag_header m d) m b _ off
                 (i * m_step (diag_header m d) + (0 * Mat_channels m + 0))
                 (row i * m_step m + (col i * Mat_channels m + 0))
                 [i; 0] [row i; col i] h' Hv Hdata);
        [reflexivity | now apply (ptr_offset_2 (diag_header m d))
        | now apply ptr_offset_2 | specialize (Hpos i Hi); lia].
    + intros Hx. rewrite !effect_run.
      rewrite (rb_aset_switch h' k q (diag_header m d) i 0 s Hq Hii eq_refl).
      rewrite (rb_aset_switch h' k p m (row i) (col i) s Hp Hrow Hcol).
      change (Mat_depth (diag_header m d)) with (Mat_depth m).
      change (Mat_channels (diag_header m d)) with (Mat_channels m).
      unfold int_mul. rewrite Hx. change (0 * Mat_channels m) with 0.
      change (Double.in_int 0) with true. monad.
      destruct (ctype_of_depth (Mat_depth m)) as [T|]; [|reflexivity].
      rewrite (Mat_store_same T (diag_header m d) m b _ off i (row i)
                 0 (col i * Mat_channels m) s h'
                 Hv Hdata eq_refl) by (specialize (Hpos i Hi); lia).
      destruct (Mat_store T m (row i) (col i * Mat_channels m) s h');
        reflexivity.
Qed.

(** The diagonal 1 of the matrix 1 2 / 3 4 has one element, the 2 above
    the main diagonal. *)
Lemma rb_diag_view_witness :
  exists h1,
    rb_diag [Fixnum 1] (MatData Cv_Mat (Some 1%nat)) heap_1234
      = Ok (MatData Cv_Mat (Some 2%nat)) h1
    /\ bufs h1 !! 1%nat
       = Some (mkUMatData 2 [IntCell 1; IntCell 2; IntCell 3; IntCell 4])
    /\ rb_aref (MatData Cv_Mat (Some 2%nat)) [Fixnum 0; Fixnum 0] h1
       = rb_aref (MatData Cv_Mat (Some 1%nat)) [Fixnum 0; Fixnum 1] h1.
Proof.
  destruct (rb_diag_view heap_1234 Cv_Mat 1%nat
              {| m_type := CV_8UC1; m_dims := 2; m_rows := 2; m_cols := 2;
                 m_step := 2; m_data := Some (1%nat, 0) |}
              1%nat 0 (mkUMatData 1 [IntCell 1; IntCell 2; IntCell 3; IntCell 4])
              1 fresh_addresses_1234 eq_refl eq_refl eq_refl eq_refl eq_refl
              eq_refl)
    as (h1 & Hnew & _ & Hq & Hp & _ & _ & Hbufs & _ & Hsame).
  exists h1. split; [exact Hnew|]. split.
  - rewrite Hbufs. reflexivity.
  - apply (Hsame h1 0 (Scalar1 (Double.of_int 9)) Hq Hp);
      first [reflexivity | split; [discriminate | reflexivity]].
Defined.

(** ** Writing a file *)


